(** * AgentOS: a shallow embedding of the orchestration core

    The development follows the Python sources module by module:
    - [core/config.py]           -> [Module Config]
    - [core/audit_strategies.py] -> [Module AuditStrategies]
    - [core/skill_registry.py]   -> [Module Registry]
    - [core/agent.py]            -> [Module Agent]
    - [core/llm.py]              -> [Module LLM]
    - [core/nodes/actor.py]      -> [Module Actor]
    - [core/nodes/auditor.py]    -> [Module Auditor]
    - [core/graph.py]            -> [Module Graph]
    - [core/memory_manager.py]   -> [Module Memory]
    with [PyStr], [Py], [Json] and [Re] for the parts of Python's strings,
    values, [json.dumps] and [re] that these sources use.

    Text is a [string] whose characters are read as the code points 0..255.
    Python exceptions are explicit: a fallible function returns an
    [outcome]. The outside world (environment variables, the LLM backend,
    [exec], the file system, the clock) is passed in as explicit arguments. *)

From Stdlib Require Import ZArith QArith Ascii String List Bool Lia.
From stdpp Require Import base decidable option list strings gmap fin_maps pretty.

Local Open Scope Z_scope.
#[local] Arguments String.append : simpl nomatch.

(** ** Python strings *)

Module PyStr.

Definition code (c : ascii) : N := N_of_ascii c.

Definition in_range (lo hi : N) (c : ascii) : bool :=
  ((lo <=? code c) && (code c <=? hi))%N.

(** [c in chars], for a character of a string used as a character set. *)
Fixpoint mem (c : ascii) (chars : string) : bool :=
  match chars with
  | EmptyString => false
  | String d rest => if Ascii.eqb c d then true else mem c rest
  end.

Definition is_empty (s : string) : bool :=
  match s with EmptyString => true | String _ _ => false end.

(** The line feed, written [\n] in the Python sources. *)
Definition nl : string := String "010"%char EmptyString.

(** [str.lower()] on one character: A-Z and the Latin-1 capitals
    (U+00C0..U+00DE except U+00D7) move up by 32. *)
Definition lower_char (c : ascii) : ascii :=
  if in_range 65 90 c
     || (in_range 192 222 c && negb (code c =? 215)%N)
  then ascii_of_N (code c + 32) else c.

Fixpoint lower (s : string) : string :=
  match s with
  | EmptyString => EmptyString
  | String c rest => String (lower_char c) (lower rest)
  end.

(** [s.startswith(p)] *)
Fixpoint startswith (p s : string) : bool :=
  match p, s with
  | EmptyString, _ => true
  | String a p', String b s' => Ascii.eqb a b && startswith p' s'
  | String _ _, EmptyString => false
  end.

(** [p in s] *)
Fixpoint contains (p s : string) : bool :=
  startswith p s ||
  match s with
  | EmptyString => false
  | String _ s' => contains p s'
  end.

(** [s.endswith(p)] *)
Fixpoint endswith (p s : string) : bool :=
  String.eqb p s ||
  match s with
  | EmptyString => false
  | String _ s' => endswith p s'
  end.

(** [s.rstrip(chars)]: drops every trailing character that belongs to the
    set [chars]; the argument is a set of characters, not a suffix. *)
Fixpoint rstrip (chars s : string) : string :=
  match s with
  | EmptyString => EmptyString
  | String c rest =>
      let r := rstrip chars rest in
      if is_empty r && mem c chars then EmptyString else String c r
  end.

(** [s.lstrip(chars)] *)
Fixpoint lstrip (chars s : string) : string :=
  match s with
  | EmptyString => EmptyString
  | String c rest => if mem c chars then lstrip chars rest else s
  end.

(** Unicode white space below U+0100, as [str.isspace] and the regular
    expression class [\s] see it. *)
Definition is_space (c : ascii) : bool :=
  in_range 9 13 c || in_range 28 32 c || (code c =? 133)%N || (code c =? 160)%N.

(** Word characters below U+0100 ([\w]): alphanumerics and the underscore. *)
Definition is_word (c : ascii) : bool :=
  in_range 48 57 c || in_range 65 90 c || in_range 97 122 c || (code c =? 95)%N
  || (code c =? 170)%N || (code c =? 178)%N || (code c =? 179)%N
  || (code c =? 181)%N || in_range 185 186 c || in_range 188 190 c
  || in_range 192 214 c || in_range 216 246 c || in_range 248 255 c.

Fixpoint lstrip_space (s : string) : string :=
  match s with
  | EmptyString => EmptyString
  | String c rest => if is_space c then lstrip_space rest else s
  end.

Fixpoint rstrip_space (s : string) : string :=
  match s with
  | EmptyString => EmptyString
  | String c rest =>
      let r := rstrip_space rest in
      if is_empty r && is_space c then EmptyString else String c r
  end.

(** [s.strip()] *)
Definition strip (s : string) : string := rstrip_space (lstrip_space s).

Fixpoint drop (n : nat) (s : string) : string :=
  match n, s with
  | O, _ => s
  | S _, EmptyString => EmptyString
  | S n', String _ s' => drop n' s'
  end.

(** [s[:n]] for a non-negative [n]. *)
Fixpoint take (n : nat) (s : string) : string :=
  match n, s with
  | O, _ => EmptyString
  | S _, EmptyString => EmptyString
  | S n', String c s' => String c (take n' s')
  end.

(** [s.split(sep)] for a non-empty separator. The fuel is the length of
    the text, which bounds the number of separators found. *)
Fixpoint split_go (fuel : nat) (sep cur s : string) : list string :=
  match fuel with
  | O => [cur +:+ s]
  | S fuel' =>
      match s with
      | EmptyString => [cur]
      | String c rest =>
          if startswith sep s
          then cur :: split_go fuel' sep EmptyString (drop (String.length sep) s)
          else split_go fuel' sep (cur +:+ String c EmptyString) rest
      end
  end.

Definition split (sep s : string) : list string :=
  split_go (String.length s) sep EmptyString s.

(** [sep.join(parts)] *)
Fixpoint join (sep : string) (parts : list string) : string :=
  match parts with
  | [] => EmptyString
  | [p] => p
  | p :: rest => p +:+ sep +:+ join sep rest
  end.

(** [s.replace(old, new)] for a non-empty [old]. *)
Definition replace (old new s : string) : string := join new (split old s).

(** What a file opened for reading in text mode hands over: with universal
    newlines the pair CR LF and a CR on its own both arrive as one line
    feed. [after_cr] tells that the character before was a CR. (Writing in
    text mode leaves the text as it is where the line separator is the line
    feed.) *)
Fixpoint read_newlines (after_cr : bool) (s : string) : string :=
  match s with
  | EmptyString => EmptyString
  | String c rest =>
      if Ascii.eqb c "013"%char then String "010"%char (read_newlines true rest)
      else if Ascii.eqb c "010"%char && after_cr then read_newlines false rest
      else String c (read_newlines false rest)
  end.

Definition universal_newlines (s : string) : string := read_newlines false s.

(** [l[-n:]] for a positive [n]: the last [n] items, or all of them. *)
Definition last_n {A} (n : nat) (l : list A) : list A :=
  List.skipn (List.length l - n) l.

End PyStr.

(** ** Exceptions *)

(** [SystemExit] stands for the exceptions that derive from
    [BaseException] only, which [except Exception] lets through. *)
Inductive exn_class :=
  ValueError | RuntimeError | TypeError | IndexError | AttributeError | OverflowError
| OSError | GraphRecursionError | OtherError | SystemExit.

Record pyexn := MkExn { exn_kind : exn_class; exn_msg : string }.

(** [isinstance(e, Exception)] *)
Definition is_exception (e : pyexn) : bool :=
  match exn_kind e with SystemExit => false | _ => true end.

Inductive outcome (A : Type) : Type :=
| Return (a : A)
| Raise (e : pyexn).
Arguments Return {A} a.
Arguments Raise {A} e.

#[global] Instance outcome_ret : MRet outcome := fun A a => Return a.

#[global] Instance outcome_bind : MBind outcome := fun A B k m =>
  match m with
  | Return a => k a
  | Raise e => Raise e
  end.

(** ** core/config.py *)

Module Config.

Record AgentOSConfig := {
  LLM_PROVIDER : string;
  OLLAMA_BASE_URL : string;
  REASONING_MODEL : string;
  PARSER_MODEL : string;
  TOOL_MODEL : string;
  EMBEDDING_MODEL : string;
  GOOGLE_API_KEY : option string;
  GOOGLE_REASONING_MODEL : string;
  GOOGLE_PARSER_MODEL : string;
  ENABLE_OBSERVABILITY : bool
}.

(** The dataclass defaults. *)
Definition default_config : AgentOSConfig := {|
  LLM_PROVIDER := "ollama";
  OLLAMA_BASE_URL := "http://192.168.4.102:11434";
  REASONING_MODEL := "gpt-oss:20b";
  PARSER_MODEL := "llama3.1:8b";
  TOOL_MODEL := "llama3.1:8b";
  EMBEDDING_MODEL := "nomic-embed-text";
  GOOGLE_API_KEY := None;
  GOOGLE_REASONING_MODEL := "gemini-1.5-pro-latest";
  GOOGLE_PARSER_MODEL := "gemini-1.5-flash-latest";
  ENABLE_OBSERVABILITY := true
|}.

Definition str_in (s : string) (l : list string) : bool :=
  existsb (String.eqb s) l.

(** [_validate], run by [__post_init__]. *)
Definition _validate (c : AgentOSConfig) : outcome unit :=
  if negb (str_in (LLM_PROVIDER c) ["ollama"; "mock"; "google"]) then
    Raise (MkExn ValueError
             ("Invalid LLM_PROVIDER: " +:+ LLM_PROVIDER c
                +:+ ". Must be one of: ['ollama', 'mock', 'google']"))
  else if String.eqb (LLM_PROVIDER c) "ollama" && PyStr.is_empty (OLLAMA_BASE_URL c) then
    Raise (MkExn ValueError "OLLAMA_BASE_URL must be set when using ollama provider")
  else if String.eqb (LLM_PROVIDER c) "ollama"
          && negb (PyStr.startswith "http" (OLLAMA_BASE_URL c)) then
    Raise (MkExn ValueError
             ("OLLAMA_BASE_URL must start with http:// or https://, got: "
                +:+ OLLAMA_BASE_URL c))
  else if String.eqb (LLM_PROVIDER c) "google"
          && match GOOGLE_API_KEY c with
             | None => true
             | Some k => PyStr.is_empty k
             end then
    Raise (MkExn ValueError "GOOGLE_API_KEY must be set when using google provider")
  else Return tt.

(** [os.getenv(name, default)] over the process environment. *)
Definition getenv (env : gmap string string) (name dflt : string) : string :=
  default dflt (env !! name).

(** The helper [to_bool] of [from_env]. *)
Definition to_bool (value : option string) (dflt : bool) : bool :=
  match value with
  | None => dflt
  | Some v => str_in (PyStr.lower v) ["true"; "1"; "yes"; "on"]
  end.

(** The sanitising line of [from_env]:
    [url.rstrip('/').rstrip('/v1').rstrip('/api').rstrip('/')]. *)
Definition sanitize_url (url : string) : string :=
  PyStr.rstrip "/" (PyStr.rstrip "/api" (PyStr.rstrip "/v1" (PyStr.rstrip "/" url))).

(** [AgentOSConfig.from_env], with the process environment as argument. *)
Definition from_env (env : gmap string string) : outcome AgentOSConfig :=
  let provider := PyStr.lower (getenv env "LLM_PROVIDER" "ollama") in
  let ollama_base_url := getenv env "OLLAMA_BASE_URL" "http://192.168.4.102:11434" in
  let ollama_base_url :=
    if negb (PyStr.is_empty ollama_base_url) then sanitize_url ollama_base_url
    else ollama_base_url in
  let '(reasoning_model, parser_model, tool_model) :=
    if String.eqb provider "ollama" then
      (getenv env "MODEL_LOCAL_PLANNER" "gpt-oss:20b",
       getenv env "MODEL_LOCAL_ACTOR" "llama3.1:8b",
       getenv env "MODEL_LOCAL_ACTOR" "llama3.1:8b")
    else if String.eqb provider "google" then
      (getenv env "MODEL_PLANNER" "gemini-1.5-pro-latest",
       getenv env "MODEL_ACTOR" "gemini-1.5-flash-latest",
       getenv env "MODEL_ACTOR" "gemini-1.5-flash-latest")
    else ("mock", "mock", "mock") in
  let cfg := {|
    LLM_PROVIDER := provider;
    OLLAMA_BASE_URL := ollama_base_url;
    REASONING_MODEL := reasoning_model;
    PARSER_MODEL := parser_model;
    TOOL_MODEL := tool_model;
    EMBEDDING_MODEL := "nomic-embed-text";
    GOOGLE_API_KEY := env !! "GOOGLE_API_KEY";
    GOOGLE_REASONING_MODEL := getenv env "MODEL_PLANNER" "gemini-1.5-pro-latest";
    GOOGLE_PARSER_MODEL := getenv env "MODEL_ACTOR" "gemini-1.5-flash-latest";
    ENABLE_OBSERVABILITY := to_bool (env !! "ENABLE_OBSERVABILITY") true
  |} in
  _ ← _validate cfg; Return cfg.

End Config.

(** ** Python values

    The JSON-shaped part of Python's object universe: what [json.loads]
    returns, what skill hooks take and return. A float carries its printed
    form only. A [dict] is kept in insertion order. *)

#[local] Set Warnings "-register-all".

Inductive pyval :=
| PNone
| PBool (b : bool)
| PInt (z : Z)
| PFloat (printed : string)
| PStr (s : string)
| PList (items : list pyval)
| PDict (entries : list (string * pyval)).

Module Py.

(** [d.get(k)] on the entries of a dict. *)
Fixpoint dict_get {V} (k : string) (d : list (string * V)) : option V :=
  match d with
  | [] => None
  | (k', v) :: rest => if String.eqb k k' then Some v else dict_get k rest
  end.

(** [d[k] = v]: the value is replaced in place when the key is present,
    otherwise the entry is appended. *)
Fixpoint dict_set {V} (k : string) (v : V) (d : list (string * V)) : list (string * V) :=
  match d with
  | [] => [(k, v)]
  | (k', v') :: rest =>
      if String.eqb k k' then (k', v) :: rest else (k', v') :: dict_set k v rest
  end.

(** [{row[0]: row[1] for row in rows}] *)
Definition dict_of_rows {V} (rows : list (string * V)) : list (string * V) :=
  fold_left (fun d kv => dict_set (fst kv) (snd kv) d) rows [].

(** Truth value of an object, as [if x:] and [not x] test it. *)
Definition truthy (v : pyval) : bool :=
  match v with
  | PNone => false
  | PBool b => b
  | PInt z => negb (z =? 0)%Z
  | PFloat p => negb (String.eqb p "0.0" || String.eqb p "-0.0")
  | PStr s => negb (PyStr.is_empty s)
  | PList l => match l with [] => false | _ => true end
  | PDict d => match d with [] => false | _ => true end
  end.

Definition hex_digit (n : N) : ascii :=
  if (n <? 10)%N then ascii_of_N (48 + n) else ascii_of_N (87 + n).

(** Two lower-case hexadecimal digits of a code point below 256. *)
Definition hex2 (c : ascii) : string :=
  String (hex_digit (PyStr.code c / 16)) (String (hex_digit (PyStr.code c mod 16)) EmptyString).

(** [str.isprintable] on one character below U+0100. *)
Definition is_printable (c : ascii) : bool :=
  PyStr.in_range 32 126 c || (PyStr.in_range 161 255 c && negb (PyStr.code c =? 173)%N).

Definition bslash : ascii := "092"%char.
Definition squote : ascii := "039"%char.
Definition dquote : ascii := "034"%char.

Fixpoint repr_body (q : ascii) (s : string) : string :=
  match s with
  | EmptyString => EmptyString
  | String c rest =>
      (if Ascii.eqb c bslash then String bslash (String bslash EmptyString)
       else if Ascii.eqb c q then String bslash (String q EmptyString)
       else if Ascii.eqb c "010"%char then String bslash "n"
       else if Ascii.eqb c "013"%char then String bslash "r"
       else if Ascii.eqb c "009"%char then String bslash "t"
       else if is_printable c then String c EmptyString
       else String bslash ("x" +:+ hex2 c))
      +:+ repr_body q rest
  end.

(** [repr(s)] of a string: single quotes unless the text has a single quote
    and no double quote. *)
Definition repr_str (s : string) : string :=
  let q := if PyStr.mem squote s && negb (PyStr.mem dquote s) then dquote else squote in
  String q (repr_body q s +:+ String q EmptyString).

(** [repr(v)] *)
Fixpoint repr (v : pyval) : string :=
  match v with
  | PNone => "None"
  | PBool b => if b then "True" else "False"
  | PInt z => pretty z
  | PFloat p => p
  | PStr s => repr_str s
  | PList l => "[" +:+ PyStr.join ", " (map repr l) +:+ "]"
  | PDict d =>
      "{" +:+ PyStr.join ", " (map (fun kv => repr_str (fst kv) +:+ ": " +:+ repr (snd kv)) d)
          +:+ "}"
  end.

(** [v == s] for a string literal [s]. *)
Definition eq_str (v : pyval) (s : string) : bool :=
  match v with
  | PStr t => String.eqb t s
  | _ => false
  end.

(** [str(v)], the rendering an f-string uses. *)
Definition str (v : pyval) : string :=
  match v with
  | PStr s => s
  | _ => repr v
  end.

End Py.

(** ** core/audit_strategies.py *)

Module AuditStrategies.

Inductive severity_level := INFO | WARNING | ERROR.

Record AuditResult := MkAudit {
  passed : bool;
  message : string;
  severity : severity_level
}.

(** A path argument as the [os] calls read it: text, or an integer taken
    as a file descriptor. *)
Inductive fs_path :=
| PathStr (s : string)
| PathFd (fd : Z).

(** What the strategies can observe at a path: nothing there, a file that
    reads as [content], or an entry whose [open]/[read] raises with text
    [err] (a directory, bytes that are not UTF-8, ...). *)
Inductive fs_node :=
| RegularFile (content : string)
| Unreadable (err : string).

Definition FileSystem := fs_path -> option fs_node.

Definition type_name (v : pyval) : string :=
  match v with
  | PNone => "NoneType"
  | PBool _ => "bool"
  | PInt _ => "int"
  | PFloat _ => "float"
  | PStr _ => "str"
  | PList _ => "list"
  | PDict _ => "dict"
  end.

(** The argument check of [os.stat]: text is a path, an integer is a file
    descriptor and has to fit a C [int], anything else is refused. *)
Definition to_path (v : pyval) : outcome fs_path :=
  match v with
  | PStr s => Return (PathStr s)
  | PInt z =>
      if (2147483647 <? z)%Z then Raise (MkExn OverflowError "fd is greater than maximum")
      else if (z <? -2147483648)%Z then Raise (MkExn OverflowError "fd is less than minimum")
      else Return (PathFd z)
  | PBool b => Return (PathFd (if b then 1 else 0))
  | _ => Raise (MkExn TypeError
                  ("stat: path should be string, bytes, os.PathLike or integer, not "
                     +:+ type_name v))
  end.

Definition quoted (path : pyval) : string := "'" +:+ Py.str path +:+ "'".

Definition verify_file_exists (fs : FileSystem) (path : pyval) : outcome AuditResult :=
  p ← to_path path;
  Return match fs p with
         | Some _ => MkAudit true ("File " +:+ quoted path +:+ " exists.") INFO
         | None => MkAudit false ("File " +:+ quoted path +:+ " NOT found.") ERROR
         end.

Definition verify_file_content_contains (fs : FileSystem) (path substring : pyval)
  : outcome AuditResult :=
  p ← to_path path;
  Return match fs p with
  | None => MkAudit false ("File " +:+ quoted path +:+ " does not exist.") ERROR
  | Some (Unreadable err) =>
      MkAudit false ("Error reading file " +:+ quoted path +:+ ": " +:+ err) ERROR
  | Some (RegularFile content) =>
      match substring with
      | PStr sub =>
          if PyStr.contains sub content then
            MkAudit true ("File " +:+ quoted path +:+ " contains expected text.") INFO
          else
            let preview :=
              if (50 <? String.length content)%nat
              then PyStr.take 50 content +:+ "..." else content in
            MkAudit false
              ("File " +:+ quoted path +:+ " content mismatch. Found: '" +:+ preview +:+ "'")
              ERROR
      | _ =>
          MkAudit false
            ("Error reading file " +:+ quoted path
               +:+ ": 'in <string>' requires string as left operand, not "
               +:+ type_name substring) ERROR
      end
  end.

Definition verify_file_does_not_exist (fs : FileSystem) (path : pyval) : outcome AuditResult :=
  p ← to_path path;
  Return match fs p with
         | None => MkAudit true ("File " +:+ quoted path +:+ " correctly does not exist.") INFO
         | Some _ => MkAudit false ("File " +:+ quoted path +:+ " exists but should not.") ERROR
         end.

Definition verify_tool_output_success (previous_output : string) : AuditResult :=
  if PyStr.contains "error" (PyStr.lower previous_output)
     || PyStr.contains "exception" (PyStr.lower previous_output)
     || PyStr.contains "failed" (PyStr.lower previous_output)
  then MkAudit false ("Previous step reported error: " +:+ previous_output) ERROR
  else MkAudit true "Previous step executed successfully." INFO.

End AuditStrategies.

(** ** core/skill_registry.py *)

Module Registry.

(** The callable behind a skill: keyword arguments in, a value or an
    exception out. *)
Definition hook := list (string * pyval) -> outcome pyval.

Record Skill := MkSkill {
  name : string;
  description : string;
  agent : string;
  category : string;
  module_path : string;
  parameters : list (string * list (string * pyval));
  returns : pyval;
  examples : list pyval;
  tags : list string;
  version : string;
  is_core : bool;
  overrides_core : bool;
  prompt_instructions : option string;
  _execute_func : option hook
}.

(** [skill.overrides_core = True] *)
Definition set_overrides_core (s : Skill) : Skill :=
  MkSkill (name s) (description s) (agent s) (category s) (module_path s)
          (parameters s) (returns s) (examples s) (tags s) (version s)
          (is_core s) true (prompt_instructions s) (_execute_func s).

(** The validation loop of [Skill.execute]: the first required parameter
    that is absent from [params], in the order of [parameters.items()]. *)
Fixpoint first_missing (ps : list (string * list (string * pyval)))
         (params : list (string * pyval)) : option string :=
  match ps with
  | [] => None
  | (param_name, param_spec) :: rest =>
      if Py.truthy (default (PBool false) (Py.dict_get "required" param_spec))
         && negb (bool_decide (is_Some (Py.dict_get param_name params)))
      then Some param_name
      else first_missing rest params
  end.

(** [Skill.execute], called with the keyword arguments [params]. *)
Definition execute (s : Skill) (params : list (string * pyval)) : outcome pyval :=
  match _execute_func s with
  | None =>
      Raise (MkExn RuntimeError ("Skill " +:+ name s +:+ " has no execute function loaded"))
  | Some f =>
      match first_missing (parameters s) params with
      | Some param_name =>
          Raise (MkExn ValueError
                   ("Missing required parameter '" +:+ param_name +:+ "' for skill '"
                      +:+ name s +:+ "'"))
      | None =>
          match f params with
          | Return v => Return v
          | Raise e =>
              if is_exception e then
                Raise (MkExn RuntimeError
                         ("Skill '" +:+ name s +:+ "' execution failed: " +:+ exn_msg e))
              else Raise e
          end
      end
  end.

Record SkillRegistry := MkRegistry {
  agent_name : string;
  _skills : gmap string Skill;
  _core_skills : gmap string Skill;
  _skills_by_agent : gmap string (list string);
  _skills_by_category : gmap string (list string);
  _initialized : bool
}.

(** [SkillRegistry(agent_name)] *)
Definition new_registry (agent_name : string) : SkillRegistry :=
  MkRegistry agent_name ∅ ∅ ∅ ∅ false.

(** The two index updates of [register_skill]: create the list when the key
    is new, append the name when the list does not hold it yet. *)
Definition index_add (key skill_name : string) (idx : gmap string (list string))
  : gmap string (list string) :=
  let names := default [] (idx !! key) in
  if bool_decide (skill_name ∈ names) then <[key := names]> idx
  else <[key := names ++ [skill_name]]> idx.

(** [register_skill]. The three branches taken when the name is already in
    the primary index differ only in the message printed, except that the
    first one also sets [overrides_core] on the incoming skill. *)
Definition register_skill (r : SkillRegistry) (skill : Skill) : SkillRegistry :=
  let skill :=
    match _skills r !! name skill with
    | Some existing =>
        if is_core existing && negb (is_core skill) then set_overrides_core skill
        else skill
    | None => skill
    end in
  let core' :=
    if is_core skill then <[name skill := skill]> (_core_skills r) else _core_skills r in
  MkRegistry (agent_name r)
             (<[name skill := skill]> (_skills r))
             core'
             (index_add (agent skill) (name skill) (_skills_by_agent r))
             (index_add (category skill) (name skill) (_skills_by_category r))
             (_initialized r).

Definition get_skill (r : SkillRegistry) (n : string) : option Skill := _skills r !! n.

Definition has_skill (r : SkillRegistry) (n : string) : bool :=
  bool_decide (is_Some (_skills r !! n)).

(** [SkillRegistry.execute_skill] *)
Definition execute_skill (r : SkillRegistry) (n : string) (params : list (string * pyval))
  : outcome pyval :=
  match get_skill r n with
  | None => Raise (MkExn ValueError ("Skill '" +:+ n +:+ "' not found in registry"))
  | Some skill => execute skill params
  end.

(** The list comprehension of [get_skills_by_agent] and
    [get_skills_by_category]: [self._skills[name]] for each listed name, a
    [KeyError] for a name the primary index lacks. *)
Fixpoint lookup_all (skills : gmap string Skill) (names : list string)
  : outcome (list Skill) :=
  match names with
  | [] => Return []
  | n :: rest =>
      match skills !! n with
      | Some s => found ← lookup_all skills rest; Return (s :: found)
      | None => Raise (MkExn OtherError ("KeyError: '" +:+ n +:+ "'"))
      end
  end.

(** [get_skills_by_agent] *)
Definition get_skills_by_agent (r : SkillRegistry) (agent : string) : outcome (list Skill) :=
  lookup_all (_skills r) (default [] (_skills_by_agent r !! agent)).

(** [get_skills_by_category] *)
Definition get_skills_by_category (r : SkillRegistry) (category : string)
  : outcome (list Skill) :=
  lookup_all (_skills r) (default [] (_skills_by_category r !! category)).

End Registry.

(** ** Regular expressions

    A backtracking matcher for the fragment of [re] that the Actor's pattern
    uses. [rmatch r s] lists the ways [r] can match a prefix of [s], in the
    order in which a backtracking engine tries them; each way is the text
    captured by the group (if any) and the text left. *)

Module Re.

Inductive regex :=
| RChar (p : ascii -> bool)
| RSeq (a b : regex)
| RAlt (a b : regex)
| ROpt (a : regex)
| RPlus (a : regex)
| RGroup (a : regex).

Definition consumed (s rest : string) : string :=
  PyStr.take (String.length s - String.length rest) s.

Fixpoint rmatch (r : regex) (s : string) : list (option string * string) :=
  match r with
  | RChar p =>
      match s with
      | String c rest => if p c then [(None, rest)] else []
      | EmptyString => []
      end
  | RSeq a b =>
      flat_map (fun m1 =>
                  map (fun m2 => (match fst m2 with Some g => Some g | None => fst m1 end,
                                  snd m2))
                      (rmatch b (snd m1)))
               (rmatch a s)
  | RAlt a b => rmatch a s ++ rmatch b s
  | ROpt a => rmatch a s ++ [(None, s)]
  | RPlus a =>
      (fix loop (fuel : nat) (s : string) : list (option string * string) :=
         match fuel with
         | O => []
         | S fuel' =>
             flat_map (fun m =>
                         (if (String.length (snd m) <? String.length s)%nat
                          then loop fuel' (snd m) else [])
                         ++ [m])
                      (rmatch a s)
         end) (S (String.length s)) s
  | RGroup a => map (fun m => (Some (consumed s (snd m)), snd m)) (rmatch a s)
  end.

(** [re.search(r, s)]: the first match at the leftmost position that has
    one; the result is group 1. *)
Fixpoint search (r : regex) (s : string) : option (option string) :=
  match rmatch r s with
  | m :: _ => Some (fst m)
  | [] =>
      match s with
      | EmptyString => None
      | String _ rest => search r rest
      end
  end.

(** A literal character under [re.IGNORECASE]. *)
Definition ci (c : ascii) : regex := RChar (fun x => Ascii.eqb (PyStr.lower_char x) c).

Fixpoint lit_ci (s : string) : regex -> regex :=
  match s with
  | EmptyString => fun k => k
  | String c rest => fun k => RSeq (ci c) (lit_ci rest k)
  end.

Definition space : regex := RChar PyStr.is_space.
Definition word : regex := RChar PyStr.is_word.
Definition word_or_dash : regex :=
  RChar (fun c => PyStr.is_word c || Ascii.eqb c "-"%char).
Definition quote : regex :=
  RChar (fun c => Ascii.eqb c Py.dquote || Ascii.eqb c Py.squote).

(** The Actor's pattern: a verb [use], [execute] or [run], white space, an
    optional [skill] and white space, an optional quote, the captured name
    (a word character then one or more word characters or dashes), an
    optional quote. *)
Definition skill_pattern : regex :=
  let tail :=
    RSeq (RPlus space)
      (RSeq (ROpt (lit_ci "skill" (RPlus space)))
         (RSeq (ROpt quote)
            (RSeq (RGroup (RSeq word (RPlus word_or_dash)))
               (ROpt quote)))) in
  RAlt (lit_ci "use" tail) (RAlt (lit_ci "execute" tail) (lit_ci "run" tail)).

End Re.

(** ** JSON text, as [json.dumps] writes it *)

Module Json.

(** One character inside a JSON string with [ensure_ascii]: the printable
    ASCII characters stand for themselves, except the quote and the
    backslash; the others are escaped. *)
Definition escape_char (c : ascii) : string :=
  if Ascii.eqb c Py.dquote then String Py.bslash (String Py.dquote EmptyString)
  else if Ascii.eqb c Py.bslash then String Py.bslash (String Py.bslash EmptyString)
  else if Ascii.eqb c "010"%char then String Py.bslash "n"
  else if Ascii.eqb c "013"%char then String Py.bslash "r"
  else if Ascii.eqb c "009"%char then String Py.bslash "t"
  else if Ascii.eqb c "008"%char then String Py.bslash "b"
  else if Ascii.eqb c "012"%char then String Py.bslash "f"
  else if PyStr.in_range 32 126 c then String c EmptyString
  else String Py.bslash ("u00" +:+ Py.hex2 c).

Fixpoint escape (s : string) : string :=
  match s with
  | EmptyString => EmptyString
  | String c rest => escape_char c +:+ escape rest
  end.

Definition dumps_str (s : string) : string :=
  String Py.dquote (escape s +:+ String Py.dquote EmptyString).

Fixpoint spaces (n : nat) : string :=
  match n with
  | O => EmptyString
  | S n' => String " "%char (spaces n')
  end.

(** A float in JSON text: [repr] of the float, except that the three
    values that are not numbers of JSON have names of their own. *)
Definition dumps_float (printed : string) : string :=
  if String.eqb printed "inf" then "Infinity"
  else if String.eqb printed "-inf" then "-Infinity"
  else if String.eqb printed "nan" then "NaN"
  else printed.

(** [json.dumps(v)] with the default separators. *)
Fixpoint dumps (v : pyval) : string :=
  match v with
  | PNone => "null"
  | PBool b => if b then "true" else "false"
  | PInt z => pretty z
  | PFloat p => dumps_float p
  | PStr s => dumps_str s
  | PList l => "[" +:+ PyStr.join ", " (map dumps l) +:+ "]"
  | PDict d =>
      "{" +:+ PyStr.join ", " (map (fun kv => dumps_str (fst kv) +:+ ": " +:+ dumps (snd kv)) d)
          +:+ "}"
  end.

(** [json.dumps(v, indent=2)], for a value nested [level] containers deep. *)
Fixpoint dumps_at (level : nat) (v : pyval) : string :=
  match v with
  | PList [] => "[]"
  | PDict [] => "{}"
  | PList l =>
      "[" +:+ PyStr.nl
          +:+ PyStr.join ("," +:+ PyStr.nl)
                (map (fun x => spaces (2 * S level) +:+ dumps_at (S level) x) l)
          +:+ PyStr.nl +:+ spaces (2 * level) +:+ "]"
  | PDict d =>
      "{" +:+ PyStr.nl
          +:+ PyStr.join ("," +:+ PyStr.nl)
                (map (fun kv => spaces (2 * S level) +:+ dumps_str (fst kv) +:+ ": "
                                  +:+ dumps_at (S level) (snd kv)) d)
          +:+ PyStr.nl +:+ spaces (2 * level) +:+ "}"
  | _ => dumps v
  end.

Definition dumps_indent2 (v : pyval) : string := dumps_at 0 v.

End Json.

(** ** core/agent.py *)

Module Agent.

Record Agent := MkAgent {
  name : string;
  description : string;
  registry : Registry.SkillRegistry;
  _initialized : bool
}.

(** [Agent.execute_skill(skill_name, params)] hands its keyword arguments
    on to [SkillRegistry.execute_skill(name, params)]; there a keyword [name]
    collides with the positional argument and the call itself raises. *)
Definition execute_skill (a : Agent) (skill_name : string) (params : list (string * pyval))
  : outcome pyval :=
  if bool_decide (is_Some (Py.dict_get "name" params)) then
    Raise (MkExn TypeError
             "SkillRegistry.execute_skill() got multiple values for argument 'name'")
  else Registry.execute_skill (registry a) skill_name params.

End Agent.

(** ** core/llm.py *)

Module LLM.

Definition mock_plan : pyval :=
  PDict [("plan",
          PList [PDict [("role", PStr "Actor");
                        ("instruction",
                         PStr "Write 'Agentic OS is Live' to hello.txt in the folder ./tests/results")];
                 PDict [("role", PStr "Auditor");
                        ("instruction",
                         PStr "Verify hello.txt exists and contains correct text")]])].

Definition mock_code : string :=
  PyStr.nl +:+ "import os" +:+ PyStr.nl
  +:+ "with open('./tests/results/hello.txt', 'w') as f:" +:+ PyStr.nl
  +:+ "    f.write('Agentic OS is Live')" +:+ PyStr.nl
  +:+ "print(" +:+ String Py.dquote "File created." +:+ String Py.dquote ")" +:+ PyStr.nl.

Definition mock_audit : pyval :=
  PDict [("status", PStr "success"); ("message", PStr "File exists and content matches.")].

(** [MockLLM.generate] *)
Definition mock_generate (system_prompt user_prompt : string) : string :=
  if PyStr.contains "create a text file" (PyStr.lower user_prompt)
     || PyStr.contains "create a file" (PyStr.lower user_prompt)
  then
    if PyStr.contains "Planner" system_prompt then Json.dumps mock_plan
    else if PyStr.contains "Actor" system_prompt then mock_code
    else if PyStr.contains "Auditor" system_prompt then Json.dumps mock_audit
    else "Mock response"
  else "Mock response".

(** The local HTTP backend behind [OllamaLLM.generate]: base URL, model and
    prompt in, the response text out. [generate] catches every exception of
    the request and answers the empty text then, so the backend is a total
    function here. *)
Definition ollama_backend := string -> string -> string -> string.

(** [OllamaLLM(base_url, model).generate] *)
Definition ollama_generate (backend : ollama_backend) (base_url model : string)
           (system_prompt user_prompt : string) : string :=
  backend base_url model ("System: " +:+ system_prompt +:+ PyStr.nl +:+ "User: " +:+ user_prompt).

(** [get_llm(role).generate] *)
Definition generate (environ : gmap string string) (config : Config.AgentOSConfig)
           (backend : ollama_backend) (role : string)
           (system_prompt user_prompt : string) : string :=
  let provider := Config.getenv environ "LLM_PROVIDER" "mock" in
  if String.eqb provider "ollama" then
    let model :=
      if Config.str_in role ["Planner"; "Auditor"]
      then Config.REASONING_MODEL config else Config.PARSER_MODEL config in
    ollama_generate backend (Config.OLLAMA_BASE_URL config) model system_prompt user_prompt
  else mock_generate system_prompt user_prompt.

End LLM.

(** ** The execution state and the world around a node *)

Module State.

(** A step mapping of the plan. [role] and [expected_outcome] are read with
    [step.get], so the key may be absent ([None]); the planner may also
    store the value [None] under [expected_outcome]. [instruction] is the
    text the planner's validated plan always carries. *)
Record PlanStep := MkStep {
  role : option string;
  instruction : string;
  expected_outcome : option pyval
}.

(** The [AgentState] mapping. The three keys that the nodes read with
    [state.get(key, default)] may be absent. *)
Record AgentState := MkState {
  messages : list (string * string);
  intent_type : option string;
  plan : option (list PlanStep);
  current_step_index : option Z;
  tool_outputs : option (gmap string string);
  final_response : option string;
  memory_context : string;
  agent_name : string;
  auto_log_enabled : bool;
  agent_instance : option Agent.Agent
}.

(** The partial update a node returns; [{}] is [no_update]. *)
Record Update := MkUpdate {
  upd_tool_outputs : option (gmap string string);
  upd_current_step_index : option Z
}.

Definition no_update : Update := MkUpdate None None.

(** The driver's merge of an update into the state. *)
Definition merge (st : AgentState) (u : Update) : AgentState :=
  MkState (messages st) (intent_type st) (plan st)
          (match upd_current_step_index u with
           | Some i => Some i
           | None => current_step_index st
           end)
          (match upd_tool_outputs u with
           | Some t => Some t
           | None => tool_outputs st
           end)
          (final_response st) (memory_context st) (agent_name st)
          (auto_log_enabled st) (agent_instance st).

(** [state.get("current_step_index", 0)], [state.get("plan", [])],
    [state.get("tool_outputs", {})]. *)
Definition get_index (st : AgentState) : Z := default 0 (current_step_index st).
Definition get_plan (st : AgentState) : list PlanStep := default [] (plan st).
Definition get_tool_outputs (st : AgentState) : gmap string string :=
  default ∅ (tool_outputs st).

(** [l[i]] with Python's indexing: a negative index counts from the end. *)
Definition py_index {A} (l : list A) (i : Z) : outcome A :=
  let n := Z.of_nat (List.length l) in
  let j := if (i <? 0)%Z then (i + n)%Z else i in
  if ((0 <=? j) && (j <? n))%Z then
    match l !! Z.to_nat j with
    | Some x => Return x
    | None => Raise (MkExn IndexError "list index out of range")
    end
  else Raise (MkExn IndexError "list index out of range").

(** The key [f"step_{i}"]. *)
Definition step_key (i : Z) : string := "step_" +:+ pretty i.

(** What [exec] did with a piece of code, and what a node did to the world. *)
Inductive event :=
| SkillCalled (skill_name : string)
| CodeRequested (instruction : string)
| Executed (code : string)
| Audited (r : AuditStrategies.AuditResult).

Record World := MkWorld {
  environ : gmap string string;
  config : Config.AgentOSConfig;
  backend : LLM.ollama_backend;
  py_exec : string -> outcome unit;
  auditor_llm : string -> string -> string -> outcome pyval;
  fs : AuditStrategies.FileSystem
}.

End State.

(** ** core/nodes/actor.py *)

Module Actor.
Import State.

Definition system_prompt : string :=
  "You are the Actor. Write Python code to solve the instruction. "
  +:+ "Return ONLY code, no markdown. "
  +:+ "Use ONLY standard Python libraries (os, sys, json, etc). "
  +:+ "Do NOT import 'file_operations' or other custom modules. "
  +:+ "If you need to write a file, use open() and write().".

Definition fence : string := "```".

(** The cleaning of the LLM's answer: outer white space, a leading and a
    trailing fence line, then every fence marker left. *)
Definition clean_code (code_response : string) : string :=
  let clean := PyStr.strip code_response in
  let clean :=
    if PyStr.startswith fence clean then
      let lines := PyStr.split PyStr.nl clean in
      let lines :=
        match lines with
        | first :: rest => if PyStr.startswith fence first then rest else lines
        | [] => lines
        end in
      let lines :=
        match List.last (map Some lines) None with
        | Some final =>
            if String.eqb (PyStr.strip final) fence then List.removelast lines else lines
        | None => lines
        end in
      PyStr.join PyStr.nl lines
    else clean in
  PyStr.strip
    (PyStr.replace fence EmptyString
       (PyStr.replace (fence +:+ "python") EmptyString clean)).

(** The skill the instruction names, when an agent is attached, the pattern
    matches and the registry has the captured name. *)
Definition resolve_skill (st : AgentState) (instruction : string)
  : option (Agent.Agent * string) :=
  match agent_instance st with
  | Some agent =>
      match Re.search Re.skill_pattern instruction with
      | Some (Some skill_name) =>
          if Registry.has_skill (Agent.registry agent) skill_name
          then Some (agent, skill_name) else None
      | _ => None
      end
  | None => None
  end.

(** The second half of [actor_node]: generate code, clean it, [exec] it and
    record the output. *)
Definition generate_and_execute (w : World) (st : AgentState) (idx : Z)
           (instruction : string) : list event * outcome Update :=
  let code_response :=
    LLM.generate (environ w) (config w) (backend w) "Actor" system_prompt instruction in
  let code := clean_code code_response in
  let record output :=
    Return (MkUpdate (Some (<[step_key idx := output]> (get_tool_outputs st)))
                     (Some (idx + 1))) in
  ([CodeRequested instruction; Executed code],
   match py_exec w code with
   | Return _ => record "Success"
   | Raise e =>
       if is_exception e then record ("Error: " +:+ exn_msg e) else Raise e
   end).

Definition actor_node (w : World) (st : AgentState) : list event * outcome Update :=
  let idx := get_index st in
  let plan := get_plan st in
  if (Z.of_nat (List.length plan) <=? idx)%Z then ([], Return no_update)
  else
    match py_index plan idx with
    | Raise e => ([], Raise e)
    | Return step =>
        if negb (bool_decide (role step = Some "Actor")) then ([], Return no_update)
        else
          let fallback :=
            generate_and_execute w st idx (instruction step) in
          match resolve_skill st (instruction step) with
          | Some (agent, skill_name) =>
              match Agent.execute_skill agent skill_name [] with
              | Return skill_result =>
                  ([SkillCalled skill_name],
                   Return (MkUpdate
                             (Some (<[step_key idx := "Skill executed: " +:+ Py.str skill_result]>
                                      (get_tool_outputs st)))
                             (Some (idx + 1))))
              | Raise e =>
                  if is_exception e
                  then (SkillCalled skill_name :: fst fallback, snd fallback)
                  else ([SkillCalled skill_name], Raise e)
              end
          | None => fallback
          end
    end.

End Actor.

(** ** core/nodes/auditor.py *)

Module Auditor.
Import State.

(** [obj.get(key, dflt)] on a value that [json.loads] produced: only a
    dict has the method. *)
Definition json_get (obj : pyval) (key : string) (dflt : pyval) : outcome pyval :=
  match obj with
  | PDict d => Return (default dflt (Py.dict_get key d))
  | _ =>
      Raise (MkExn AttributeError
               ("'" +:+ AuditStrategies.type_name obj +:+ "' object has no attribute 'get'"))
  end.

(** The hardcoded dispatch on the strategy name the LLM picked. *)
Definition dispatch (fs : AuditStrategies.FileSystem) (strategy_name args : pyval)
           (prev_output : string) : outcome AuditStrategies.AuditResult :=
  if Py.eq_str strategy_name "verify_file_exists" then
    path ← json_get args "path" (PStr EmptyString);
    AuditStrategies.verify_file_exists fs path
  else if Py.eq_str strategy_name "verify_file_content_contains" then
    path ← json_get args "path" (PStr EmptyString);
    substring ← json_get args "substring" (PStr EmptyString);
    AuditStrategies.verify_file_content_contains fs path substring
  else if Py.eq_str strategy_name "verify_file_does_not_exist" then
    path ← json_get args "path" (PStr EmptyString);
    AuditStrategies.verify_file_does_not_exist fs path
  else
    Return (AuditStrategies.verify_tool_output_success prev_output).

(** The body of the [try] block: ask the parser model, read its choice,
    dispatch. The model's answer is taken after [json.loads]; the three
    texts that vary in the prompt are the oracle's arguments. *)
Definition select_and_verify (w : World) (instruction expected_outcome prev_output : string)
  : outcome AuditStrategies.AuditResult :=
  data ← auditor_llm w instruction expected_outcome prev_output;
  strategy_name ← json_get data "strategy" PNone;
  args ← json_get data "args" (PDict []);
  dispatch (fs w) strategy_name args prev_output.

Definition auditor_node (w : World) (st : AgentState) : list event * outcome Update :=
  let idx := get_index st in
  let plan := get_plan st in
  let tool_outputs := get_tool_outputs st in
  if (Z.of_nat (List.length plan) <=? idx)%Z then ([], Return no_update)
  else
    match py_index plan idx with
    | Raise e => ([], Raise e)
    | Return step =>
        if negb (bool_decide (role step = Some "Auditor")) then ([], Return no_update)
        else
          let expected := Py.str (default (PStr EmptyString) (expected_outcome step)) in
          let prev_output := default EmptyString (tool_outputs !! step_key (idx - 1)) in
          let advance := Return (MkUpdate None (Some (idx + 1))) in
          match select_and_verify w (instruction step) expected prev_output with
          | Return result => ([Audited result], advance)
          | Raise e => if is_exception e then ([], advance) else ([], Raise e)
          end
    end.

End Auditor.

(** ** core/graph.py *)

Module Graph.
Import State.

Inductive route := ToActor | ToAuditor | END.

(** [route_step] *)
Definition route_step (st : AgentState) : outcome route :=
  let idx := get_index st in
  let plan := get_plan st in
  if (Z.of_nat (List.length plan) <=? idx)%Z then Return END
  else
    step ← py_index plan idx;
    if bool_decide (role step = Some "Actor") then Return ToActor
    else if bool_decide (role step = Some "Auditor") then Return ToAuditor
    else Return END.

(** [route_intent] *)
Definition route_intent (st : AgentState) : string :=
  if String.eqb (default "TASK" (intent_type st)) "TASK" then "planner" else "responder".

(** One tick of the step loop that [create_graph] wires: the router picks
    the node, the node runs, its update is merged. [None] is the terminal
    edge. *)
Definition tick (w : World) (st : AgentState)
  : outcome (option (list event * AgentState)) :=
  r ← route_step st;
  match r with
  | END => Return None
  | ToActor =>
      let out := Actor.actor_node w st in
      u ← snd out; Return (Some (fst out, merge st u))
  | ToAuditor =>
      let out := Auditor.auditor_node w st in
      u ← snd out; Return (Some (fst out, merge st u))
  end.

Inductive run_end :=
| Finished
| Crashed (e : pyexn)
| OutOfFuel.

(** The step loop from a state, for at most [fuel] ticks: the states the
    loop goes through, first to last, and how it ended ([OutOfFuel]: it had
    not ended yet). *)
Fixpoint run (fuel : nat) (w : World) (st : AgentState) : list AgentState * run_end :=
  match fuel with
  | O => ([st], OutOfFuel)
  | S fuel' =>
      match tick w st with
      | Raise e => ([st], Crashed e)
      | Return None => ([st], Finished)
      | Return (Some next) =>
          let rest := run fuel' w (snd next) in
          (st :: fst rest, snd rest)
      end
  end.

(** What the driver raises when its step limit is used up. *)
Definition recursion_error : pyexn :=
  MkExn GraphRecursionError
        "Recursion limit of 25 reached without hitting a stop condition.".

(** [app.invoke(state)] from the step loop on. The driver of [create_graph]
    runs under a recursion limit (25 node runs, since [run_agent] sets none);
    [steps_left] is what is left of it when the loop is entered. When the
    router still names a node and no step is left, the driver raises
    [GraphRecursionError]. *)
Fixpoint invoke (steps_left : nat) (w : World) (st : AgentState)
  : list AgentState * run_end :=
  match route_step st with
  | Raise e => ([st], Crashed e)
  | Return END => ([st], Finished)
  | Return _ =>
      match steps_left with
      | O => ([st], Crashed recursion_error)
      | S steps_left' =>
          match tick w st with
          | Raise e => ([st], Crashed e)
          | Return None => ([st], Finished)
          | Return (Some next) =>
              let rest := invoke steps_left' w (snd next) in
              (st :: fst rest, snd rest)
          end
      end
  end.

End Graph.

(** ** core/memory_manager.py *)

Module Memory.

(** Three readings of the clock: [datetime.now().strftime(...)], local
    time; [datetime.now().timestamp()] as printed; and the database's
    [CURRENT_TIMESTAMP], which is UTC. *)
Record Clock := MkClock {
  strftime : string;
  timestamp : string;
  current_timestamp : string
}.

Record FactRow := MkFact {
  fact_id : Z;
  key : string;
  value : string;
  category : string;
  created_at : string;
  updated_at : string
}.

Record LogMetaRow := MkLogMeta {
  meta_id : Z;
  meta_timestamp : string;
  entry_type : string;
  content_hash : string;
  compacted : bool;
  line_number : option Z;
  token_count : Z
}.

(** The tables of [memory.db] that the facts and the log use, each with its
    AUTOINCREMENT counter. *)
Record Database := MkDb {
  user_facts : list FactRow;
  user_facts_seq : Z;
  log_metadata : list LogMetaRow;
  log_metadata_seq : Z
}.

Section WithServices.

(** The services outside the process: the vector type of the embedding
    model, SHA-256, the embeddings endpoint ([None] when the request fails
    or is not answered with status 200), the constant vector
    [[0.0] * dimension], and the nearest-neighbour search of the vector
    store. *)
Context {vec : Type}.
Variable sha256_hexdigest : string -> string.
Variable embedding_api : string -> string -> option vec.
Variable zero_vector : nat -> vec.

(** A row of the vector table. The [metadata] column holds the JSON text of
    a dict; the dict itself stands for it here. *)
Record MemoryRecord := MkRecord {
  id : string;
  vector : vec;
  text : string;
  metadata : pyval
}.

Variable vector_search : vec -> Z -> list MemoryRecord -> outcome (list (MemoryRecord * pyval)).

(** The vector-store connection: its tables, and whether the calls that
    touch a table ([open_table], [add], [create_table]) currently succeed.
    [table_names()] lists the directory of the store and is taken to
    succeed. *)
Record LanceDB := MkLance {
  tables : gmap string (list MemoryRecord);
  tables_ok : bool
}.

(** A [MemoryManager]: the two files as they are on disk ([None]: not
    there), whether a write to them succeeds, the database ([None]: every
    [sqlite3] call raises), the vector store ([None]: the attribute
    [lance_db] is [None]). *)
Record MemoryManager := MkMemory {
  agent_name : string;
  now_file : option string;
  log_file : option string;
  files_writable : bool;
  db : option Database;
  lance_db : option LanceDB;
  log_max_size_kb : Z;
  log_max_entries : Z;
  embedding_dimension : nat
}.

Definition with_now_file (mm : MemoryManager) (f : option string) : MemoryManager :=
  MkMemory (agent_name mm) f (log_file mm) (files_writable mm) (db mm) (lance_db mm)
           (log_max_size_kb mm) (log_max_entries mm) (embedding_dimension mm).

Definition with_log_file (mm : MemoryManager) (f : option string) : MemoryManager :=
  MkMemory (agent_name mm) (now_file mm) f (files_writable mm) (db mm) (lance_db mm)
           (log_max_size_kb mm) (log_max_entries mm) (embedding_dimension mm).

Definition with_db (mm : MemoryManager) (d : option Database) : MemoryManager :=
  MkMemory (agent_name mm) (now_file mm) (log_file mm) (files_writable mm) d (lance_db mm)
           (log_max_size_kb mm) (log_max_entries mm) (embedding_dimension mm).

Definition with_lance_db (mm : MemoryManager) (l : option LanceDB) : MemoryManager :=
  MkMemory (agent_name mm) (now_file mm) (log_file mm) (files_writable mm) (db mm) l
           (log_max_size_kb mm) (log_max_entries mm) (embedding_dimension mm).

Definition db_error : pyexn := MkExn OtherError "unable to open database file".

(** The truth value of [self.lance_db], as [if self.lance_db:] and
    [if not self.lance_db:] test it: [None] is false, and a connection
    counts as its number of tables, so a store without a table is false
    too. *)
Definition lance_truthy (l : option LanceDB) : bool :=
  match l with
  | None => false
  | Some ldb => negb (Nat.eqb (size (tables ldb)) 0)
  end.

(** [_get_embedding] *)
Definition _get_embedding (mm : MemoryManager) (content : string) : vec :=
  match embedding_api (Config.EMBEDDING_MODEL Config.default_config) content with
  | Some v => v
  | None => zero_vector (embedding_dimension mm)
  end.

(** [Path.read_text(encoding='utf-8')] of a file that holds [on_disk]. *)
Definition read_text (on_disk : string) : string := PyStr.universal_newlines on_disk.

(** [read_now] *)
Definition read_now (mm : MemoryManager) : string :=
  match now_file mm with
  | Some on_disk => read_text on_disk
  | None => "Status: Idle"
  end.

Definition separator : string := PyStr.nl +:+ "---" +:+ PyStr.nl.

(** [l[-n:]] *)
Definition tail_slice {A} (n : Z) (l : list A) : list A :=
  let start := (- n)%Z in
  if (start <? 0)%Z
  then List.skipn (Z.to_nat (Z.max 0 (Z.of_nat (List.length l) + start))) l
  else List.skipn (Z.to_nat start) l.

(** [read_log(last_n_entries)] *)
Definition read_log (mm : MemoryManager) (last_n_entries : option Z) : string :=
  match log_file mm with
  | None => EmptyString
  | Some on_disk =>
      let content := read_text on_disk in
      match last_n_entries with
      | Some n =>
          if (n =? 0)%Z then content
          else PyStr.join separator (tail_slice n (PyStr.split separator content))
      | None => content
      end
  end.

(** [len(content.split())]: the number of maximal runs of characters that
    are not white space. *)
Fixpoint count_words (in_word : bool) (s : string) : Z :=
  match s with
  | EmptyString => 0
  | String c rest =>
      if PyStr.is_space c then count_words false rest
      else (if in_word then 0 else 1) + count_words true rest
  end.

(** [_store_log_metadata] *)
Definition _store_log_metadata (mm : MemoryManager) (now : Clock)
           (entry_type content_hash : string) (token_count : Z) : outcome MemoryManager :=
  match db mm with
  | None => Raise db_error
  | Some d =>
      let row := MkLogMeta (log_metadata_seq d + 1) (current_timestamp now) entry_type
                           content_hash false None token_count in
      Return (with_db mm (Some (MkDb (user_facts d) (user_facts_seq d)
                                     (log_metadata d ++ [row]) (log_metadata_seq d + 1))))
  end.

(** The size of a text on disk, in bytes of UTF-8. *)
Fixpoint utf8_size (s : string) : Z :=
  match s with
  | EmptyString => 0
  | String c rest => (if (PyStr.code c <? 128)%N then 1 else 2) + utf8_size rest
  end.

(** [_check_compaction_needed] *)
Definition _check_compaction_needed (mm : MemoryManager) : outcome bool :=
  match log_file mm with
  | None => Raise (MkExn OSError "No such file or directory")
  | Some on_disk =>
      if (log_max_size_kb mm * 1024 <? utf8_size on_disk)%Z then Return true
      else
        match db mm with
        | None => Raise db_error
        | Some d =>
            let count := Z.of_nat (List.length (filter (fun r => compacted r = false)
                                                       (log_metadata d))) in
            Return (log_max_entries mm <? count)%Z
        end
  end.

(** [append_log]. Everything happens inside one [try]: when the file cannot
    be opened for appending nothing is written and no row is stored; when
    the database fails the entry is already in the file. *)
Definition append_log (mm : MemoryManager) (now : Clock) (entry_type content : string)
           (metadata : option pyval) : bool * MemoryManager :=
  let content_hash := PyStr.take 16 (sha256_hexdigest content) in
  let entry :=
    PyStr.nl +:+ "## [" +:+ entry_type +:+ "] " +:+ strftime now +:+ PyStr.nl +:+ PyStr.nl
    +:+ content +:+ PyStr.nl
    +:+ match metadata with
        | Some m =>
            if Py.truthy m
            then PyStr.nl +:+ "Metadata: " +:+ Json.dumps_indent2 m +:+ PyStr.nl
            else EmptyString
        | None => EmptyString
        end
    +:+ PyStr.nl +:+ "---" +:+ PyStr.nl in
  if negb (files_writable mm) then (false, mm)
  else
    let mm1 := with_log_file mm (Some (default EmptyString (log_file mm) +:+ entry)) in
    match _store_log_metadata mm1 now entry_type content_hash (count_words false content) with
    | Raise _ => (false, mm1)
    | Return mm2 =>
        match _check_compaction_needed mm2 with
        | Raise _ => (false, mm2)
        | Return _ => (true, mm2)
        end
    end.

(** One item of the list [recall_memory] returns. *)
Record Recalled := MkRecalled {
  recalled_content : string;
  recalled_metadata : pyval;
  recalled_distance : pyval
}.

Definition table_name (mm : MemoryManager) : string := agent_name mm +:+ "_memory".

Definition table_error : pyexn := MkExn OtherError "vector store table unavailable".

(** The [try] block of [recall_memory]. *)
Definition recall_from (mm : MemoryManager) (ldb : LanceDB) (query : string) (n_results : Z)
  : outcome (list Recalled) :=
  match tables ldb !! table_name mm with
  | None => Return []
  | Some rows =>
      if negb (tables_ok ldb) then Raise table_error
      else
        let query_embedding := _get_embedding mm query in
        results ← vector_search query_embedding n_results rows;
        Return (map (fun res => MkRecalled (text (fst res)) (metadata (fst res)) (snd res))
                    results)
  end.

(** [recall_memory] *)
Definition recall_memory (mm : MemoryManager) (query : string) (n_results : Z)
  : list Recalled :=
  match lance_db mm with
  | None => []
  | Some ldb =>
      if negb (lance_truthy (Some ldb)) then []
      else
        match recall_from mm ldb query n_results with
        | Return memories => memories
        | Raise _ => []
        end
  end.

(** [store_memory] *)
Definition store_memory (mm : MemoryManager) (now : Clock) (content : string)
           (metadata : option (list (string * pyval))) : bool * MemoryManager :=
  match lance_db mm with
  | None => (false, mm)
  | Some ldb =>
      if negb (lance_truthy (Some ldb)) then (false, mm)
      else if negb (tables_ok ldb) then (false, mm)
      else
        let doc_id := "memory_" +:+ timestamp now in
        let vector := _get_embedding mm content in
        let meta := default [] metadata in
        let meta := Py.dict_set "agent" (PStr (agent_name mm)) meta in
        let meta := Py.dict_set "stored_at" (PStr (strftime now)) meta in
        let data := MkRecord doc_id vector content (PDict meta) in
        let rows := default [] (tables ldb !! table_name mm) in
        (true,
         with_lance_db mm
           (Some (MkLance (<[table_name mm := rows ++ [data]]> (tables ldb)) (tables_ok ldb))))
  end.

(** [INSERT OR REPLACE INTO user_facts (key, value, category, updated_at)]:
    the row that holds the unique key, if any, is deleted; the new row takes
    the next id, the default [created_at] and the given [updated_at], both
    [CURRENT_TIMESTAMP]. *)
Definition insert_or_replace_fact (d : Database) (now : Clock) (k v c : string) : Database :=
  let kept := filter (fun r => key r ≠ k) (user_facts d) in
  let row := MkFact (user_facts_seq d + 1) k v c (current_timestamp now)
                    (current_timestamp now) in
  MkDb (kept ++ [row]) (user_facts_seq d + 1) (log_metadata d) (log_metadata_seq d).

(** [save_fact]. The result of the [append_log] call is not looked at. *)
Definition save_fact (mm : MemoryManager) (now : Clock) (k v c : string)
  : bool * MemoryManager :=
  match db mm with
  | None => (false, mm)
  | Some d =>
      let mm1 := with_db mm (Some (insert_or_replace_fact d now k v c)) in
      let logged :=
        append_log mm1 now "SYSTEM"
                   ("Saved fact: " +:+ k +:+ " = " +:+ v +:+ " (category: " +:+ c +:+ ")")
                   None in
      (true, snd logged)
  end.

(** [get_fact]: the first row of [SELECT value ... WHERE key = ?]. *)
Definition get_fact (mm : MemoryManager) (k : string) : option string :=
  match db mm with
  | None => None
  | Some d =>
      match filter (fun r => key r = k) (user_facts d) with
      | r :: _ => Some (value r)
      | [] => None
      end
  end.

(** [get_all_facts(category)] *)
Definition get_all_facts (mm : MemoryManager) (cat : option string) : list (string * string) :=
  match db mm with
  | None => []
  | Some d =>
      let rows :=
        match cat with
        | Some c =>
            if PyStr.is_empty c then user_facts d
            else filter (fun r => category r = c) (user_facts d)
        | None => user_facts d
        end in
      Py.dict_of_rows (map (fun r => (key r, value r)) rows)
  end.

Record Context := MkContext { ctx_now : string; ctx_log : string; ctx_facts : string }.

(** [read_context] *)
Definition read_context (mm : MemoryManager) : Context :=
  MkContext (read_now mm)
            (read_log mm (Some 20))
            (Json.dumps_indent2
               (PDict (map (fun kv => (fst kv, PStr (snd kv))) (get_all_facts mm None)))).

Definition now_header : string :=
  "=== CURRENT MENTAL STATE (Do not ignore) ===" +:+ PyStr.nl
  +:+ "You are currently working on:" +:+ PyStr.nl.
Definition log_header : string := "=== RECENT ACTIVITY LOG ===" +:+ PyStr.nl.
Definition facts_header : string := "=== KNOWN USER FACTS ===" +:+ PyStr.nl.

(** [format_context_for_prompt] *)
Definition format_context_for_prompt (mm : MemoryManager) : string :=
  let context := read_context mm in
  let formatted := now_header +:+ ctx_now context +:+ PyStr.nl +:+ PyStr.nl in
  let formatted := formatted +:+ log_header +:+ ctx_log context +:+ PyStr.nl +:+ PyStr.nl in
  if negb (String.eqb (ctx_facts context) "{}")
  then formatted +:+ facts_header +:+ ctx_facts context +:+ PyStr.nl +:+ PyStr.nl
  else formatted.

(** The two texts [_initialize_storage] writes. *)
Definition initial_now : string :=
  "# Current Status" +:+ PyStr.nl +:+ PyStr.nl
  +:+ "Status: Idle" +:+ PyStr.nl +:+ PyStr.nl
  +:+ "## Next Steps" +:+ PyStr.nl
  +:+ "- Awaiting user input" +:+ PyStr.nl.

Definition initial_log (name : string) (now : Clock) : string :=
  "# Activity Log - " +:+ name +:+ PyStr.nl +:+ PyStr.nl
  +:+ "Started: " +:+ strftime now +:+ PyStr.nl +:+ PyStr.nl
  +:+ "---" +:+ PyStr.nl +:+ PyStr.nl.

(** [_initialize_storage] and the constructor's defaults, on a writable disk
    that holds nothing yet. *)
Definition fresh (name : string) (now : Clock) (ldb : option LanceDB) : MemoryManager :=
  MkMemory name (Some initial_now) (Some (initial_log name now)) true
    (Some (MkDb [] 0 [] 0))
    ldb 50 100 768.

(** [_initialize_storage]: each file is written only when it is not there;
    the write is not guarded, so a file that is missing and cannot be
    written makes the constructor raise. *)
Definition _initialize_storage (mm : MemoryManager) (now : Clock) : outcome MemoryManager :=
  let missing :=
    match now_file mm, log_file mm with
    | Some _, Some _ => false
    | _, _ => true
    end in
  if missing && negb (files_writable mm) then Raise (MkExn OSError "Permission denied")
  else
    Return (MkMemory (agent_name mm)
              (match now_file mm with
               | Some on_disk => Some on_disk
               | None => Some initial_now
               end)
              (match log_file mm with
               | Some on_disk => Some on_disk
               | None => Some (initial_log (agent_name mm) now)
               end)
              (files_writable mm) (db mm) (lance_db mm)
              (log_max_size_kb mm) (log_max_entries mm) (embedding_dimension mm)).

(** The bullet lines of [update_now]. *)
Fixpoint bullets (steps : list string) : string :=
  match steps with
  | [] => EmptyString
  | step :: rest => "- " +:+ step +:+ PyStr.nl +:+ bullets rest
  end.

(** The text [update_now] writes to NOW.md. *)
Definition now_text (now : Clock) (new_status : string) (next_steps : option (list string))
  : string :=
  "# Current Status" +:+ PyStr.nl +:+ PyStr.nl
  +:+ "Status: " +:+ new_status +:+ PyStr.nl +:+ PyStr.nl
  +:+ "Updated: " +:+ strftime now +:+ PyStr.nl +:+ PyStr.nl
  +:+ match next_steps with
      | Some (step :: rest) => "## Next Steps" +:+ PyStr.nl +:+ bullets (step :: rest)
      | _ => EmptyString
      end.

(** [update_now]: when NOW.md cannot be written the call answers false and
    nothing is logged; the result of the [append_log] call is not looked
    at. *)
Definition update_now (mm : MemoryManager) (now : Clock) (new_status : string)
           (next_steps : option (list string)) : bool * MemoryManager :=
  if negb (files_writable mm) then (false, mm)
  else
    let mm1 := with_now_file mm (Some (now_text now new_status next_steps)) in
    (true, snd (append_log mm1 now "SYSTEM" ("Status updated: " +:+ new_status) None)).

(** The row [compact_log] inserts in [compaction_history]; the table is
    written there and read nowhere. The size is in kilobytes, a byte count
    over 1024. *)
Record CompactionRow := MkCompaction {
  entries_count : Z;
  compaction_summary : string;
  archive_id : option string;
  original_size_kb : Q
}.

(** What a [compact_log] call leaves: its answer, the manager after it, and
    the history row it committed, if it got that far. *)
Record Compaction := MkCompacted {
  compacted_ok : bool;
  compacted_memory : MemoryManager;
  compaction_row : option CompactionRow
}.

(** [UPDATE log_metadata SET compacted = 1 WHERE compacted = 0] *)
Definition mark_compacted (r : LogMetaRow) : LogMetaRow :=
  MkLogMeta (meta_id r) (meta_timestamp r) (entry_type r) (content_hash r) true
            (line_number r) (token_count r).

(** [compact_log]. The steps run in one [try], in this order: read the log,
    archive it when [self.lance_db] is true, update and commit the database,
    rewrite LOG.md. A step that raises ends the call with false and leaves
    what the steps before it did. *)
Definition compact_log (mm : MemoryManager) (now : Clock) (summary : string) : Compaction :=
  let original_content := read_log mm None in
  match log_file mm with
  | None => MkCompacted false mm None
  | Some on_disk =>
      let original_size := Qmake (utf8_size on_disk) 1024 in
      let archived :=
        if lance_truthy (lance_db mm) then
          (Some ("archive_" +:+ timestamp now),
           snd (store_memory mm now original_content
                  (Some [("type", PStr "archived_log");
                         ("agent", PStr (agent_name mm));
                         ("archived_at", PStr (strftime now));
                         ("summary", PStr summary)])))
        else (None, mm) in
      let mm1 := snd archived in
      match db mm1 with
      | None => MkCompacted false mm1 None
      | Some d =>
          let count := Z.of_nat (List.length (filter (fun r => compacted r = false)
                                                     (log_metadata d))) in
          let d' := MkDb (user_facts d) (user_facts_seq d)
                         (map mark_compacted (log_metadata d)) (log_metadata_seq d) in
          let row := MkCompaction count summary (fst archived) original_size in
          let new_content :=
            "# Activity Log - " +:+ agent_name mm +:+ PyStr.nl +:+ PyStr.nl
            +:+ "Compacted: " +:+ strftime now +:+ PyStr.nl +:+ PyStr.nl
            +:+ "## Summary of Previous Activity" +:+ PyStr.nl +:+ PyStr.nl
            +:+ summary +:+ PyStr.nl +:+ PyStr.nl
            +:+ "---" +:+ PyStr.nl +:+ PyStr.nl in
          if negb (files_writable mm) then MkCompacted false (with_db mm1 (Some d')) (Some row)
          else
            MkCompacted true
              (with_log_file (with_db mm1 (Some d')) (Some new_content))
              (Some row)
      end
  end.

End WithServices.

End Memory.

(** * The specification's vocabulary and sample data *)

(** The spec's words for the test of [verify_tool_output_success]: some
    stretch of the text reads as the word once lower-cased. *)
Definition occurs_ignoring_case (word text : string) : Prop :=
  exists pre mid post, text = pre +:+ mid +:+ post /\ PyStr.lower mid = word.

(** An environment that names a host by its plain name. *)
Definition env_raspberrypi : gmap string string :=
  {[ "OLLAMA_BASE_URL" := "http://raspberrypi" ]}.

(** A three-step plan: an Actor step, an Auditor step, and a step whose
    role is outside the two literals. *)
Definition sample_plan : list State.PlanStep :=
  [ State.MkStep (Some "Actor") "Create a file notes.txt with the text hello" None;
    State.MkStep (Some "Auditor") "Verify notes.txt" (Some (PStr "notes.txt is on disk"));
    State.MkStep (Some "Reviewer") "Look again" None ].

Definition sample_state (agent : option Agent.Agent) (plan : list State.PlanStep) (idx : Z)
  : State.AgentState :=
  State.MkState [("user", "Create a file notes.txt")] (Some "TASK") (Some plan) (Some idx)
                (Some ∅) None EmptyString "default" true agent.

(** A world with nothing configured: empty environment (so [get_llm] picks
    the mock LLM), default configuration, an [exec] that runs the mock
    LLM's snippet and rejects other text as a syntax error, a parser model
    that names a strategy outside the list, an empty disk. *)
Definition sample_world : State.World :=
  State.MkWorld ∅ Config.default_config (fun _ _ _ => EmptyString)
    (fun code =>
       if String.eqb code (PyStr.strip LLM.mock_code) then Return tt
       else Raise (MkExn OtherError "invalid syntax (<string>, line 1)"))
    (fun _ _ _ => Return (PDict [("strategy", PStr "verify_everything"); ("args", PDict [])]))
    (fun _ => None).

(** A core skill whose hook raises, an agent that has it registered, and a
    one-step plan that names it. *)
Definition failing_hook : Registry.hook := fun _ => Raise (MkExn OtherError "disk full").

Definition file_operations : Registry.Skill :=
  Registry.MkSkill "file-operations" "Read and write files" "core" "files"
                   "./core/skills/file-operations" [] (PDict []) [] [] "1.0.0"
                   true false None (Some failing_hook).

Definition sample_agent : Agent.Agent :=
  Agent.MkAgent "finn" "Financial portfolio agent"
                (Registry.register_skill (Registry.new_registry "finn") file_operations) true.

Definition skill_plan : list State.PlanStep :=
  [ State.MkStep (Some "Actor") "Use skill 'file-operations' to create a file notes.txt" None ].

(** C1 as the spec words it: some flag of the world around the Actor, off by
    default, is such that with the flag off an Actor step that resolves to
    no skill executes no generated code and records no output. *)
Definition exec_gated_by (flag : State.World -> bool) : Prop :=
  forall w st step,
    (State.get_index st < Z.of_nat (List.length (State.get_plan st)))%Z ->
    State.py_index (State.get_plan st) (State.get_index st) = Return step ->
    State.role step = Some "Actor" ->
    Actor.resolve_skill st (State.instruction step) = None ->
    flag w = false ->
    (forall code, State.Executed code ∉ fst (Actor.actor_node w st))
    /\ (forall u, snd (Actor.actor_node w st) = Return u ->
                  State.get_tool_outputs (State.merge st u) !! State.step_key (State.get_index st)
                  = State.get_tool_outputs st !! State.step_key (State.get_index st)).

(** C2 as the spec words it: when the skill call of an Actor step raises,
    the update records the error message under the step's key and moves the
    cursor by one. *)
Definition skill_failure_recorded : Prop :=
  forall w st step agent skill_name e,
    (State.get_index st < Z.of_nat (List.length (State.get_plan st)))%Z ->
    State.py_index (State.get_plan st) (State.get_index st) = Return step ->
    State.role step = Some "Actor" ->
    Actor.resolve_skill st (State.instruction step) = Some (agent, skill_name) ->
    Agent.execute_skill agent skill_name [] = Raise e ->
    is_exception e = true ->
    exists u out,
      snd (Actor.actor_node w st) = Return u
      /\ State.upd_current_step_index u = Some (State.get_index st + 1)%Z
      /\ State.get_tool_outputs (State.merge st u) !! State.step_key (State.get_index st)
         = Some out
      /\ PyStr.contains (exn_msg e) out = true.

(** The record an Actor step leaves: the output under the step's key, the
    cursor one further. *)
Definition recorded (st : State.AgentState) (output : string) : outcome State.Update :=
  Return (State.MkUpdate
            (Some (<[State.step_key (State.get_index st) := output]> (State.get_tool_outputs st)))
            (Some (State.get_index st + 1)%Z)).

(** The code the Actor hands to [exec] for an instruction. *)
Definition generated_code (w : State.World) (instruction : string) : string :=
  Actor.clean_code
    (LLM.generate (State.environ w) (State.config w) (State.backend w) "Actor"
                  Actor.system_prompt instruction).

(** What an Actor step leaves for an outcome of [exec]: [Success] when the
    code returned, [Error: ...] with the message when it raised an
    [Exception]; any other exception goes on, past the node. *)
Definition exec_record (st : State.AgentState) (ran : outcome unit) : outcome State.Update :=
  match ran with
  | Return _ => recorded st "Success"
  | Raise e => if is_exception e then recorded st ("Error: " +:+ exn_msg e) else Raise e
  end.

(** The calls of an Actor step from which an exception can leave the node:
    the skill call on the skill the instruction resolves to, and [exec] on
    the generated code. *)
Definition escapes_actor (w : State.World) (st : State.AgentState) (e : pyexn) : Prop :=
  exists step,
    State.py_index (State.get_plan st) (State.get_index st) = Return step
    /\ ((exists agent skill_name,
            Actor.resolve_skill st (State.instruction step) = Some (agent, skill_name)
            /\ Agent.execute_skill agent skill_name [] = Raise e)
        \/ State.py_exec w (generated_code w (State.instruction step)) = Raise e).

(** The call of an Auditor step from which an exception outside [Exception]
    can leave the node: the request to the parser model. *)
Definition escapes_auditor (w : State.World) (st : State.AgentState) (e : pyexn) : Prop :=
  exists step,
    State.py_index (State.get_plan st) (State.get_index st) = Return step
    /\ State.auditor_llm w (State.instruction step)
          (Py.str (default (PStr EmptyString) (State.expected_outcome step)))
          (default EmptyString
             (State.get_tool_outputs st !! State.step_key (State.get_index st - 1)))
       = Raise e.

(** The sample plan at its Auditor step, after an Actor step that recorded
    an error. *)
Definition state_after_error : State.AgentState :=
  State.MkState [("user", "Create a file notes.txt")] (Some "TASK") (Some sample_plan) (Some 1%Z)
                (Some {[ "step_0" := "Error: [Errno 28] No space left on device" ]})
                None EmptyString "default" true None.

(** The strategy name is none of the three the Auditor's dispatch knows
    besides the fallback. *)
Definition unknown_strategy (strategy_name : pyval) : Prop :=
  strategy_name <> PStr "verify_file_exists"
  /\ strategy_name <> PStr "verify_file_content_contains"
  /\ strategy_name <> PStr "verify_file_does_not_exist".

(** The spec's words for the fallback predicate: the output reports a
    failure when one of the three words occurs in it, whatever the case. *)
Definition reports_failure (output : string) : Prop :=
  occurs_ignoring_case "error" output
  \/ occurs_ignoring_case "exception" output
  \/ occurs_ignoring_case "failed" output.

(** The registries a run can hold: the empty one of the constructor, and
    those [register_skill] makes from them. *)
Inductive reachable : Registry.SkillRegistry -> Prop :=
| reach_new agent_name : reachable (Registry.new_registry agent_name)
| reach_register r skill : reachable r -> reachable (Registry.register_skill r skill).

(** An agent-level skill with the name of the core skill [file_operations]. *)
Definition finn_file_operations : Registry.Skill :=
  Registry.MkSkill "file-operations" "Write portfolio reports" "finn" "files"
                   "./agents/finn/skills/file-operations" [] (PDict []) [] [] "1.0.0"
                   false false None (Some (fun _ => Return (PStr "report written"))).

(** A second agent-level skill named [file-operations]: a script of the
    agent that declares the name in its metadata. *)
Definition finn_file_ops_script : Registry.Skill :=
  Registry.MkSkill "file-operations" "File helpers of the portfolio agent" "finn" "files"
                   "./agents/finn/skills/scripts/file_ops.py" [] (PDict []) [] [] "1.0.0"
                   false false None (Some (fun _ => Return (PStr "done"))).

(** A clock reading, and stand-ins for the outside services: no digest, no
    embedding endpoint, no search results. *)
Definition sample_clock : Memory.Clock :=
  Memory.MkClock "2025-01-15 10:30:00" "1736937000.0" "2025-01-15 15:30:00".

Definition no_digest : string -> string := fun _ => "0000000000000000".

(** A memory manager on a new disk, without the vector store. *)
Definition fresh_memory : Memory.MemoryManager (vec := unit) :=
  Memory.fresh "finn" sample_clock None.

(** The three headings of the prompt context. *)
Definition now_heading : string := "=== CURRENT MENTAL STATE (Do not ignore) ===".
Definition log_heading : string := "=== RECENT ACTIVITY LOG ===".
Definition facts_heading : string := "=== KNOWN USER FACTS ===".

(** The second line under the first heading. *)
Definition now_intro : string := "You are currently working on:".

(** The known facts as the JSON text of the prompt context. *)
Definition known_facts_json {vec : Type} (mm : @Memory.MemoryManager vec) : string :=
  Json.dumps_indent2
    (PDict (map (fun kv => (fst kv, PStr (snd kv))) (Memory.get_all_facts mm None))).

(** C10 as the spec words it: the three headed sections are all there. *)
Definition has_three_sections (out : string) : Prop :=
  PyStr.contains now_heading out = true
  /\ PyStr.contains log_heading out = true
  /\ PyStr.contains facts_heading out = true.

(** ** Vocabulary for the further properties *)

(** The last character of a text, if it has one. *)
Fixpoint last_char (s : string) : option ascii :=
  match s with
  | EmptyString => None
  | String c EmptyString => Some c
  | String _ rest => last_char rest
  end.

(** What [_validate] accepts. *)
Definition valid_config (c : Config.AgentOSConfig) : Prop :=
  Config.LLM_PROVIDER c ∈ ["ollama"; "mock"; "google"]
  /\ (Config.LLM_PROVIDER c = "ollama" ->
      PyStr.startswith "http" (Config.OLLAMA_BASE_URL c) = true)
  /\ (Config.LLM_PROVIDER c = "google" ->
      exists k, Config.GOOGLE_API_KEY c = Some k /\ k <> EmptyString).

(** A disk with one file, and an environment that spells the provider in
    capitals. *)
Definition disk_with_notes : AuditStrategies.FileSystem :=
  fun p =>
    match p with
    | AuditStrategies.PathStr "notes.txt" => Some (AuditStrategies.RegularFile "hello world")
    | _ => None
    end.

Definition env_capitals : gmap string string := {[ "LLM_PROVIDER" := "OLLAMA" ]}.

(** The registries the loaders build: every skill they construct comes with
    [overrides_core] at its default, false. *)
Inductive loaded : Registry.SkillRegistry -> Prop :=
| loaded_new agent_name : loaded (Registry.new_registry agent_name)
| loaded_register r skill :
    loaded r -> Registry.overrides_core skill = false ->
    loaded (Registry.register_skill r skill).

(** The names an index lists under a key. *)
Definition listed (idx : gmap string (list string)) (key : string) : list string :=
  default [] (idx !! key).

(** A skill with one required and one optional parameter. *)
Definition upsert_asset : Registry.Skill :=
  Registry.MkSkill "db_upsert_asset" "Insert or update an asset" "finn" "database"
                   "./agents/finn/skills/db_upsert.py"
                   [("ticker", [("type", PStr "str"); ("required", PBool true)]);
                    ("notes", [("type", PStr "str"); ("required", PBool false)])]
                   (PDict []) [] ["database"] "1.0.0" false false None
                   (Some (fun params =>
                            Return (default PNone (Py.dict_get "ticker" params)))).

Definition finn_registry : Registry.SkillRegistry :=
  Registry.register_skill
    (Registry.register_skill
       (Registry.register_skill (Registry.new_registry "finn") file_operations)
       finn_file_operations)
    upsert_asset.

(** An agent whose [file-operations] is the agent-level skill that works. *)
Definition working_agent : Agent.Agent :=
  Agent.MkAgent "finn" "Financial portfolio agent" finn_registry true.

(** The answers of the parser model that leave the Auditor without a
    strategy: the call raised an [Exception], or the JSON is not an
    object. *)
Definition no_strategy (answer : outcome pyval) : Prop :=
  match answer with
  | Raise e => is_exception e = true
  | Return (PDict _) => False
  | Return _ => True
  end.

(** The sample world with a parser model that answers with a JSON list. *)
Definition world_with_list_answer : State.World :=
  State.MkWorld ∅ Config.default_config (fun _ _ _ => EmptyString)
    (fun _ => Return tt)
    (fun _ _ _ => Return (PList [PStr "verify_file_exists"]))
    (fun _ => None).

(** Every step of the plan has one of the two roles. *)
Definition well_formed (plan : list State.PlanStep) : Prop :=
  Forall (fun step => State.role step = Some "Actor" \/ State.role step = Some "Auditor") plan.

(** A plan of an Actor step followed by an Auditor step. *)
Definition two_step_plan : list State.PlanStep :=
  [ State.MkStep (Some "Actor") "Create a file notes.txt with the text hello" None;
    State.MkStep (Some "Auditor") "Verify notes.txt" (Some (PStr "notes.txt is on disk")) ].

(** The keys of the facts table. *)
Definition fact_keys (d : Memory.Database) : list string := map Memory.key (Memory.user_facts d).

(** The rows of the facts table as key-value pairs, in table order. *)
Definition fact_pairs (d : Memory.Database) : list (string * string) :=
  map (fun r => (Memory.key r, Memory.value r)) (Memory.user_facts d).

(** A memory manager with two facts saved on a new disk. *)
Definition memory_with_facts : @Memory.MemoryManager unit :=
  snd (Memory.save_fact no_digest
         (snd (Memory.save_fact no_digest fresh_memory sample_clock
                                "user_name" "Test User" "personal"))
         sample_clock "api_key" "SECRET_12345" "config").

(** A vector store that has no table yet. *)
Definition empty_store : @Memory.LanceDB unit := Memory.MkLance ∅ true.

(** The number of log entries not yet compacted. *)
Definition uncompacted (d : Memory.Database) : Z :=
  Z.of_nat (List.length (filter (fun r => Memory.compacted r = false) (Memory.log_metadata d))).

(** A manager whose log has three entries. *)
Definition memory_with_log (store : option (@Memory.LanceDB unit)) : @Memory.MemoryManager unit :=
  snd (Memory.append_log no_digest
         (snd (Memory.append_log no_digest
                 (snd (Memory.append_log no_digest (Memory.fresh "finn" sample_clock store)
                         sample_clock "SYSTEM" "started" None))
                 sample_clock "TOOL_USE" "wrote notes.txt" None))
         sample_clock "THOUGHT" "done" None).

(** The text holds no carriage return. *)
Definition no_cr (s : string) : Prop := PyStr.mem "013"%char s = false.

(** A vector store in which the agent's table exists and holds one record,
    and the same store when the calls on its tables fail. *)
Definition earlier_record : @Memory.MemoryRecord unit :=
  Memory.MkRecord "memory_1736930000.0" tt "The user prefers short answers"
                  (PDict [("agent", PStr "finn"); ("stored_at", PStr "2025-01-15 08:33:20")]).

Definition store_with_table : @Memory.LanceDB unit :=
  Memory.MkLance {[ "finn_memory" := [earlier_record] ]} true.

Definition broken_store : @Memory.LanceDB unit :=
  Memory.MkLance {[ "finn_memory" := [earlier_record] ]} false.

(** A manager on a new disk with the store that has the agent's table; the
    embedding endpoint is down, so vectors are the fallback. *)
Definition memory_with_store : @Memory.MemoryManager unit :=
  Memory.fresh "finn" sample_clock (Some store_with_table).

(** The backtick, and the number of backticks a text starts with. *)
Definition backtick : ascii := "096"%char.

Fixpoint leading_ticks (s : string) : nat :=
  match s with
  | String c rest => if Ascii.eqb c backtick then S (leading_ticks rest) else O
  | EmptyString => O
  end.

(** The texts a regular expression matches in full. *)
Inductive matches : Re.regex -> string -> Prop :=
| matches_char p c : p c = true -> matches (Re.RChar p) (String c EmptyString)
| matches_seq a b x y : matches a x -> matches b y -> matches (Re.RSeq a b) (x +:+ y)
| matches_alt_l a b x : matches a x -> matches (Re.RAlt a b) x
| matches_alt_r a b x : matches b x -> matches (Re.RAlt a b) x
| matches_opt_none a : matches (Re.ROpt a) EmptyString
| matches_opt_some a x : matches a x -> matches (Re.ROpt a) x
| matches_plus_one a x : matches a x -> matches (Re.RPlus a) x
| matches_plus_more a x y :
    matches a x -> matches (Re.RPlus a) y -> matches (Re.RPlus a) (x +:+ y)
| matches_group a x : matches a x -> matches (Re.RGroup a) x.

(** The loop by which [Re.rmatch] matches a repetition. *)
Definition plus_loop (a : Re.regex) : nat -> string -> list (option string * string) :=
  fix loop (fuel : nat) (s : string) : list (option string * string) :=
    match fuel with
    | O => []
    | S fuel' =>
        flat_map (fun m =>
                    (if (String.length (snd m) <? String.length s)%nat
                     then loop fuel' (snd m) else [])
                    ++ [m])
                 (Re.rmatch a s)
    end.

(** The bodies of the groups of a regular expression. *)
Fixpoint groups (r : Re.regex) : list Re.regex :=
  match r with
  | Re.RChar _ => []
  | Re.RSeq a b | Re.RAlt a b => groups a ++ groups b
  | Re.ROpt a | Re.RPlus a => groups a
  | Re.RGroup a => a :: groups a
  end.

(** Every character of a text satisfies a test. *)
Fixpoint all_chars (p : ascii -> bool) (s : string) : bool :=
  match s with
  | EmptyString => true
  | String c rest => p c && all_chars p rest
  end.

(** A character of a skill name the Actor can capture. *)
Definition name_char (c : ascii) : bool := PyStr.is_word c || Ascii.eqb c "-"%char.

(** A world in which the generated code calls [sys.exit]. *)
Definition world_with_exiting_code : State.World :=
  State.MkWorld ∅ Config.default_config (fun _ _ _ => EmptyString)
    (fun _ => Raise (MkExn SystemExit "1"))
    (fun _ _ _ => Return (PDict [("strategy", PStr "verify_everything"); ("args", PDict [])]))
    (fun _ => None).

(** * Properties *)

(** ** Strings *)

Lemma append_assoc (a b c : string) : (a +:+ b) +:+ c = a +:+ (b +:+ c).
Proof. induction a as [|x a IH]; simpl; [reflexivity | now rewrite IH]. Qed.

Lemma append_empty_r (a : string) : a +:+ EmptyString = a.
Proof. induction a as [|x a IH]; simpl; [reflexivity | now rewrite IH]. Qed.

Lemma startswith_iff (p s : string) :
  PyStr.startswith p s = true <-> exists post, s = p +:+ post.
Proof.
  revert s. induction p as [|a p IH]; intros s; simpl.
  - split; [intros _; now exists s | reflexivity].
  - destruct s as [|b s].
    + split; [discriminate | intros [post H]; discriminate].
    + rewrite andb_true_iff, IH. split.
      * intros [Hab [post ->]]. apply Ascii.eqb_eq in Hab as ->. now exists post.
      * intros [post H]. injection H as -> ->. split; [apply Ascii.eqb_refl | now exists post].
Qed.

Lemma contains_iff (p s : string) :
  PyStr.contains p s = true <-> exists pre post, s = pre +:+ p +:+ post.
Proof.
  induction s as [|c s IH]; simpl.
  - rewrite orb_false_r, startswith_iff. split.
    + intros [post H]. now exists EmptyString, post.
    + intros [pre [post H]]. destruct pre; [now exists post | discriminate].
  - rewrite orb_true_iff, startswith_iff, IH. split.
    + intros [[post H] | [pre [post H]]].
      * now exists EmptyString, post.
      * exists (String c pre), post. simpl. now rewrite H.
    + intros [pre [post H]]. destruct pre as [|x pre]; simpl in H.
      * left. now exists post.
      * right. injection H as _ ->. now exists pre, post.
Qed.

Lemma contains_middle (p pre post : string) : PyStr.contains p (pre +:+ p +:+ post) = true.
Proof. apply contains_iff. now exists pre, post. Qed.

Lemma lower_append (a b : string) : PyStr.lower (a +:+ b) = PyStr.lower a +:+ PyStr.lower b.
Proof. induction a as [|x a IH]; simpl; [reflexivity | now rewrite IH]. Qed.

Lemma lower_split (s a b : string) :
  PyStr.lower s = a +:+ b ->
  exists a' b', s = a' +:+ b' /\ PyStr.lower a' = a /\ PyStr.lower b' = b.
Proof.
  revert s. induction a as [|x a IH]; intros s H; simpl in H.
  - now exists EmptyString, s.
  - destruct s as [|c s]; simpl in H; [discriminate |].
    injection H as Hc Hs. destruct (IH _ Hs) as [a' [b' [-> [Ha Hb]]]].
    exists (String c a'), b'. simpl. now rewrite Hc, Ha.
Qed.

Lemma contains_lower_iff (word text : string) :
  PyStr.contains word (PyStr.lower text) = true <-> occurs_ignoring_case word text.
Proof.
  rewrite contains_iff. split.
  - intros [pre [post H]].
    destruct (lower_split _ _ _ H) as [a [b [-> [Ha Hb]]]].
    destruct (lower_split _ _ _ Hb) as [m [c [-> [Hm Hc]]]].
    now exists a, m, c.
  - intros [pre [mid [post [-> <-]]]].
    exists (PyStr.lower pre), (PyStr.lower post). now rewrite !lower_append.
Qed.

(** Joining the pieces of a split gives the text back, and dropping
    leading pieces leaves a suffix of it. *)
Lemma join_skipn sep (l : list string) k :
  exists before, PyStr.join sep l = before +:+ PyStr.join sep (List.skipn k l).
Proof.
  revert l. induction k as [|k IH]; intros l; [now exists EmptyString |].
  destruct l as [|x l]; [now exists EmptyString |]. cbn [List.skipn].
  destruct (IH l) as [before Hb]. destruct l as [|y l].
  - exists x. destruct k; cbn; now rewrite append_empty_r.
  - exists (x +:+ sep +:+ before). cbn [PyStr.join] in *. rewrite Hb.
    now rewrite !append_assoc.
Qed.

Lemma join_split_go sep fuel cur s :
  sep <> EmptyString -> (String.length s <= fuel)%nat ->
  PyStr.join sep (PyStr.split_go fuel sep cur s) = cur +:+ s.
Proof.
  intros Hsep. revert cur s. induction fuel as [|fuel IH]; intros cur s Hlen.
  - destruct s; [reflexivity | cbn in Hlen; lia].
  - cbn [PyStr.split_go]. destruct s as [|c rest]; [cbn; now rewrite append_empty_r |].
    destruct (PyStr.startswith sep (String c rest)) eqn:Hst.
    + apply startswith_iff in Hst as [post Hpost].
      assert (Hdrop : PyStr.drop (String.length sep) (String c rest) = post).
      { rewrite Hpost. clear. induction sep as [|a sep IHs]; [reflexivity | exact IHs]. }
      rewrite Hdrop.
      assert (Hpl : (String.length post <= fuel)%nat).
      { assert (String.length (String c rest) = String.length sep + String.length post)%nat
          by (rewrite Hpost; clear; induction sep; cbn; [reflexivity | now f_equal]).
        destruct sep; [contradiction | cbn in *; lia]. }
      specialize (IH EmptyString post Hpl).
      destruct (PyStr.split_go fuel sep EmptyString post) as [|p ps] eqn:Hsp.
      * cbn in IH. cbn. rewrite Hpost, <- IH.
        destruct fuel; cbn in Hsp; [discriminate | destruct post; [discriminate |]].
        destruct (PyStr.startswith sep _); discriminate.
      * change (PyStr.join sep (cur :: p :: ps))
          with (cur +:+ sep +:+ PyStr.join sep (p :: ps)).
        rewrite IH, Hpost. reflexivity.
    + rewrite IH by (cbn in Hlen; lia). rewrite append_assoc. reflexivity.
Qed.

(** [sep.join(s.split(sep))] is [s]. *)
Lemma join_split sep s : sep <> EmptyString -> PyStr.join sep (PyStr.split sep s) = s.
Proof. intros H. unfold PyStr.split. now rewrite join_split_go. Qed.

(** ** Configuration *)

(** C5. Loading the base URL [http://raspberrypi], which ends in none of
    [/v1], [/api] or [/], does not leave it unchanged: the load succeeds
    and the URL comes out as [http://raspberry]. The sanitising line strips
    trailing characters drawn from the sets [/v1] and [/api], not the
    suffixes. *)
Theorem from_env_eats_host_name :
  PyStr.endswith "/v1" "http://raspberrypi" = false /\
  PyStr.endswith "/api" "http://raspberrypi" = false /\
  PyStr.endswith "/" "http://raspberrypi" = false /\
  exists cfg, Config.from_env env_raspberrypi = Return cfg
              /\ Config.OLLAMA_BASE_URL cfg = "http://raspberry".
Proof.
  repeat split; try reflexivity.
  eexists. split; [vm_compute; reflexivity | reflexivity].
Qed.

(** The same line on a port number. *)
Lemma sanitize_url_eats_port :
  Config.sanitize_url "http://localhost:11411" = "http://localhost:114".
Proof. reflexivity. Qed.

(** What the line gets right. *)
Lemma sanitize_url_suffixes :
  Config.sanitize_url "http://localhost:11434/v1" = "http://localhost:11434"
  /\ Config.sanitize_url "http://localhost:11434/api/" = "http://localhost:11434"
  /\ Config.sanitize_url "http://192.168.4.102:11434" = "http://192.168.4.102:11434".
Proof. repeat split; reflexivity. Qed.

(** ** The step router *)

Section Router.
Import State Graph.

Lemma route_step_done st :
  (Z.of_nat (List.length (get_plan st)) <= get_index st)%Z -> route_step st = Return END.
Proof.
  intros H. unfold route_step.
  now rewrite (proj2 (Z.leb_le _ _) H).
Qed.

Lemma route_step_at st step :
  (get_index st < Z.of_nat (List.length (get_plan st)))%Z ->
  py_index (get_plan st) (get_index st) = Return step ->
  route_step st =
    Return (if bool_decide (role step = Some "Actor") then ToActor
            else if bool_decide (role step = Some "Auditor") then ToAuditor
            else END).
Proof.
  intros Hlt Hstep. unfold route_step.
  rewrite (proj2 (Z.leb_gt _ _) Hlt), Hstep. simpl.
  repeat case_bool_decide; reflexivity.
Qed.

(** C3. [route_step] reads the cursor and the plan only. It answers
    terminal when the cursor has reached the length of the plan; otherwise,
    with [step] the plan's item at the cursor, it answers Actor for the role
    [Actor], Auditor for the role [Auditor], and terminal for any other
    role. *)
Theorem route_step_spec (st : AgentState) :
  ((Z.of_nat (List.length (get_plan st)) <= get_index st)%Z -> route_step st = Return END)
  /\ (forall step,
        (get_index st < Z.of_nat (List.length (get_plan st)))%Z ->
        py_index (get_plan st) (get_index st) = Return step ->
        (role step = Some "Actor" -> route_step st = Return ToActor)
        /\ (role step = Some "Auditor" -> route_step st = Return ToAuditor)
        /\ (role step <> Some "Actor" -> role step <> Some "Auditor" ->
            route_step st = Return END))
  /\ (forall st', get_index st' = get_index st -> get_plan st' = get_plan st ->
                  route_step st' = route_step st).
Proof.
  split; [apply route_step_done |]. split.
  - intros step Hlt Hstep. rewrite (route_step_at st step Hlt Hstep).
    repeat split.
    + intros ->. reflexivity.
    + intros ->. reflexivity.
    + intros H1 H2. now rewrite !bool_decide_eq_false_2.
  - intros st' Hi Hp. unfold route_step. now rewrite Hi, Hp.
Qed.

(** The router on the sample plan: Actor, Auditor, terminal at the unknown
    role, terminal past the end. *)
Lemma route_step_spec_witness :
  route_step (sample_state None sample_plan 0) = Return ToActor
  /\ route_step (sample_state None sample_plan 1) = Return ToAuditor
  /\ route_step (sample_state None sample_plan 2) = Return END
  /\ route_step (sample_state None sample_plan 3) = Return END.
Proof.
  split; [| split; [| split]].
  - apply (proj1 (proj2 (route_step_spec (sample_state None sample_plan 0)))
             (State.MkStep (Some "Actor") "Create a file notes.txt with the text hello" None));
      [reflexivity | reflexivity | reflexivity].
  - apply (proj1 (proj2 (route_step_spec (sample_state None sample_plan 1)))
             (State.MkStep (Some "Auditor") "Verify notes.txt" (Some (PStr "notes.txt is on disk"))));
      [reflexivity | reflexivity | reflexivity].
  - apply (proj1 (proj2 (route_step_spec (sample_state None sample_plan 2)))
             (State.MkStep (Some "Reviewer") "Look again" None));
      [reflexivity | reflexivity | discriminate | discriminate].
  - apply (proj1 (route_step_spec (sample_state None sample_plan 3))). vm_compute. discriminate.
Defined.

End Router.

(** ** The cursor *)

Section Cursor.
Import State Graph.

(** What the argument check of the file strategies raises. *)
Lemma to_path_raises path e :
  AuditStrategies.to_path path = Raise e -> exn_kind e = TypeError \/ exn_kind e = OverflowError.
Proof.
  destruct path as [| b | z | f | t | l | d]; cbn; try discriminate;
    try (intros [= <-]; left; reflexivity).
  destruct (2147483647 <? z)%Z; [intros [= <-]; right; reflexivity |].
  destruct (z <? -2147483648)%Z; [intros [= <-]; right; reflexivity | discriminate].
Qed.

Lemma strategy_raises_exception {A} (path : pyval) (k : AuditStrategies.fs_path -> outcome A) e :
  (forall p e', k p = Raise e' -> is_exception e' = true) ->
  (p ← AuditStrategies.to_path path; k p) = Raise e -> is_exception e = true.
Proof.
  intros Hk. destruct (AuditStrategies.to_path path) as [p|e'] eqn:Hp; cbn.
  - apply Hk.
  - intros [= <-]. unfold is_exception.
    destruct (to_path_raises _ _ Hp) as [-> | ->]; reflexivity.
Qed.

Lemma json_get_raises obj key dflt e :
  Auditor.json_get obj key dflt = Raise e -> is_exception e = true.
Proof. destruct obj; cbn; try discriminate; now intros [= <-]. Qed.

Lemma dispatch_raises fs strategy_name args prev_output e :
  Auditor.dispatch fs strategy_name args prev_output = Raise e -> is_exception e = true.
Proof.
  unfold Auditor.dispatch.
  repeat match goal with |- context [Py.eq_str ?a ?b] => destruct (Py.eq_str a b) end;
    try discriminate;
    destruct (Auditor.json_get args "path" (PStr EmptyString)) as [path|e1] eqn:H1;
    cbn; try (intros [= <-]; now apply json_get_raises in H1).
  - unfold AuditStrategies.verify_file_exists.
    apply strategy_raises_exception. discriminate.
  - destruct (Auditor.json_get args "substring" (PStr EmptyString)) as [sub|e2] eqn:H2;
      cbn; [| intros [= <-]; now apply json_get_raises in H2].
    unfold AuditStrategies.verify_file_content_contains.
    apply strategy_raises_exception. discriminate.
  - unfold AuditStrategies.verify_file_does_not_exist.
    apply strategy_raises_exception. discriminate.
Qed.

(** Of the calls in the Auditor's [try] block only the request to the parser
    model can raise outside [Exception]. *)
Lemma select_and_verify_escape w instruction expected prev_output e :
  Auditor.select_and_verify w instruction expected prev_output = Raise e ->
  is_exception e = false ->
  auditor_llm w instruction expected prev_output = Raise e.
Proof.
  unfold Auditor.select_and_verify.
  destruct (auditor_llm w instruction expected prev_output) as [data|e0]; cbn;
    [| now intros [= <-]].
  destruct (Auditor.json_get data "strategy" PNone) as [strategy_name|e1] eqn:H1; cbn.
  - destruct (Auditor.json_get data "args" (PDict [])) as [args|e2] eqn:H2; cbn.
    + intros Hd He. apply dispatch_raises in Hd. congruence.
    + intros [= <-] He. apply json_get_raises in H2. congruence.
  - intros [= <-] He. apply json_get_raises in H1. congruence.
Qed.

Lemma route_step_inv st r :
  route_step st = Return r -> r <> END ->
  (get_index st < Z.of_nat (List.length (get_plan st)))%Z
  /\ exists step, py_index (get_plan st) (get_index st) = Return step
                  /\ role step = Some (match r with ToActor => "Actor" | _ => "Auditor" end).
Proof.
  unfold route_step. intros H Hr.
  destruct (Z.leb_spec (Z.of_nat (List.length (get_plan st))) (get_index st)) as [Hle|Hlt].
  - injection H as <-. contradiction.
  - split; [exact Hlt |].
    destruct (py_index (get_plan st) (get_index st)) as [step|e]; simpl in H; [| discriminate].
    exists step. split; [reflexivity |].
    repeat case_bool_decide; injection H as <-; try assumption. contradiction.
Qed.

Ltac enter_node H :=
  let Hlt := fresh "Hlt" in
  let step := fresh "step" in
  let Hstep := fresh "Hstep" in
  let Hrole := fresh "Hrole" in
  destruct (route_step_inv _ _ H ltac:(discriminate)) as [Hlt [step [Hstep Hrole]]];
  rewrite (proj2 (Z.leb_gt _ _) Hlt), Hstep, Hrole;
  rewrite bool_decide_eq_true_2 by reflexivity; cbn [negb].

Lemma generate_and_execute_cursor w st idx instruction :
  match snd (Actor.generate_and_execute w st idx instruction) with
  | Return u => upd_current_step_index u = Some (idx + 1)%Z
  | Raise e => is_exception e = false
  end.
Proof.
  unfold Actor.generate_and_execute. cbn [snd].
  destruct (py_exec w _) as [[]|e]; [reflexivity |].
  destruct (is_exception e) eqn:He; [reflexivity | exact He].
Qed.

Lemma actor_node_cursor w st :
  route_step st = Return ToActor ->
  match snd (Actor.actor_node w st) with
  | Return u => upd_current_step_index u = Some (get_index st + 1)%Z
  | Raise e => is_exception e = false
  end.
Proof.
  intros H. unfold Actor.actor_node. enter_node H.
  destruct (Actor.resolve_skill st (instruction step)) as [[agent skill_name]|];
    [| apply generate_and_execute_cursor].
  destruct (Agent.execute_skill agent skill_name []) as [v|e]; [reflexivity |].
  destruct (is_exception e) eqn:He; [apply generate_and_execute_cursor | exact He].
Qed.

Lemma auditor_node_cursor w st :
  route_step st = Return ToAuditor ->
  match snd (Auditor.auditor_node w st) with
  | Return u => upd_current_step_index u = Some (get_index st + 1)%Z
  | Raise e => is_exception e = false
  end.
Proof.
  intros H. unfold Auditor.auditor_node. enter_node H.
  destruct (Auditor.select_and_verify w _ _ _) as [r|e]; [reflexivity |].
  destruct (is_exception e) eqn:He; [reflexivity | exact He].
Qed.

Lemma merge_index st u i :
  upd_current_step_index u = Some i -> get_index (merge st u) = i.
Proof. intros H. unfold get_index, merge. cbn. now rewrite H. Qed.

Lemma merge_plan st u : get_plan (merge st u) = get_plan st.
Proof. reflexivity. Qed.

Lemma tick_cursor w st evs st' :
  tick w st = Return (Some (evs, st')) ->
  get_index st' = (get_index st + 1)%Z /\ get_plan st' = get_plan st.
Proof.
  unfold tick. destruct (route_step st) as [[| |]|e] eqn:Hr; cbn; try discriminate.
  - pose proof (actor_node_cursor w st Hr) as Hc.
    destruct (snd (Actor.actor_node w st)) as [u|e]; cbn; [| discriminate].
    intros [= _ <-]. split; [now apply merge_index | apply merge_plan].
  - pose proof (auditor_node_cursor w st Hr) as Hc.
    destruct (snd (Auditor.auditor_node w st)) as [u|e]; cbn; [| discriminate].
    intros [= _ <-]. split; [now apply merge_index | apply merge_plan].
Qed.

Lemma run_head fuel w st : fst (run fuel w st) !! 0%nat = Some st.
Proof.
  destruct fuel; [reflexivity |]. cbn [run].
  destruct (tick w st) as [[next|]|e]; reflexivity.
Qed.

Lemma run_cursor fuel w st i a b :
  fst (run fuel w st) !! i = Some a ->
  fst (run fuel w st) !! S i = Some b ->
  get_index b = (get_index a + 1)%Z.
Proof.
  revert st i. induction fuel as [|fuel IH]; intros st i; [discriminate 2 |].
  cbn [run]. destruct (tick w st) as [[[evs st']|]|e] eqn:Ht; try discriminate 2.
  cbn [fst snd]. destruct i as [|i].
  - cbn. rewrite run_head. intros [= <-] [= <-]. now apply (tick_cursor w _ evs).
  - cbn. apply IH.
Qed.

(** The step loop ends by itself: each tick moves the cursor one step closer
    to the end of the plan. *)
Lemma run_terminates fuel w st :
  (Z.max 0 (Z.of_nat (List.length (get_plan st)) - get_index st) < Z.of_nat fuel)%Z ->
  snd (run fuel w st) <> OutOfFuel.
Proof.
  revert st. induction fuel as [|fuel IH]; intros st Hfuel; [lia |].
  cbn [run]. destruct (tick w st) as [[[evs st']|]|e] eqn:Ht; try discriminate.
  cbn [snd]. apply IH.
  destruct (tick_cursor _ _ _ _ Ht) as [-> ->].
  assert (get_index st < Z.of_nat (List.length (get_plan st)))%Z; [| lia].
  unfold tick in Ht. destruct (route_step st) as [r|] eqn:Hr; [| discriminate].
  destruct r; [apply (route_step_inv _ _ Hr); discriminate ..| cbn in Ht; discriminate].
Qed.

Lemma generate_and_execute_escape w st instruction e :
  snd (Actor.generate_and_execute w st (get_index st) instruction) = Raise e ->
  is_exception e = false /\ py_exec w (generated_code w instruction) = Raise e.
Proof.
  unfold Actor.generate_and_execute, generated_code. cbn [snd].
  destruct (py_exec w _) as [[]|e0]; [discriminate |].
  destruct (is_exception e0) eqn:He; [discriminate |]. now intros [= <-].
Qed.

Lemma actor_node_escape w st e :
  route_step st = Return ToActor ->
  snd (Actor.actor_node w st) = Raise e ->
  is_exception e = false /\ escapes_actor w st e.
Proof.
  intros H. unfold Actor.actor_node, escapes_actor.
  destruct (route_step_inv _ _ H ltac:(discriminate)) as [Hlt [step [Hstep Hrole]]].
  rewrite (proj2 (Z.leb_gt _ _) Hlt), Hstep, Hrole.
  rewrite bool_decide_eq_true_2 by reflexivity. cbn [negb].
  destruct (Actor.resolve_skill st (instruction step)) as [[agent skill_name]|] eqn:Hres.
  - destruct (Agent.execute_skill agent skill_name []) as [v|e0] eqn:Hcall; [discriminate |].
    destruct (is_exception e0) eqn:He0; cbn [snd].
    + intros Hrun. apply generate_and_execute_escape in Hrun as [He Hrun].
      split; [exact He |]. exists step. split; [reflexivity | now right].
    + intros [= <-]. split; [exact He0 |]. exists step. split; [reflexivity |].
      left. now exists agent, skill_name.
  - intros Hrun. apply generate_and_execute_escape in Hrun as [He Hrun].
    split; [exact He |]. exists step. split; [reflexivity | now right].
Qed.

Lemma auditor_node_escape w st e :
  route_step st = Return ToAuditor ->
  snd (Auditor.auditor_node w st) = Raise e ->
  is_exception e = false /\ escapes_auditor w st e.
Proof.
  intros H. unfold Auditor.auditor_node, escapes_auditor.
  destruct (route_step_inv _ _ H ltac:(discriminate)) as [Hlt [step [Hstep Hrole]]].
  rewrite (proj2 (Z.leb_gt _ _) Hlt), Hstep, Hrole.
  rewrite bool_decide_eq_true_2 by reflexivity. cbn [negb].
  destruct (Auditor.select_and_verify w _ _ _) as [r|e0] eqn:Hsel; [discriminate |].
  destruct (is_exception e0) eqn:He0; cbn [snd]; [discriminate |].
  intros [= <-]. split; [exact He0 |]. exists step. split; [reflexivity |].
  now apply select_and_verify_escape.
Qed.

(** C4. On a tick that the router sends to the Actor, and on one it sends to
    the Auditor, the node returns an update, and the update sets the cursor
    to the old cursor plus one. The node returns no update only when an
    exception outside [Exception] comes out of the skill call or out of
    [exec] (Actor), or out of the request to the parser model (Auditor):
    that exception leaves the node. Hence along the states of a run the
    cursor grows by exactly one from each state to the next. *)
Theorem cursor_steps_by_one (w : World) (st : AgentState) :
  (route_step st = Return ToActor ->
   match snd (Actor.actor_node w st) with
   | Return u => upd_current_step_index u = Some (get_index st + 1)%Z
   | Raise e => is_exception e = false /\ escapes_actor w st e
   end)
  /\ (route_step st = Return ToAuditor ->
      match snd (Auditor.auditor_node w st) with
      | Return u => upd_current_step_index u = Some (get_index st + 1)%Z
      | Raise e => is_exception e = false /\ escapes_auditor w st e
      end)
  /\ (forall fuel i a b,
        fst (run fuel w st) !! i = Some a ->
        fst (run fuel w st) !! S i = Some b ->
        get_index b = (get_index a + 1)%Z).
Proof.
  split; [| split].
  - intros H. pose proof (actor_node_cursor w st H) as Hc.
    destruct (snd (Actor.actor_node w st)) as [u|e] eqn:Hn; [exact Hc |].
    now apply actor_node_escape.
  - intros H. pose proof (auditor_node_cursor w st H) as Hc.
    destruct (snd (Auditor.auditor_node w st)) as [u|e] eqn:Hn; [exact Hc |].
    now apply auditor_node_escape.
  - intros fuel i a b. apply run_cursor.
Qed.

(** On the sample plan the router sends the first tick to the Actor, which
    returns an update that moves the cursor from 0 to 1. *)
Lemma cursor_steps_by_one_witness :
  route_step (sample_state None sample_plan 0) = Return ToActor
  /\ snd (Actor.actor_node sample_world (sample_state None sample_plan 0))
     = Return (MkUpdate (Some {[ "step_0" := "Success" ]}) (Some 1%Z))
  /\ upd_current_step_index (MkUpdate (Some {[ "step_0" := "Success" ]}) (Some 1%Z))
     = Some (0 + 1)%Z.
Proof.
  split; [reflexivity |]. split; [reflexivity |].
  exact (proj1 (cursor_steps_by_one sample_world (sample_state None sample_plan 0)) eq_refl).
Defined.

(** The whole run on the sample plan: cursor 0, 1, 2, and the router ends
    the run at the step with the unknown role. *)
Example run_sample_plan :
  let r := run 5 sample_world (sample_state None sample_plan 0) in
  map get_index (fst r) = [0; 1; 2]%Z /\ snd r = Finished
  /\ (get_tool_outputs <$> last (fst r)) = Some {[ "step_0" := "Success" ]}.
Proof. vm_compute. repeat split. Qed.

End Cursor.

(** ** The Actor *)

Section ActorNode.
Import State.

Lemma generate_and_execute_spec w st instruction :
  fst (Actor.generate_and_execute w st (get_index st) instruction)
  = [CodeRequested instruction; Executed (generated_code w instruction)]
  /\ snd (Actor.generate_and_execute w st (get_index st) instruction)
     = exec_record st (py_exec w (generated_code w instruction)).
Proof.
  unfold Actor.generate_and_execute, generated_code, exec_record, recorded. cbn [fst snd].
  split; [reflexivity |].
  destruct (py_exec w _) as [[]|e]; reflexivity.
Qed.

Lemma actor_node_enter w st step :
  (get_index st < Z.of_nat (List.length (get_plan st)))%Z ->
  py_index (get_plan st) (get_index st) = Return step ->
  role step = Some "Actor" ->
  Actor.actor_node w st =
    match Actor.resolve_skill st (instruction step) with
    | Some (agent, skill_name) =>
        match Agent.execute_skill agent skill_name [] with
        | Return skill_result =>
            ([SkillCalled skill_name],
             recorded st ("Skill executed: " +:+ Py.str skill_result))
        | Raise e =>
            if is_exception e
            then (SkillCalled skill_name
                    :: fst (Actor.generate_and_execute w st (get_index st) (instruction step)),
                  snd (Actor.generate_and_execute w st (get_index st) (instruction step)))
            else ([SkillCalled skill_name], Raise e)
        end
    | None => Actor.generate_and_execute w st (get_index st) (instruction step)
    end.
Proof.
  intros Hlt Hstep Hrole. unfold Actor.actor_node.
  rewrite (proj2 (Z.leb_gt _ _) Hlt), Hstep, Hrole.
  rewrite bool_decide_eq_true_2 by reflexivity. reflexivity.
Qed.

(** [Skill.execute] turns an exception of the hook into the
    skill-execution-failed error that carries the hook's message. *)
Lemma execute_wraps_hook_error s f params e :
  Registry._execute_func s = Some f ->
  Registry.first_missing (Registry.parameters s) params = None ->
  f params = Raise e -> is_exception e = true ->
  Registry.execute s params
  = Raise (MkExn RuntimeError
             ("Skill '" +:+ Registry.name s +:+ "' execution failed: " +:+ exn_msg e)).
Proof.
  intros Hf Hm He Hx. unfold Registry.execute. now rewrite Hf, Hm, He, Hx.
Qed.

(** C1, as amended. An Actor step whose instruction resolves to no
    registered skill always has its generated code executed, whatever the
    configuration and the environment: the Actor asks the model for code,
    cleans it and passes it to [exec]. When [exec] returns, the step records
    [Success] under its key and moves the cursor by one; when [exec] raises
    an [Exception], it records [Error: ...] with the message and moves the
    cursor by one; an exception outside [Exception] leaves the node, and
    nothing is recorded. *)
Theorem actor_always_executes (w : World) (st : AgentState) (step : PlanStep) :
  (get_index st < Z.of_nat (List.length (get_plan st)))%Z ->
  py_index (get_plan st) (get_index st) = Return step ->
  role step = Some "Actor" ->
  Actor.resolve_skill st (instruction step) = None ->
  fst (Actor.actor_node w st)
  = [CodeRequested (instruction step); Executed (generated_code w (instruction step))]
  /\ snd (Actor.actor_node w st)
     = match py_exec w (generated_code w (instruction step)) with
       | Return _ => recorded st "Success"
       | Raise e =>
           if is_exception e then recorded st ("Error: " +:+ exn_msg e) else Raise e
       end.
Proof.
  intros Hlt Hstep Hrole Hres.
  rewrite (actor_node_enter w st step Hlt Hstep Hrole), Hres.
  apply generate_and_execute_spec.
Qed.

(** In the default world the first step of the sample plan has the mock
    model's snippet executed and [Success] recorded. *)
Lemma actor_always_executes_witness :
  fst (Actor.actor_node sample_world (sample_state None sample_plan 0))
  = [CodeRequested "Create a file notes.txt with the text hello";
     Executed (PyStr.strip LLM.mock_code)]
  /\ snd (Actor.actor_node sample_world (sample_state None sample_plan 0))
     = Return (MkUpdate (Some {[ "step_0" := "Success" ]}) (Some 1%Z)).
Proof.
  exact (actor_always_executes sample_world (sample_state None sample_plan 0)
           (MkStep (Some "Actor") "Create a file notes.txt with the text hello" None)
           eq_refl eq_refl eq_refl eq_refl).
Defined.

(** C1, counterexample. No flag that is off in the default world gates the
    execution: there the Actor executes the generated code and records its
    output. *)
Lemma no_flag_gates_exec :
  ~ exists flag : World -> bool, flag sample_world = false /\ exec_gated_by flag.
Proof.
  intros [flag [Hoff Hgate]].
  destruct (Hgate sample_world (sample_state None sample_plan 0)
                  (MkStep (Some "Actor") "Create a file notes.txt with the text hello" None)
                  eq_refl eq_refl eq_refl eq_refl Hoff) as [Hnone _].
  apply (Hnone (PyStr.strip LLM.mock_code)).
  vm_compute. apply list_elem_of_In. right. left. reflexivity.
Qed.

(** C2, as amended. When the skill call of an Actor step raises an
    [Exception], the Actor falls back to code generation: the error is only
    printed, the generated code is executed, and the step records the
    output of that execution, [Success] or [Error: ...] with the message of
    the [Exception] that [exec] raised, moving the cursor by one. An
    exception outside [Exception], from the skill call or from [exec],
    leaves the node, and nothing is recorded. *)
Theorem skill_failure_falls_back (w : World) (st : AgentState) (step : PlanStep)
        (agent : Agent.Agent) (skill_name : string) (e : pyexn) :
  (get_index st < Z.of_nat (List.length (get_plan st)))%Z ->
  py_index (get_plan st) (get_index st) = Return step ->
  role step = Some "Actor" ->
  Actor.resolve_skill st (instruction step) = Some (agent, skill_name) ->
  Agent.execute_skill agent skill_name [] = Raise e ->
  if is_exception e then
    fst (Actor.actor_node w st)
    = [SkillCalled skill_name; CodeRequested (instruction step);
       Executed (generated_code w (instruction step))]
    /\ snd (Actor.actor_node w st)
       = match py_exec w (generated_code w (instruction step)) with
         | Return _ => recorded st "Success"
         | Raise e' =>
             if is_exception e' then recorded st ("Error: " +:+ exn_msg e') else Raise e'
         end
  else Actor.actor_node w st = ([SkillCalled skill_name], Raise e).
Proof.
  intros Hlt Hstep Hrole Hres Hraise.
  rewrite (actor_node_enter w st step Hlt Hstep Hrole), Hres, Hraise.
  destruct (is_exception e); [| reflexivity]. cbn [fst snd].
  destruct (generate_and_execute_spec w st (instruction step)) as [-> H].
  split; [reflexivity | exact H].
Qed.

(** The sample agent's [file-operations] hook raises; the step that names
    the skill ends with [Success] recorded, from the fallback. *)
Lemma skill_failure_falls_back_witness :
  Agent.execute_skill sample_agent "file-operations" []
  = Raise (MkExn RuntimeError "Skill 'file-operations' execution failed: disk full")
  /\ fst (Actor.actor_node sample_world (sample_state (Some sample_agent) skill_plan 0))
     = [SkillCalled "file-operations";
        CodeRequested "Use skill 'file-operations' to create a file notes.txt";
        Executed (PyStr.strip LLM.mock_code)]
  /\ snd (Actor.actor_node sample_world (sample_state (Some sample_agent) skill_plan 0))
     = Return (MkUpdate (Some {[ "step_0" := "Success" ]}) (Some 1%Z)).
Proof.
  split; [reflexivity |].
  exact (skill_failure_falls_back sample_world (sample_state (Some sample_agent) skill_plan 0)
           (MkStep (Some "Actor") "Use skill 'file-operations' to create a file notes.txt" None)
           sample_agent "file-operations"
           (MkExn RuntimeError "Skill 'file-operations' execution failed: disk full")
           eq_refl eq_refl eq_refl eq_refl eq_refl).
Defined.

(** C2, counterexample. The sample agent's skill raises; what the step
    records is [Success], not the error message. *)
Lemma skill_failure_not_recorded : ~ skill_failure_recorded.
Proof.
  intros H.
  destruct (H sample_world (sample_state (Some sample_agent) skill_plan 0)
              (MkStep (Some "Actor") "Use skill 'file-operations' to create a file notes.txt" None)
              sample_agent "file-operations"
              (MkExn RuntimeError "Skill 'file-operations' execution failed: disk full")
              eq_refl eq_refl eq_refl eq_refl eq_refl eq_refl)
    as [u [out [Hu [_ [Hout Hmsg]]]]].
  vm_compute in Hu. injection Hu as <-.
  vm_compute in Hout. injection Hout as <-.
  vm_compute in Hmsg. discriminate.
Qed.

End ActorNode.

(** ** The Auditor *)

Section AuditorNode.
Import State AuditStrategies.

Lemma eq_str_false v s : v <> PStr s -> Py.eq_str v s = false.
Proof.
  intros H. destruct v; try reflexivity. cbn.
  apply String.eqb_neq. intros ->. now apply H.
Qed.

Lemma dispatch_fallback fs strategy_name args prev_output :
  unknown_strategy strategy_name ->
  Auditor.dispatch fs strategy_name args prev_output
  = Return (verify_tool_output_success prev_output).
Proof.
  intros [H1 [H2 H3]]. unfold Auditor.dispatch.
  now rewrite !eq_str_false.
Qed.

Lemma verify_tool_output_success_spec output :
  (reports_failure output ->
   passed (verify_tool_output_success output) = false
   /\ severity (verify_tool_output_success output) = ERROR)
  /\ (~ reports_failure output ->
      passed (verify_tool_output_success output) = true
      /\ severity (verify_tool_output_success output) = INFO).
Proof.
  unfold verify_tool_output_success, reports_failure.
  rewrite <- !contains_lower_iff.
  destruct (PyStr.contains "error" _), (PyStr.contains "exception" _),
    (PyStr.contains "failed" _); cbn; split; intros H; try (split; reflexivity);
    try (exfalso; apply H; auto); destruct H as [H | [H | H]]; discriminate.
Qed.

(** C9. On an Auditor step, when the parser model's answer is a JSON object
    whose strategy name is none of [verify_file_exists],
    [verify_file_content_contains], [verify_file_does_not_exist], the audit
    result is [verify_tool_output_success] of the previous step's output;
    and that predicate fails with severity ERROR exactly when the output
    has [error], [exception] or [failed] in it in any case, and passes with
    severity INFO otherwise. *)
Theorem auditor_falls_back (w : World) (st : AgentState) (step : PlanStep)
        (d : list (string * pyval)) :
  (get_index st < Z.of_nat (List.length (get_plan st)))%Z ->
  py_index (get_plan st) (get_index st) = Return step ->
  role step = Some "Auditor" ->
  auditor_llm w (instruction step)
              (Py.str (default (PStr EmptyString) (expected_outcome step)))
              (default EmptyString (get_tool_outputs st !! step_key (get_index st - 1)))
  = Return (PDict d) ->
  unknown_strategy (default PNone (Py.dict_get "strategy" d)) ->
  fst (Auditor.auditor_node w st)
  = [Audited (verify_tool_output_success
                (default EmptyString (get_tool_outputs st !! step_key (get_index st - 1))))]
  /\ forall output,
      (reports_failure output ->
       passed (verify_tool_output_success output) = false
       /\ severity (verify_tool_output_success output) = ERROR)
      /\ (~ reports_failure output ->
          passed (verify_tool_output_success output) = true
          /\ severity (verify_tool_output_success output) = INFO).
Proof.
  intros Hlt Hstep Hrole Hllm Hname. split; [| apply verify_tool_output_success_spec].
  unfold Auditor.auditor_node.
  rewrite (proj2 (Z.leb_gt _ _) Hlt), Hstep, Hrole.
  rewrite bool_decide_eq_true_2 by reflexivity. cbn [negb].
  unfold Auditor.select_and_verify. rewrite Hllm. cbn.
  now rewrite (dispatch_fallback _ _ _ _ Hname).
Qed.

(** The parser model of the sample world names [verify_everything]; the
    previous output holds [Error], so the audit fails with severity ERROR. *)
Lemma auditor_falls_back_witness :
  fst (Auditor.auditor_node sample_world state_after_error)
  = [Audited (MkAudit false
                "Previous step reported error: Error: [Errno 28] No space left on device"
                ERROR)].
Proof.
  exact (proj1 (auditor_falls_back sample_world state_after_error
                  (MkStep (Some "Auditor") "Verify notes.txt" (Some (PStr "notes.txt is on disk")))
                  [("strategy", PStr "verify_everything"); ("args", PDict [])]
                  eq_refl eq_refl eq_refl eq_refl
                  ltac:(repeat split; discriminate))).
Defined.

End AuditorNode.

(** ** The skill registry *)

Section SkillRegistry.
Import Registry.

Lemma set_overrides_core_name s : name (set_overrides_core s) = name s.
Proof. reflexivity. Qed.

(** The skill [register_skill] stores is the incoming one, up to the flag
    [overrides_core]. *)
Lemma register_skill_stored r skill :
  exists stored,
    (stored = skill \/ stored = set_overrides_core skill)
    /\ _skills (register_skill r skill) = <[name skill := stored]> (_skills r)
    /\ _core_skills (register_skill r skill)
       = if is_core skill then <[name skill := stored]> (_core_skills r) else _core_skills r.
Proof.
  unfold register_skill.
  destruct (_skills r !! name skill) as [existing|]; [| exists skill; auto].
  destruct (is_core existing && negb (is_core skill)); [| exists skill; auto].
  exists (set_overrides_core skill). auto.
Qed.

(** Every core skill of the primary index is the entry of the core index
    under the same name. *)
Lemma core_skills_indexed r :
  reachable r ->
  forall n c, _skills r !! n = Some c -> is_core c = true -> _core_skills r !! n = Some c.
Proof.
  induction 1 as [a | r skill Hr IH]; intros n c Hn Hc.
  - cbn in Hn. now rewrite lookup_empty in Hn.
  - destruct (register_skill_stored r skill) as [stored [Hst [Hs Hcs]]].
    rewrite Hs in Hn. rewrite Hcs.
    assert (Hcore : is_core stored = is_core skill) by (destruct Hst as [-> | ->]; reflexivity).
    destruct (decide (name skill = n)) as [<- | Hne].
    + rewrite lookup_insert_eq in Hn. injection Hn as <-.
      rewrite <- Hcore, Hc. apply lookup_insert_eq.
    + rewrite lookup_insert_ne in Hn by exact Hne.
      destruct (is_core skill); [rewrite lookup_insert_ne by exact Hne |]; now apply IH.
Qed.

(** X30. In a registry where the skill registered under the name [N] is a
    core skill, registering a non-core skill named [N] sets
    [overrides_core] on the new skill, makes [get_skill N] return the new
    skill (still non-core), and leaves the core skill under [N] in the core
    index. *)
Theorem register_overrides_core (r : SkillRegistry) (core skill : Skill) (N : string) :
  reachable r ->
  get_skill r N = Some core -> is_core core = true ->
  name skill = N -> is_core skill = false ->
  get_skill (register_skill r skill) N = Some (set_overrides_core skill)
  /\ overrides_core (set_overrides_core skill) = true
  /\ is_core (set_overrides_core skill) = false
  /\ _core_skills (register_skill r skill) !! N = Some core.
Proof.
  intros Hr Hget Hcore <- Hagent.
  pose proof (core_skills_indexed r Hr _ _ Hget Hcore) as Hidx.
  unfold get_skill in *. unfold register_skill.
  rewrite Hget, Hcore, Hagent. cbn [andb negb].
  rewrite set_overrides_core_name. cbn [is_core set_overrides_core _skills _core_skills].
  rewrite Hagent, lookup_insert_eq. auto.
Qed.

(** The core skill [file-operations], then the agent skill of the same
    name. *)
Lemma register_overrides_core_witness :
  let r := register_skill (new_registry "finn") file_operations in
  get_skill (register_skill r finn_file_operations) "file-operations"
  = Some (set_overrides_core finn_file_operations)
  /\ _core_skills (register_skill r finn_file_operations) !! "file-operations"
     = Some file_operations.
Proof.
  destruct (register_overrides_core
              (register_skill (new_registry "finn") file_operations)
              file_operations finn_file_operations "file-operations"
              (reach_register _ _ (reach_new "finn")) eq_refl eq_refl eq_refl eq_refl)
    as [H1 [_ [_ H2]]].
  exact (conj H1 H2).
Defined.

(** Scenario 6 of the spec: after the override, executing the name runs the
    agent-level hook. *)
Example override_runs_agent_hook :
  execute_skill (register_skill (register_skill (new_registry "finn") file_operations)
                                finn_file_operations)
                "file-operations" []
  = Return (PStr "report written").
Proof. reflexivity. Qed.

(** The other two branches of [register_skill] on a taken name: when the
    entry under the name is not a core skill, or the incoming skill is one,
    the incoming skill is stored as it comes. *)
Lemma register_duplicate r existing skill :
  get_skill r (name skill) = Some existing ->
  is_core existing = false \/ is_core skill = true ->
  get_skill (register_skill r skill) (name skill) = Some skill.
Proof.
  intros Hget Hcase. unfold get_skill in *. unfold register_skill. rewrite Hget.
  assert (is_core existing && negb (is_core skill) = false) as ->
      by (destruct Hcase as [-> | ->]; [reflexivity | apply andb_false_r]).
  cbn. apply lookup_insert_eq.
Qed.

(** A non-core registration leaves the core index as it is. *)
Lemma register_keeps_core_index r skill :
  is_core skill = false -> _core_skills (register_skill r skill) = _core_skills r.
Proof.
  intros Hs. destruct (register_skill_stored r skill) as [stored [_ [_ Hc]]].
  now rewrite Hc, Hs.
Qed.

(** C8. [register_skill] looks for a core skill of the same name in the
    primary index only. Once a non-core skill named [N] has taken the place
    of the core skill there, a second non-core skill named [N] is stored as
    it comes, with [overrides_core] false, although the core skill named [N]
    is still registered in the core index; the first one was flagged. *)
Theorem second_override_not_flagged (r : SkillRegistry) (core first second : Skill)
        (N : string) :
  reachable r ->
  get_skill r N = Some core -> is_core core = true ->
  name first = N -> is_core first = false ->
  name second = N -> is_core second = false -> overrides_core second = false ->
  let once := register_skill r first in
  let twice := register_skill once second in
  (exists stored, get_skill once N = Some stored /\ overrides_core stored = true)
  /\ (exists stored,
        get_skill twice N = Some stored
        /\ stored = second /\ is_core stored = false /\ overrides_core stored = false)
  /\ _core_skills twice !! N = Some core.
Proof.
  intros Hr Hget Hcore Hn1 Hc1 Hn2 Hc2 Ho2. cbv zeta.
  assert (Hfirst : get_skill (register_skill r first) N = Some (set_overrides_core first)).
  { unfold get_skill in *. unfold register_skill. rewrite Hn1, Hget, Hcore, Hc1.
    cbn [andb negb]. rewrite set_overrides_core_name, Hn1.
    cbn [_skills]. apply lookup_insert_eq. }
  split; [exists (set_overrides_core first); now split |]. split.
  - exists second. split; [| auto].
    rewrite <- Hn2. apply (register_duplicate _ (set_overrides_core first)).
    + now rewrite Hn2.
    + left. exact Hc1.
  - rewrite !register_keeps_core_index by assumption.
    now apply (core_skills_indexed r Hr).
Qed.

(** The core skill [file-operations], the agent's skill of that name from
    its manifest directory, then the agent's script that declares the same
    name. *)
Lemma second_override_not_flagged_witness :
  let twice :=
    register_skill
      (register_skill (register_skill (new_registry "finn") file_operations)
                      finn_file_operations)
      finn_file_ops_script in
  (exists stored,
      get_skill twice "file-operations" = Some stored
      /\ stored = finn_file_ops_script
      /\ is_core stored = false /\ overrides_core stored = false)
  /\ _core_skills twice !! "file-operations" = Some file_operations.
Proof.
  exact (proj2 (second_override_not_flagged
                  (register_skill (new_registry "finn") file_operations)
                  file_operations finn_file_operations finn_file_ops_script
                  "file-operations"
                  (reach_register _ _ (reach_new "finn"))
                  eq_refl eq_refl eq_refl eq_refl eq_refl eq_refl eq_refl)).
Defined.

End SkillRegistry.

(** ** The memory manager *)

Section MemoryManager.
Import Memory.
Context {vec : Type}.
Variable sha256_hexdigest : string -> string.
Variable embedding_api : string -> string -> option vec.
Variable zero_vector : nat -> vec.
Variable vector_search :
  vec -> Z -> list (@MemoryRecord vec) -> outcome (list (@MemoryRecord vec * pyval)).

Abbreviation MM := (@MemoryManager vec).

(** Logging touches the log file and the log's table, not the facts. *)
Lemma append_log_keeps_facts (mm : MM) now entry_type content metadata :
  user_facts <$> db (snd (append_log sha256_hexdigest mm now entry_type content metadata))
  = user_facts <$> db mm.
Proof.
  unfold append_log, _store_log_metadata. cbv zeta.
  destruct (files_writable mm); cbn [negb snd]; [| reflexivity].
  cbn [db with_log_file].
  destruct (db mm) as [d|] eqn:Hd; cbn [snd db with_log_file]; [| now rewrite Hd].
  destruct (_check_compaction_needed _); reflexivity.
Qed.

Lemma filter_key_kept (k : string) (rows : list FactRow) :
  filter (fun r => key r = k) (filter (fun r => key r ≠ k) rows) = [].
Proof.
  induction rows as [|r rows IH]; [reflexivity |].
  rewrite (filter_cons (fun r => key r ≠ k)). case_decide as Hk; [| exact IH].
  rewrite filter_cons. case_decide; [contradiction | exact IH].
Qed.

Lemma dict_get_set_eq {V} (k : string) (v : V) d : Py.dict_get k (Py.dict_set k v d) = Some v.
Proof.
  induction d as [|[k' v'] d IH]; cbn.
  - now rewrite String.eqb_refl.
  - destruct (String.eqb k k') eqn:E; cbn; now rewrite E.
Qed.

Lemma dict_of_rows_last {V} (k : string) (v : V) rows :
  Py.dict_get k (Py.dict_of_rows (rows ++ [(k, v)])) = Some v.
Proof.
  unfold Py.dict_of_rows. rewrite fold_left_app. cbn. apply dict_get_set_eq.
Qed.

(** C6. After a [save_fact(key, value, category)] that returned true,
    [get_fact(key)] is [value] and [get_all_facts()] maps [key] to [value],
    whatever the facts held before. *)
Theorem save_fact_round_trip (mm mm' : MM) (now : Clock) (k v c : string) :
  save_fact sha256_hexdigest mm now k v c = (true, mm') ->
  get_fact mm' k = Some v
  /\ Py.dict_get k (get_all_facts mm' None) = Some v.
Proof.
  unfold save_fact. destruct (db mm) as [d|] eqn:Hd; [| discriminate].
  intros [= <-].
  pose proof (append_log_keeps_facts (with_db mm (Some (insert_or_replace_fact d now k v c)))
                now "SYSTEM"
                ("Saved fact: " +:+ k +:+ " = " +:+ v +:+ " (category: " +:+ c +:+ ")")
                None) as Hfacts.
  unfold get_fact, get_all_facts.
  destruct (db (snd (append_log _ _ _ _ _ _))) as [d'|]; [| discriminate].
  cbn in Hfacts. injection Hfacts as ->. split.
  - rewrite filter_app, filter_key_kept. cbn.
    now rewrite decide_True by reflexivity.
  - rewrite map_app. cbn. apply dict_of_rows_last.
Qed.

(** C7. With [lance_db] at [None], [store_memory] answers false and leaves
    the manager as it was, and [recall_memory] answers the empty list; both
    are plain values, no exception is involved. *)
Theorem cold_tier_unavailable (mm : MM) (now : Clock) (content query : string)
        (metadata : option (list (string * pyval))) (n_results : Z) :
  lance_db mm = None ->
  store_memory embedding_api zero_vector mm now content metadata = (false, mm)
  /\ recall_memory embedding_api zero_vector vector_search mm query n_results = [].
Proof.
  intros H. unfold store_memory, recall_memory. now rewrite H.
Qed.

End MemoryManager.

(** A fact saved twice on a new disk: the newer value is the one read back. *)
Lemma save_fact_round_trip_witness :
  let mm1 := snd (Memory.save_fact no_digest fresh_memory sample_clock
                                   "api_key" "OLD_00000" "general") in
  let mm2 := snd (Memory.save_fact no_digest mm1 sample_clock
                                   "api_key" "SECRET_12345" "config") in
  Memory.get_fact mm2 "api_key" = Some "SECRET_12345"
  /\ Py.dict_get "api_key" (Memory.get_all_facts mm2 None) = Some "SECRET_12345".
Proof.
  exact (save_fact_round_trip no_digest
           (snd (Memory.save_fact no_digest fresh_memory sample_clock
                                  "api_key" "OLD_00000" "general"))
           _ sample_clock "api_key" "SECRET_12345" "config" eq_refl).
Defined.

(** The manager on a new disk has no vector store. *)
Lemma cold_tier_unavailable_witness :
  Memory.store_memory (fun _ _ => None) (fun _ => tt) fresh_memory sample_clock
                      "remember this" None
  = (false, fresh_memory)
  /\ Memory.recall_memory (fun _ _ => None) (fun _ => tt) (fun _ _ _ => Return [])
                          fresh_memory "archived_log" 3
     = [].
Proof.
  exact (cold_tier_unavailable (fun _ _ => None) (fun _ => tt) (fun _ _ _ => Return [])
           fresh_memory sample_clock "remember this" "archived_log" None 3 eq_refl).
Defined.

(** ** The prompt context *)

Section PromptContext.
Import Memory.
Context {vec : Type}.

Lemma contains_prefix (p post : string) : PyStr.contains p (p +:+ post) = true.
Proof. apply contains_iff. now exists EmptyString, post. Qed.

Lemma contains_append_l (p a b : string) :
  PyStr.contains p a = true -> PyStr.contains p (a +:+ b) = true.
Proof.
  rewrite !contains_iff. intros [pre [post ->]].
  exists pre, (post +:+ b). now rewrite !append_assoc.
Qed.

Lemma contains_append_r (p a b : string) :
  PyStr.contains p b = true -> PyStr.contains p (a +:+ b) = true.
Proof.
  rewrite !contains_iff. intros [pre [post ->]].
  exists (a +:+ pre), post. now rewrite !append_assoc.
Qed.

(** The JSON text of the facts is [{}] for the empty dict only. *)
Lemma facts_json_empty (facts : list (string * string)) :
  String.eqb (Json.dumps_indent2 (PDict (map (fun kv => (fst kv, PStr (snd kv))) facts))) "{}"
  = match facts with [] => true | _ => false end.
Proof. destruct facts as [|[k v] facts]; reflexivity. Qed.

(** [read_log(n)] is the end of what [read_log()] returns. *)
Lemma read_log_suffix (mm : @MemoryManager vec) (n : Z) :
  exists before, read_log mm None = before +:+ read_log mm (Some n).
Proof.
  unfold read_log. destruct (log_file mm) as [on_disk|]; [| now exists EmptyString].
  cbv zeta. destruct (n =? 0)%Z; [now exists EmptyString |].
  assert (Hsep : separator <> EmptyString) by discriminate.
  unfold tail_slice.
  destruct (- n <? 0)%Z;
    match goal with |- context [List.skipn ?k ?l] =>
      destruct (join_skipn separator l k) as [before Hb] end;
    exists before; now rewrite <- Hb, join_split.
Qed.

(** C10, as amended. The prompt context is made of headed sections, in this
    order: the heading of the current mental state and its second line, then
    what [read_now()] returns, which is the text of NOW.md; the heading of
    the recent activity log, then [read_log(20)], which is the end of the
    text of LOG.md; and, only when the facts store is not empty, the heading
    of the known facts, then the facts as indented JSON. When the store is
    empty the text stops after the log section. *)
Theorem prompt_context_sections (mm : @MemoryManager vec) :
  exists facts_section,
    format_context_for_prompt mm
    = now_heading +:+ PyStr.nl +:+ now_intro +:+ PyStr.nl
      +:+ read_now mm +:+ PyStr.nl +:+ PyStr.nl
      +:+ log_heading +:+ PyStr.nl
      +:+ read_log mm (Some 20) +:+ PyStr.nl +:+ PyStr.nl
      +:+ facts_section
    /\ (get_all_facts mm None = [] -> facts_section = EmptyString)
    /\ (get_all_facts mm None <> [] ->
        facts_section
        = facts_heading +:+ PyStr.nl +:+ known_facts_json mm +:+ PyStr.nl +:+ PyStr.nl)
    /\ (forall on_disk, now_file mm = Some on_disk -> read_now mm = read_text on_disk)
    /\ (exists before, read_log mm None = before +:+ read_log mm (Some 20)).
Proof.
  exists (match get_all_facts mm None with
          | [] => EmptyString
          | _ => facts_heading +:+ PyStr.nl +:+ known_facts_json mm +:+ PyStr.nl +:+ PyStr.nl
          end).
  split; [| split; [| split; [| split]]].
  - unfold format_context_for_prompt, read_context, known_facts_json.
    cbn [ctx_now ctx_log ctx_facts]. rewrite facts_json_empty.
    unfold now_header, log_header, facts_header, now_heading, log_heading, facts_heading,
      now_intro.
    destruct (get_all_facts mm None) as [|kv facts]; cbn [negb]; rewrite !append_assoc;
      [now rewrite append_empty_r | reflexivity].
  - now intros ->.
  - intros Hne. destruct (get_all_facts mm None); [contradiction | reflexivity].
  - intros on_disk Hnow. unfold read_now. now rewrite Hnow.
  - apply read_log_suffix.
Qed.

End PromptContext.

(** On a new disk, with no fact, the context is the two sections that quote
    the two files; with one fact saved it ends with the facts section. *)
Lemma prompt_context_sections_witness :
  Memory.format_context_for_prompt fresh_memory
  = now_heading +:+ PyStr.nl +:+ now_intro +:+ PyStr.nl
    +:+ Memory.initial_now +:+ PyStr.nl +:+ PyStr.nl
    +:+ log_heading +:+ PyStr.nl
    +:+ Memory.initial_log "finn" sample_clock +:+ PyStr.nl +:+ PyStr.nl
  /\ PyStr.endswith
       (facts_heading +:+ PyStr.nl
        +:+ "{" +:+ PyStr.nl +:+ "  " +:+ String Py.dquote "user_name" +:+ String Py.dquote ": "
        +:+ String Py.dquote "Test User" +:+ String Py.dquote EmptyString +:+ PyStr.nl +:+ "}"
        +:+ PyStr.nl +:+ PyStr.nl)
       (Memory.format_context_for_prompt
          (snd (Memory.save_fact no_digest fresh_memory sample_clock
                                 "user_name" "Test User" "personal"))) = true.
Proof.
  split.
  - destruct (prompt_context_sections fresh_memory) as [facts_section [Heq [Hempty _]]].
    rewrite Heq, (Hempty eq_refl). vm_compute. reflexivity.
  - destruct (prompt_context_sections
                (snd (Memory.save_fact no_digest fresh_memory sample_clock
                                       "user_name" "Test User" "personal")))
      as [facts_section [Heq [_ [Hfacts _]]]].
    rewrite Heq, (Hfacts ltac:(vm_compute; discriminate)). vm_compute. reflexivity.
Defined.

(** C10, counterexample. On a new disk, where no fact is stored, the prompt
    context has no section of known facts. *)
Lemma facts_section_missing :
  ~ forall mm : @Memory.MemoryManager unit,
      has_three_sections (Memory.format_context_for_prompt mm).
Proof.
  intros H. destruct (H fresh_memory) as [_ [_ Hfacts]].
  vm_compute in Hfacts. discriminate.
Qed.

(** * Further properties of the code *)

(** ** Loading the base URL *)

Section BaseUrl.

Lemma rstrip_keeps chars s c :
  last_char s = Some c -> PyStr.mem c chars = false -> PyStr.rstrip chars s = s.
Proof.
  induction s as [|a rest IH]; [discriminate |]. intros Hlast Hmem.
  cbn [PyStr.rstrip]. destruct rest as [|b rest'].
  - cbn in Hlast. injection Hlast as ->. cbn. now rewrite Hmem.
  - rewrite (IH Hlast Hmem). reflexivity.
Qed.

Lemma rstrip_prefix chars s : exists t, s = PyStr.rstrip chars s +:+ t.
Proof.
  induction s as [|a rest [t IH]]; [now exists EmptyString |].
  cbn [PyStr.rstrip]. destruct (PyStr.is_empty _ && PyStr.mem a chars).
  - now exists (String a rest).
  - exists t. cbn. now rewrite <- IH.
Qed.

Lemma rstrip_last chars s c :
  last_char (PyStr.rstrip chars s) = Some c -> PyStr.mem c chars = false.
Proof.
  induction s as [|a rest IH]; [discriminate |]. cbn [PyStr.rstrip].
  destruct (PyStr.rstrip chars rest) as [|b r] eqn:Hr; cbn [PyStr.is_empty andb].
  - destruct (PyStr.mem a chars) eqn:Ha; [discriminate |]. cbn. now intros [= <-].
  - intros H. apply IH. exact H.
Qed.

Lemma mem_sub c :
  PyStr.mem c "/v1api" = false ->
  PyStr.mem c "/" = false /\ PyStr.mem c "/v1" = false /\ PyStr.mem c "/api" = false.
Proof.
  cbn. destruct (Ascii.eqb c "/"), (Ascii.eqb c "v"), (Ascii.eqb c "1"),
    (Ascii.eqb c "a"), (Ascii.eqb c "p"), (Ascii.eqb c "i"); try discriminate; auto.
Qed.

(** X1. A base URL whose last character is none of [/], [v], [1], [a], [p],
    [i] goes through the sanitising line of [from_env] unchanged. *)
Theorem sanitize_url_unchanged (url : string) (c : ascii) :
  last_char url = Some c -> PyStr.mem c "/v1api" = false ->
  Config.sanitize_url url = url.
Proof.
  intros Hlast Hmem. destruct (mem_sub c Hmem) as [H1 [H2 H3]].
  unfold Config.sanitize_url.
  now rewrite (rstrip_keeps "/" url c), (rstrip_keeps "/v1" url c),
    (rstrip_keeps "/api" url c), (rstrip_keeps "/" url c).
Qed.

Lemma sanitize_url_unchanged_witness :
  Config.sanitize_url "http://192.168.4.102:11434" = "http://192.168.4.102:11434".
Proof.
  exact (sanitize_url_unchanged "http://192.168.4.102:11434" "4" eq_refl eq_refl).
Defined.

(** X2. Whatever the configured URL, the sanitised URL is a prefix of it
    and does not end in [/], [a], [p] or [i]. *)
Theorem sanitize_url_shape (url : string) :
  (exists dropped, url = Config.sanitize_url url +:+ dropped)
  /\ forall c, last_char (Config.sanitize_url url) = Some c -> PyStr.mem c "/api" = false.
Proof.
  unfold Config.sanitize_url. split.
  - destruct (rstrip_prefix "/" url) as [t1 H1].
    destruct (rstrip_prefix "/v1" (PyStr.rstrip "/" url)) as [t2 H2].
    destruct (rstrip_prefix "/api" (PyStr.rstrip "/v1" (PyStr.rstrip "/" url))) as [t3 H3].
    destruct (rstrip_prefix "/"
                (PyStr.rstrip "/api" (PyStr.rstrip "/v1" (PyStr.rstrip "/" url)))) as [t4 H4].
    exists (t4 +:+ t3 +:+ t2 +:+ t1).
    rewrite <- !append_assoc, <- H4, <- H3, <- H2. exact H1.
  - intros c Hc.
    destruct (rstrip_prefix "/"
                (PyStr.rstrip "/api" (PyStr.rstrip "/v1" (PyStr.rstrip "/" url)))) as [t Ht].
    set (r3 := PyStr.rstrip "/api" (PyStr.rstrip "/v1" (PyStr.rstrip "/" url))) in *.
    destruct (last_char r3) as [d|] eqn:Hd.
    + pose proof (rstrip_last _ _ _ Hd) as Hmem.
      assert (Hslash : PyStr.mem d "/" = false).
      { cbn in Hmem |- *. destruct (Ascii.eqb d "/"); [discriminate | reflexivity]. }
      rewrite (rstrip_keeps "/" r3 d Hd Hslash) in Hc. rewrite Hd in Hc.
      now injection Hc as <-.
    + destruct r3 as [|x r]; [discriminate Hc |].
      exfalso. clear -Hd. revert x Hd. induction r as [|y r IH]; intros x Hd.
      * discriminate.
      * apply (IH y). exact Hd.
Qed.

Lemma sanitize_url_shape_witness : PyStr.mem "4" "/api" = false.
Proof. exact (proj2 (sanitize_url_shape "http://localhost:11434/api/") "4"%char eq_refl). Defined.

End BaseUrl.

(** ** Loading and validating the configuration *)

Section LoadConfig.
Import Config.

Lemma str_in_elem s l : str_in s l = true <-> s ∈ l.
Proof.
  unfold str_in. rewrite existsb_exists. split.
  - intros [x [Hin Heq]]. apply String.eqb_eq in Heq as ->. now apply list_elem_of_In.
  - intros H. exists s. split; [now apply list_elem_of_In | apply String.eqb_refl].
Qed.

Lemma _validate_spec c :
  match _validate c with
  | Return _ => valid_config c
  | Raise e => exn_kind e = ValueError
  end.
Proof.
  unfold _validate, valid_config.
  destruct (str_in (LLM_PROVIDER c) _) eqn:Hp; cbn [negb]; [| reflexivity].
  apply str_in_elem in Hp.
  destruct (String.eqb (LLM_PROVIDER c) "ollama") eqn:Ho; cbn [andb].
  - apply String.eqb_eq in Ho.
    destruct (PyStr.is_empty _); [reflexivity |].
    destruct (PyStr.startswith "http" _) eqn:Hs; cbn [negb]; [| reflexivity].
    destruct (String.eqb (LLM_PROVIDER c) "google") eqn:Hg; cbn [andb].
    { apply String.eqb_eq in Hg. rewrite Ho in Hg. discriminate. }
    split; [exact Hp | split; [auto |]]. intros Hg'. rewrite Ho in Hg'. discriminate.
  - apply String.eqb_neq in Ho.
    destruct (String.eqb (LLM_PROVIDER c) "google") eqn:Hg; cbn [andb].
    + destruct (GOOGLE_API_KEY c) as [k|]; [| reflexivity].
      destruct k as [|x k]; cbn; [reflexivity |].
      split; [exact Hp | split; [contradiction |]]. intros _. now eexists.
    + apply String.eqb_neq in Hg. split; [exact Hp | split; contradiction].
Qed.

(** X3. [from_env] either raises a [ValueError] or returns a configuration
    that [_validate] accepts: the provider is one of [ollama], [mock],
    [google]; with [ollama] the base URL starts with [http]; with [google]
    an API key is there and not empty. *)
Theorem from_env_valid (env : gmap string string) :
  match from_env env with
  | Return cfg => valid_config cfg
  | Raise e => exn_kind e = ValueError
  end.
Proof.
  unfold from_env.
  destruct (if String.eqb _ "ollama" then _ else _) as [[reasoning parser] tool].
  match goal with |- context [_validate ?c] => pose proof (_validate_spec c) as H;
    destruct (_validate c) as [[]|e] end; exact H.
Qed.

Lemma from_env_provider env cfg :
  from_env env = Return cfg ->
  LLM_PROVIDER cfg = PyStr.lower (getenv env "LLM_PROVIDER" "ollama").
Proof.
  unfold from_env.
  destruct (if String.eqb _ "ollama" then _ else _) as [[reasoning parser] tool].
  match goal with |- context [_validate ?c] => destruct (_validate c) as [[]|e] end;
    [| discriminate].
  cbn. now intros [= <-].
Qed.

(** X4. [from_env] lower-cases the provider and defaults it to [ollama];
    [get_llm] reads the variable as it is and defaults it to the mock. So
    when the variable is unset, or spells [ollama] with a capital, the
    loaded configuration says [ollama] while every [generate] call is
    answered by the mock LLM and the backend is not contacted. *)
Theorem provider_defaults_disagree (env : gmap string string) (cfg : AgentOSConfig) :
  env !! "LLM_PROVIDER" <> Some "ollama" ->
  PyStr.lower (getenv env "LLM_PROVIDER" "ollama") = "ollama" ->
  from_env env = Return cfg ->
  LLM_PROVIDER cfg = "ollama"
  /\ forall backend role system_prompt user_prompt,
      LLM.generate env cfg backend role system_prompt user_prompt
      = LLM.mock_generate system_prompt user_prompt.
Proof.
  intros Hne Hlow Hload. split.
  - now rewrite (from_env_provider env cfg Hload).
  - intros backend role sp up. unfold LLM.generate, getenv.
    destruct (env !! "LLM_PROVIDER") as [p|] eqn:Hp; cbn [default from_option id].
    + destruct (String.eqb p "ollama") eqn:E; [| reflexivity].
      apply String.eqb_eq in E. subst p. contradiction.
    + reflexivity.
Qed.

Lemma provider_defaults_disagree_witness :
  (exists cfg, from_env ∅ = Return cfg /\ LLM_PROVIDER cfg = "ollama")
  /\ (exists cfg, from_env env_capitals = Return cfg /\ LLM_PROVIDER cfg = "ollama"
                  /\ LLM.generate env_capitals cfg (fun _ _ _ => "from the backend")
                                  "Actor" Actor.system_prompt "Say hello"
                     = "Mock response").
Proof.
  split.
  - eexists. split; [vm_compute; reflexivity |].
    eapply (provider_defaults_disagree ∅); [discriminate | reflexivity | vm_compute; reflexivity].
  - eexists. split; [vm_compute; reflexivity |].
    edestruct (provider_defaults_disagree env_capitals) as [H1 H2];
      [discriminate | reflexivity | vm_compute; reflexivity |].
    split; [exact H1 | rewrite H2; reflexivity].
Defined.

End LoadConfig.

(** ** The audit strategies *)

Section Strategies.
Import AuditStrategies.

(** X5. Every result of the four strategies has severity INFO when it
    passed and ERROR when it did not; none has severity WARNING. *)
Theorem strategies_severity (fs : FileSystem) (path substring : pyval) (output : string)
        (r : AuditResult) :
  verify_file_exists fs path = Return r
  \/ verify_file_content_contains fs path substring = Return r
  \/ verify_file_does_not_exist fs path = Return r
  \/ verify_tool_output_success output = r ->
  severity r = if passed r then INFO else ERROR.
Proof.
  unfold verify_file_exists, verify_file_content_contains, verify_file_does_not_exist,
    verify_tool_output_success.
  intros [H | [H | [H | H]]].
  - destruct (to_path path) as [p|]; cbn in H; [| discriminate].
    injection H as <-. destruct (fs p); reflexivity.
  - destruct (to_path path) as [p|]; cbn in H; [| discriminate].
    injection H as <-. destruct (fs p) as [[content|err]|]; try reflexivity.
    destruct substring; try reflexivity. destruct (PyStr.contains _ _); reflexivity.
  - destruct (to_path path) as [p|]; cbn in H; [| discriminate].
    injection H as <-. destruct (fs p); reflexivity.
  - subst r. destruct (_ || _); reflexivity.
Qed.

Lemma strategies_severity_witness :
  severity (MkAudit false "File 'missing.txt' NOT found." ERROR) = ERROR.
Proof.
  exact (strategies_severity disk_with_notes (PStr "missing.txt") PNone EmptyString
           (MkAudit false "File 'missing.txt' NOT found." ERROR) (or_introl eq_refl)).
Defined.

(** X6. On the same disk and path the three file strategies agree. They
    raise together, with the same exception: a [TypeError] for a value that
    is no path, an [OverflowError] for an integer that fits no file
    descriptor. When they return, [verify_file_does_not_exist] passes
    exactly when [verify_file_exists] fails, and when
    [verify_file_content_contains] passes, [verify_file_exists] passes
    too. *)
Theorem file_strategies_agree (fs : FileSystem) (path substring : pyval) :
  match verify_file_exists fs path, verify_file_does_not_exist fs path,
        verify_file_content_contains fs path substring with
  | Return r1, Return r2, Return r3 =>
      passed r2 = negb (passed r1) /\ (passed r3 = true -> passed r1 = true)
  | Raise e1, Raise e2, Raise e3 =>
      e1 = e2 /\ e2 = e3 /\ (exn_kind e1 = TypeError \/ exn_kind e1 = OverflowError)
  | _, _, _ => False
  end.
Proof.
  unfold verify_file_exists, verify_file_content_contains, verify_file_does_not_exist.
  destruct (to_path path) as [p|e] eqn:Hp; cbn.
  - destruct (fs p) as [[content|err]|]; cbn; split; auto.
  - split; [reflexivity |]. split; [reflexivity |]. now apply (to_path_raises path).
Qed.

(** X7. [verify_file_content_contains] passes exactly when the path holds
    a readable file, the substring is a string, and the file's content is
    some text, then the substring, then some text. *)
Theorem content_check_passes_iff (fs : FileSystem) (path substring : pyval)
        (r : AuditResult) :
  verify_file_content_contains fs path substring = Return r ->
  (passed r = true <->
   exists p content sub before after,
     to_path path = Return p /\ fs p = Some (RegularFile content)
     /\ substring = PStr sub /\ content = before +:+ sub +:+ after).
Proof.
  unfold verify_file_content_contains.
  destruct (to_path path) as [p|] eqn:Hp; cbn; [| discriminate].
  intros [= <-]. split.
  - destruct (fs p) as [[content|err]|] eqn:Hfs; try discriminate.
    destruct substring as [| | | |sub| |]; try discriminate.
    destruct (PyStr.contains sub content) eqn:Hc; [| discriminate].
    intros _. apply contains_iff in Hc as [before [after ->]].
    now exists p, (before +:+ sub +:+ after), sub, before, after.
  - intros [p' [content [sub [before [after [[= <-] [Hfs [-> ->]]]]]]]].
    rewrite Hfs, contains_middle. reflexivity.
Qed.

Lemma content_check_passes_iff_witness :
  passed (MkAudit true "File 'notes.txt' contains expected text." INFO) = true <->
  exists p content sub before after,
    to_path (PStr "notes.txt") = Return p /\ disk_with_notes p = Some (RegularFile content)
    /\ PStr "lo wo" = PStr sub /\ content = before +:+ sub +:+ after.
Proof.
  exact (content_check_passes_iff disk_with_notes (PStr "notes.txt") (PStr "lo wo")
           (MkAudit true "File 'notes.txt' contains expected text." INFO) eq_refl).
Defined.

End Strategies.

(** ** The registry's indices *)

Section RegistryIndices.
Import Registry.

Lemma listed_index_add key n idx key' m :
  m ∈ listed (index_add key n idx) key' <-> m ∈ listed idx key' \/ (key' = key /\ m = n).
Proof.
  unfold listed, index_add.
  destruct (decide (key = key')) as [<- | Hne].
  - case_bool_decide as Hin; rewrite lookup_insert_eq; cbn.
    + split; [auto |]. intros [H | [_ ->]]; [exact H | exact Hin].
    + rewrite elem_of_app, list_elem_of_singleton. tauto.
  - case_bool_decide as Hd; rewrite lookup_insert_ne by exact Hne; split; auto;
      intros [H | [-> _]]; [exact H | contradiction | exact H | contradiction].
Qed.

Lemma register_skill_indices r skill :
  _skills_by_agent (register_skill r skill)
  = index_add (agent skill) (name skill) (_skills_by_agent r)
  /\ _skills_by_category (register_skill r skill)
     = index_add (category skill) (name skill) (_skills_by_category r).
Proof.
  unfold register_skill.
  destruct (_skills r !! name skill) as [existing|]; [| auto].
  destruct (is_core existing && negb (is_core skill)); auto.
Qed.

(** X8. After [register_skill(skill)], [get_skill(skill.name)] is the skill,
    up to the flag [overrides_core], [has_skill(skill.name)] is true, and
    every other name is looked up as before. *)
Theorem register_get_round_trip (r : SkillRegistry) (skill : Skill) :
  (exists stored,
      get_skill (register_skill r skill) (name skill) = Some stored
      /\ (stored = skill \/ stored = set_overrides_core skill))
  /\ has_skill (register_skill r skill) (name skill) = true
  /\ forall n, n <> name skill ->
        get_skill (register_skill r skill) n = get_skill r n
        /\ has_skill (register_skill r skill) n = has_skill r n.
Proof.
  destruct (register_skill_stored r skill) as [stored [Hst [Hs _]]].
  unfold get_skill, has_skill. rewrite Hs. split; [| split].
  - exists stored. now rewrite lookup_insert_eq.
  - rewrite lookup_insert_eq. apply bool_decide_eq_true_2. eauto.
  - intros n Hn. now rewrite lookup_insert_ne by auto.
Qed.

Lemma register_get_round_trip_witness :
  get_skill (register_skill finn_registry upsert_asset) "file-operations"
  = get_skill finn_registry "file-operations".
Proof.
  exact (proj1 (proj2 (proj2 (register_get_round_trip finn_registry upsert_asset))
                  "file-operations" ltac:(discriminate))).
Defined.

(** What every registry built by registrations satisfies. *)
Lemma registry_invariant r :
  reachable r ->
  (forall n s, _skills r !! n = Some s ->
     name s = n /\ n ∈ listed (_skills_by_agent r) (agent s)
     /\ n ∈ listed (_skills_by_category r) (category s))
  /\ (forall key n, n ∈ listed (_skills_by_agent r) key -> is_Some (_skills r !! n))
  /\ (forall key n, n ∈ listed (_skills_by_category r) key -> is_Some (_skills r !! n))
  /\ (forall n c, _core_skills r !! n = Some c -> is_core c = true /\ name c = n).
Proof.
  induction 1 as [a | r skill Hr [IH1 [IH2 [IH3 IH4]]]].
  - cbn. unfold listed. split; [| split; [| split]]; intros *; rewrite lookup_empty; cbn;
      try discriminate; intros H; now apply elem_of_nil in H.
  - destruct (register_skill_stored r skill) as [stored [Hst [Hs Hcs]]].
    destruct (register_skill_indices r skill) as [Ha Hc].
    assert (Hsame : name stored = name skill /\ agent stored = agent skill
                    /\ category stored = category skill /\ is_core stored = is_core skill)
      by (destruct Hst as [-> | ->]; auto).
    destruct Hsame as [Hn [Hag [Hcat Hcore]]].
    rewrite Hs, Ha, Hc, Hcs. split; [| split; [| split]].
    + intros n s H. destruct (decide (name skill = n)) as [<- | Hne].
      * rewrite lookup_insert_eq in H. injection H as <-.
        split; [exact Hn |]. split; apply listed_index_add; right; auto.
      * rewrite lookup_insert_ne in H by exact Hne. apply IH1 in H as [H1 [H2 H3]].
        split; [exact H1 |]. split; apply listed_index_add; left; assumption.
    + intros key n H. apply listed_index_add in H as [H | [_ ->]].
      * destruct (decide (name skill = n)) as [<- | Hne];
          [rewrite lookup_insert_eq; eauto | rewrite lookup_insert_ne by exact Hne; eauto].
      * rewrite lookup_insert_eq. eauto.
    + intros key n H. apply listed_index_add in H as [H | [_ ->]].
      * destruct (decide (name skill = n)) as [<- | Hne];
          [rewrite lookup_insert_eq; eauto | rewrite lookup_insert_ne by exact Hne; eauto].
      * rewrite lookup_insert_eq. eauto.
    + intros n c H. destruct (is_core skill) eqn:Hk; [| now apply IH4 in H].
      destruct (decide (name skill = n)) as [<- | Hne].
      * rewrite lookup_insert_eq in H. injection H as <-. split; congruence.
      * rewrite lookup_insert_ne in H by exact Hne. now apply IH4 in H.
Qed.

Lemma lookup_all_total skills names :
  (forall n, n ∈ names -> is_Some (skills !! n)) ->
  exists found, lookup_all skills names = Return found
                /\ List.length found = List.length names.
Proof.
  induction names as [|n names IH]; intros H; [now exists [] |].
  destruct (H n) as [s Hs]; [apply list_elem_of_here |].
  destruct IH as [found [Hf Hl]]; [intros m Hm; apply H; now apply list_elem_of_further |].
  exists (s :: found). cbn. rewrite Hs, Hf. cbn. now rewrite Hl.
Qed.

(** X9. In every registry built by registrations the three indices agree:
    a skill registered under a name carries that name and is listed under
    its agent and under its category, and the lists name registered skills
    only, so [get_skills_by_agent] and [get_skills_by_category] return a
    skill for each listed name and never raise. *)
Theorem indices_consistent (r : SkillRegistry) :
  reachable r ->
  (forall n s, get_skill r n = Some s ->
     name s = n /\ n ∈ listed (_skills_by_agent r) (agent s)
     /\ n ∈ listed (_skills_by_category r) (category s))
  /\ (forall a, exists found,
        get_skills_by_agent r a = Return found
        /\ List.length found = List.length (listed (_skills_by_agent r) a))
  /\ (forall c, exists found,
        get_skills_by_category r c = Return found
        /\ List.length found = List.length (listed (_skills_by_category r) c)).
Proof.
  intros Hr. destruct (registry_invariant r Hr) as [H1 [H2 [H3 _]]].
  split; [exact H1 |]. split.
  - intros a. apply lookup_all_total. intros n. apply H2.
  - intros c. apply lookup_all_total. intros n. apply H3.
Qed.

Lemma indices_consistent_witness :
  exists found, get_skills_by_agent finn_registry "finn" = Return found
                /\ List.length found = 2%nat.
Proof.
  exact (proj1 (proj2 (indices_consistent finn_registry
           (reach_register _ _ (reach_register _ _ (reach_register _ _ (reach_new "finn"))))))
           "finn").
Defined.

End RegistryIndices.

(** ** Overrides and execution *)

Section RegistryUse.
Import Registry.

Lemma loaded_reachable r : loaded r -> reachable r.
Proof. induction 1; constructor; assumption. Qed.

(** X10. In a registry filled by the loaders, a skill that carries
    [overrides_core] is not a core skill, and the core index holds a core
    skill of the same name; and every entry of the core index is a core
    skill filed under its own name. *)
Theorem override_bookkeeping (r : SkillRegistry) :
  loaded r ->
  (forall n s, get_skill r n = Some s -> overrides_core s = true ->
     is_core s = false
     /\ exists c, _core_skills r !! n = Some c /\ is_core c = true /\ name c = n)
  /\ (forall n c, _core_skills r !! n = Some c -> is_core c = true /\ name c = n).
Proof.
  intros Hl. split; [| apply registry_invariant, loaded_reachable, Hl].
  unfold get_skill.
  induction Hl as [a | r skill Hl IH Hflag]; intros n s Hn Ho.
  - cbn in Hn. now rewrite lookup_empty in Hn.
  - pose proof (loaded_reachable r Hl) as Hr.
    destruct (registry_invariant r Hr) as [_ [_ [_ Hcore]]].
    unfold register_skill in *.
    destruct (_skills r !! name skill) as [existing|] eqn:He.
    + destruct (is_core existing && negb (is_core skill)) eqn:Hb.
      * apply andb_true_iff in Hb as [Hec Hsc]. apply negb_true_iff in Hsc.
        cbn [is_core name set_overrides_core _skills _core_skills] in *. rewrite Hsc.
        destruct (decide (name skill = n)) as [<- | Hne].
        -- rewrite lookup_insert_eq in Hn. injection Hn as <-. split; [exact Hsc |].
           pose proof (core_skills_indexed r Hr _ _ He Hec) as Hidx.
           exists existing. split; [exact Hidx |]. now apply Hcore.
        -- rewrite lookup_insert_ne in Hn by exact Hne. now apply IH.
      * cbn [_skills _core_skills] in *.
        destruct (decide (name skill = n)) as [<- | Hne].
        -- rewrite lookup_insert_eq in Hn. injection Hn as <-. congruence.
        -- rewrite lookup_insert_ne in Hn by exact Hne.
           destruct (IH n s Hn Ho) as [H1 [c [H2 H3]]]. split; [exact H1 |].
           exists c. split; [| exact H3].
           destruct (is_core skill); [now rewrite lookup_insert_ne by exact Hne | exact H2].
    + cbn [_skills _core_skills] in *.
      destruct (decide (name skill = n)) as [<- | Hne].
      * rewrite lookup_insert_eq in Hn. injection Hn as <-. congruence.
      * rewrite lookup_insert_ne in Hn by exact Hne.
        destruct (IH n s Hn Ho) as [H1 [c [H2 H3]]]. split; [exact H1 |].
        exists c. split; [| exact H3].
        destruct (is_core skill); [now rewrite lookup_insert_ne by exact Hne | exact H2].
Qed.

Lemma override_bookkeeping_witness :
  exists c, _core_skills finn_registry !! "file-operations" = Some c
            /\ is_core c = true /\ name c = "file-operations".
Proof.
  exact (proj2 (proj1 (override_bookkeeping finn_registry
           (loaded_register _ upsert_asset
              (loaded_register _ finn_file_operations
                 (loaded_register _ file_operations (loaded_new "finn") eq_refl) eq_refl)
              eq_refl))
           "file-operations" (set_overrides_core finn_file_operations) eq_refl eq_refl)).
Defined.



(** With the required [ticker] the hook runs; without it the call fails
    before the hook. *)
Example execute_upsert_asset :
  execute_skill finn_registry "db_upsert_asset" [("ticker", PStr "AAPL")] = Return (PStr "AAPL")
  /\ execute_skill finn_registry "db_upsert_asset" [("notes", PStr "hold")]
     = Raise (MkExn ValueError
                "Missing required parameter 'ticker' for skill 'db_upsert_asset'")
  /\ execute_skill finn_registry "db_delete_asset" []
     = Raise (MkExn ValueError "Skill 'db_delete_asset' not found in registry").
Proof. repeat split. Qed.

End RegistryUse.

(** ** More on the Actor and the Auditor *)

Section Nodes.
Import State.

(** X12. When the skill call of an Actor step returns, the step records
    [Skill executed: ...] with the rendering of the result under its key and
    moves the cursor by one; no code is requested from the LLM and nothing is
    passed to [exec]. *)
Theorem skill_success_skips_exec (w : World) (st : AgentState) (step : PlanStep)
        (agent : Agent.Agent) (skill_name : string) (v : pyval) :
  (get_index st < Z.of_nat (List.length (get_plan st)))%Z ->
  py_index (get_plan st) (get_index st) = Return step ->
  role step = Some "Actor" ->
  Actor.resolve_skill st (instruction step) = Some (agent, skill_name) ->
  Agent.execute_skill agent skill_name [] = Return v ->
  Actor.actor_node w st
  = ([SkillCalled skill_name], recorded st ("Skill executed: " +:+ Py.str v)).
Proof.
  intros Hlt Hstep Hrole Hres Hret.
  now rewrite (actor_node_enter w st step Hlt Hstep Hrole), Hres, Hret.
Qed.

Lemma skill_success_skips_exec_witness :
  Actor.actor_node sample_world (sample_state (Some working_agent) skill_plan 0)
  = ([SkillCalled "file-operations"],
     Return (MkUpdate (Some {[ "step_0" := "Skill executed: report written" ]}) (Some 1%Z))).
Proof.
  exact (skill_success_skips_exec sample_world (sample_state (Some working_agent) skill_plan 0)
           (MkStep (Some "Actor") "Use skill 'file-operations' to create a file notes.txt" None)
           working_agent "file-operations" (PStr "report written")
           eq_refl eq_refl eq_refl eq_refl eq_refl).
Defined.

Lemma resolve_skill_inv st instruction agent skill_name :
  Actor.resolve_skill st instruction = Some (agent, skill_name) ->
  agent_instance st = Some agent
  /\ Registry.has_skill (Agent.registry agent) skill_name = true.
Proof.
  unfold Actor.resolve_skill.
  destruct (agent_instance st) as [a|]; [| discriminate].
  destruct (Re.search _ _) as [[n|]|]; try discriminate.
  destruct (Registry.has_skill (Agent.registry a) n) eqn:Hh; [| discriminate].
  now intros [= <- <-].
Qed.

(** X13. Whatever the state, the Actor calls a skill only when an agent is
    attached to the state and that agent's registry has the skill; so its
    skill call never fails for an unknown name. *)
Theorem actor_calls_registered_skills_only (w : World) (st : AgentState)
        (skill_name : string) :
  SkillCalled skill_name ∈ fst (Actor.actor_node w st) ->
  exists agent,
    agent_instance st = Some agent
    /\ Registry.has_skill (Agent.registry agent) skill_name = true
    /\ is_Some (Registry.get_skill (Agent.registry agent) skill_name).
Proof.
  assert (Hno : forall idx instruction,
             SkillCalled skill_name ∉ fst (Actor.generate_and_execute w st idx instruction)).
  { intros idx instruction H. cbn in H.
    apply elem_of_cons in H as [H | H]; [discriminate |].
    apply elem_of_cons in H as [H | H]; [discriminate | now apply elem_of_nil in H]. }
  unfold Actor.actor_node.
  destruct (_ <=? _)%Z; [intros H; now apply elem_of_nil in H |].
  destruct (py_index _ _) as [step|e]; [| intros H; now apply elem_of_nil in H].
  destruct (negb _); [intros H; now apply elem_of_nil in H |].
  destruct (Actor.resolve_skill st (instruction step)) as [[agent n]|] eqn:Hres;
    [| intros H; now apply Hno in H].
  destruct (resolve_skill_inv _ _ _ _ Hres) as [Ha Hh].
  assert (Hfound : forall m, SkillCalled skill_name = SkillCalled m -> m = n ->
            exists agent0, agent_instance st = Some agent0
              /\ Registry.has_skill (Agent.registry agent0) skill_name = true
              /\ is_Some (Registry.get_skill (Agent.registry agent0) skill_name)).
  { intros m [= ->] ->. exists agent. split; [exact Ha |]. split; [exact Hh |].
    unfold Registry.has_skill in Hh. now apply bool_decide_eq_true_1 in Hh. }
  destruct (Agent.execute_skill agent n []) as [v|e]; cbn [fst].
  - intros H. apply list_elem_of_singleton in H. now apply (Hfound n).
  - destruct (is_exception e); cbn [fst]; intros H.
    + apply elem_of_cons in H as [H | H]; [now apply (Hfound n) | now apply Hno in H].
    + apply list_elem_of_singleton in H. now apply (Hfound n).
Qed.

Lemma actor_calls_registered_skills_only_witness :
  exists agent,
    agent_instance (sample_state (Some working_agent) skill_plan 0) = Some agent
    /\ Registry.has_skill (Agent.registry agent) "file-operations" = true
    /\ is_Some (Registry.get_skill (Agent.registry agent) "file-operations").
Proof.
  apply (actor_calls_registered_skills_only sample_world
           (sample_state (Some working_agent) skill_plan 0) "file-operations").
  vm_compute. apply list_elem_of_In. left. reflexivity.
Defined.

Lemma auditor_node_keeps_outputs (w : World) (st : AgentState) (u : Update) :
  snd (Auditor.auditor_node w st) = Return u ->
  get_tool_outputs (merge st u) = get_tool_outputs st.
Proof.
  unfold Auditor.auditor_node.
  destruct (_ <=? _)%Z; cbn [snd]; [now intros [= <-] |].
  destruct (py_index _ _) as [step|e]; cbn; [| discriminate].
  destruct (negb _); cbn [snd]; [now intros [= <-] |].
  destruct (Auditor.select_and_verify w _ _ _) as [r|e]; cbn [snd].
  - now intros [= <-].
  - destruct (is_exception e); [now intros [= <-] | discriminate].
Qed.

(** X14. On an Auditor step whose parser-model call raises an [Exception],
    or whose answer is JSON but not an object, no strategy runs and no audit
    result is produced, yet the cursor moves on by one; and whatever
    happens, the Auditor's update does not touch [tool_outputs]. *)
Theorem auditor_recovers (w : World) (st : AgentState) (step : PlanStep) :
  (get_index st < Z.of_nat (List.length (get_plan st)))%Z ->
  py_index (get_plan st) (get_index st) = Return step ->
  role step = Some "Auditor" ->
  (no_strategy (auditor_llm w (instruction step)
                  (Py.str (default (PStr EmptyString) (expected_outcome step)))
                  (default EmptyString (get_tool_outputs st !! step_key (get_index st - 1)))) ->
   Auditor.auditor_node w st = ([], Return (MkUpdate None (Some (get_index st + 1)%Z))))
  /\ (forall u, snd (Auditor.auditor_node w st) = Return u ->
                get_tool_outputs (merge st u) = get_tool_outputs st).
Proof.
  intros Hlt Hstep Hrole. unfold Auditor.auditor_node.
  rewrite (proj2 (Z.leb_gt _ _) Hlt), Hstep, Hrole.
  rewrite bool_decide_eq_true_2 by reflexivity. cbn [negb]. split.
  - unfold Auditor.select_and_verify, no_strategy.
    destruct (auditor_llm w _ _ _) as [data|e]; cbn.
    + destruct data; cbn; try reflexivity. contradiction.
    + now intros ->.
  - intros u. destruct (Auditor.select_and_verify w _ _ _) as [r|e]; cbn [snd].
    + now intros [= <-].
    + destruct (is_exception e); [now intros [= <-] | discriminate].
Qed.

Lemma auditor_recovers_witness :
  Auditor.auditor_node world_with_list_answer state_after_error
  = ([], Return (MkUpdate None (Some 2%Z))).
Proof.
  exact (proj1 (auditor_recovers world_with_list_answer state_after_error
                  (MkStep (Some "Auditor") "Verify notes.txt"
                          (Some (PStr "notes.txt is on disk")))
                  eq_refl eq_refl eq_refl) I).
Defined.

End Nodes.

(** ** The step loop *)

Section StepLoop.
Import State Graph.

Lemma py_index_nonneg {A} (l : list A) (i : Z) :
  (0 <= i < Z.of_nat (List.length l))%Z ->
  exists x, py_index l i = Return x /\ l !! Z.to_nat i = Some x.
Proof.
  intros [H0 Hlt]. unfold py_index.
  rewrite (proj2 (Z.ltb_ge _ _) H0).
  rewrite (proj2 (Z.leb_le _ _) H0), (proj2 (Z.ltb_lt _ _) Hlt). cbn [andb].
  destruct (l !! Z.to_nat i) as [x|] eqn:Hx; [now exists x |].
  apply lookup_ge_None in Hx. lia.
Qed.

Lemma route_step_total st :
  (0 <= get_index st)%Z -> exists r, route_step st = Return r.
Proof.
  intros H0. unfold route_step.
  destruct (Z.leb_spec (Z.of_nat (List.length (get_plan st))) (get_index st)); [eauto |].
  destruct (py_index_nonneg (get_plan st) (get_index st)) as [step [-> _]]; [lia |].
  cbn. repeat case_bool_decide; eauto.
Qed.

Lemma tick_raise w st e :
  (0 <= get_index st)%Z -> tick w st = Raise e -> is_exception e = false.
Proof.
  intros H0. unfold tick.
  destruct (route_step_total st H0) as [r Hr]. rewrite Hr. cbn.
  destruct r.
  - pose proof (actor_node_cursor w st Hr) as Hc.
    destruct (snd (Actor.actor_node w st)); cbn; [discriminate | now intros [= <-]].
  - pose proof (auditor_node_cursor w st Hr) as Hc.
    destruct (snd (Auditor.auditor_node w st)); cbn; [discriminate | now intros [= <-]].
  - discriminate.
Qed.

(** X15. From a state whose cursor is not negative, the run that
    [app.invoke] drives is ended abnormally in two ways only: an exception
    outside [Exception] escapes from a node, or the driver's step limit is
    used up while the router still names a node, which takes a plan with
    more steps left than the limit allows. No error of a skill, of the
    generated code, of the model calls or of a strategy ends the run. *)
Theorem invoke_crashes_on_escape_or_limit (steps_left : nat) (w : World) (st : AgentState)
        (e : pyexn) :
  (0 <= get_index st)%Z ->
  snd (invoke steps_left w st) = Crashed e ->
  is_exception e = false
  \/ (e = recursion_error
      /\ (Z.of_nat steps_left < Z.of_nat (List.length (get_plan st)) - get_index st)%Z).
Proof.
  revert st. induction steps_left as [|n IH]; intros st H0; cbn [invoke];
    destruct (route_step_total st H0) as [r Hr]; rewrite Hr;
    assert (Hin : r <> END -> (get_index st < Z.of_nat (List.length (get_plan st)))%Z)
      by (intros Hne; apply (route_step_inv _ _ Hr Hne)).
  - destruct r; try discriminate;
      (intros [= <-]; right; split; [reflexivity |];
       specialize (Hin ltac:(discriminate)); lia).
  - assert (Hstep : snd match tick w st with
                        | Return (Some next) =>
                            (st :: fst (invoke n w (snd next)), snd (invoke n w (snd next)))
                        | Return None => ([st], Finished)
                        | Raise e0 => ([st], Crashed e0)
                        end = Crashed e ->
                    r <> END ->
                    is_exception e = false
                    \/ (e = recursion_error
                        /\ (Z.of_nat (S n)
                            < Z.of_nat (List.length (get_plan st)) - get_index st)%Z)).
    { intros Hc Hne. specialize (Hin Hne).
      destruct (tick w st) as [[[evs st']|]|e'] eqn:Ht; cbn [snd] in Hc.
      - destruct (tick_cursor _ _ _ _ Ht) as [Hi Hp].
        destruct (IH st' ltac:(lia) Hc) as [He | [-> Hlt]]; [now left |].
        right. split; [reflexivity |]. rewrite Hi, Hp in Hlt. lia.
      - discriminate.
      - injection Hc as <-. left. now apply (tick_raise w st). }
    destruct r; try discriminate; intros Hc; apply Hstep; try exact Hc; discriminate.
Qed.

(** With one step left on a plan of two steps the driver gives up; with the
    generated code calling [sys.exit] the run ends at the first step. *)
Lemma invoke_crashes_on_escape_or_limit_witness :
  snd (invoke 1 sample_world (sample_state None two_step_plan 0)) = Crashed recursion_error
  /\ snd (invoke 25 world_with_exiting_code (sample_state None two_step_plan 0))
     = Crashed (MkExn SystemExit "1")
  /\ (is_exception (MkExn SystemExit "1") = false
      \/ (MkExn SystemExit "1" = recursion_error
          /\ (Z.of_nat 25
              < Z.of_nat (List.length (get_plan (sample_state None two_step_plan 0)))
                - get_index (sample_state None two_step_plan 0))%Z)).
Proof.
  split; [vm_compute; reflexivity |]. split; [vm_compute; reflexivity |].
  exact (invoke_crashes_on_escape_or_limit 25 world_with_exiting_code
           (sample_state None two_step_plan 0) (MkExn SystemExit "1")
           ltac:(vm_compute; discriminate) ltac:(vm_compute; reflexivity)).
Defined.

(** The states [invoke] goes through are those of the step loop run for as
    many ticks as the driver has steps left; the two differ only in how they
    call the end when the steps are used up. *)
Lemma invoke_states steps_left w st :
  fst (invoke steps_left w st) = fst (run steps_left w st)
  /\ (snd (run steps_left w st) <> OutOfFuel ->
      snd (invoke steps_left w st) = snd (run steps_left w st)).
Proof.
  assert (Hend : forall st, route_step st = Return END -> tick w st = Return None)
    by (intros st0 H; unfold tick; now rewrite H).
  assert (Hraise : forall st e, route_step st = Raise e -> tick w st = Raise e)
    by (intros st0 e H; unfold tick; now rewrite H).
  revert st. induction steps_left as [|n IH]; intros st; cbn [invoke run].
  - destruct (route_step st) as [[]|]; (split; [reflexivity | intros H; now contradiction H]).
  - destruct (route_step st) as [r|e] eqn:Hr; [| rewrite (Hraise _ _ Hr); now split].
    destruct r; [| | rewrite (Hend _ Hr); now split];
      (destruct (tick w st) as [[next|]|e']; cbn [fst snd]; [| now split | now split];
       destruct (IH (snd next)) as [IH1 IH2]; split; [now rewrite IH1 | exact IH2]).
Qed.

Lemma run_last_exists fuel w st : exists final, last (fst (run fuel w st)) = Some final.
Proof.
  revert st. induction fuel as [|fuel IH]; intros st; [now exists st |].
  cbn [run]. destruct (tick w st) as [[[evs st']|]|e]; cbn [fst snd]; try (now exists st).
  destruct (IH st') as [final Hf]. exists final.
  destruct (fst (run fuel w st')) as [|x l]; [discriminate | exact Hf].
Qed.

Lemma last_cons_run fuel w st st' :
  last (st :: fst (run fuel w st')) = last (fst (run fuel w st')).
Proof.
  destruct (run_last_exists fuel w st') as [final Hf].
  destruct (fst (run fuel w st')) as [|x l]; [discriminate | reflexivity].
Qed.

Lemma route_end_well_formed st :
  (0 <= get_index st)%Z -> well_formed (get_plan st) ->
  route_step st = Return END ->
  (Z.of_nat (List.length (get_plan st)) <= get_index st)%Z.
Proof.
  intros H0 Hwf. unfold route_step.
  destruct (Z.leb_spec (Z.of_nat (List.length (get_plan st))) (get_index st)); [auto |].
  destruct (py_index_nonneg (get_plan st) (get_index st)) as [step [-> Hl]]; [lia |].
  cbn. unfold well_formed in Hwf. rewrite Forall_lookup in Hwf.
  destruct (Hwf _ _ Hl) as [-> | ->]; cbn; discriminate.
Qed.

(** X16. On a plan whose steps all have the role [Actor] or [Auditor], a
    run that starts with the cursor inside the plan and ends normally ends
    with the cursor at the length of the plan, has gone through one state
    per remaining step plus the first, and has left the plan as it was. *)
Theorem run_finishes_at_end (fuel : nat) (w : World) (st final : AgentState)
        (states : list AgentState) :
  (0 <= get_index st <= Z.of_nat (List.length (get_plan st)))%Z ->
  well_formed (get_plan st) ->
  run fuel w st = (states, Finished) ->
  last states = Some final ->
  get_index final = Z.of_nat (List.length (get_plan st))
  /\ get_plan final = get_plan st
  /\ Z.of_nat (List.length states)
     = (Z.of_nat (List.length (get_plan st)) - get_index st + 1)%Z.
Proof.
  revert st states. induction fuel as [|fuel IH]; intros st states Hrange Hwf; [discriminate |].
  cbn [run]. destruct (tick w st) as [[[evs st']|]|e] eqn:Ht.
  - destruct (tick_cursor _ _ _ _ Ht) as [Hi Hp].
    assert (get_index st < Z.of_nat (List.length (get_plan st)))%Z.
    { unfold tick in Ht. destruct (route_step st) as [r|] eqn:Hr; [| discriminate].
      destruct r; [apply (route_step_inv _ _ Hr); discriminate ..| cbn in Ht; discriminate]. }
    cbn [snd]. pose proof (last_cons_run fuel w st st') as Hcons.
    destruct (run fuel w st') as [rest r] eqn:Hrun. cbn [fst snd] in *.
    intros [= <- ->] Hlast. rewrite Hcons in Hlast.
    destruct (IH st' rest) as [H1 [H2 H3]]; try rewrite Hp, ?Hi; try assumption; try lia.
    cbn [List.length]. rewrite Hp, Hi in *. repeat split; try assumption. lia.
  - intros [= <-] [= <-].
    unfold tick in Ht. destruct (route_step st) as [r|] eqn:Hr; [| discriminate].
    assert (r = END) as ->.
    { destruct r; cbn in Ht; try reflexivity;
        match type of Ht with context [snd ?x] => destruct (snd x) end; discriminate. }
    pose proof (route_end_well_formed st ltac:(lia) Hwf Hr). cbn. repeat split; lia.
  - discriminate.
Qed.

Lemma run_finishes_at_end_witness :
  exists final,
    last (fst (run 5 sample_world (sample_state None two_step_plan 0))) = Some final
    /\ get_index final = 2%Z.
Proof.
  destruct (run_last_exists 5 sample_world (sample_state None two_step_plan 0)) as [final Hf].
  exists final. split; [exact Hf |].
  apply (run_finishes_at_end 5 sample_world (sample_state None two_step_plan 0) final
           (fst (run 5 sample_world (sample_state None two_step_plan 0)))).
  - vm_compute. split; discriminate.
  - constructor; [left; reflexivity | constructor; [right; reflexivity | constructor]].
  - vm_compute. reflexivity.
  - exact Hf.
Defined.

End StepLoop.

(** ** Tool outputs along a run *)

Section ToolOutputs.
Import State Graph.

Lemma step_key_inj i j : step_key i = step_key j -> i = j.
Proof.
  unfold step_key. intros H. apply (inj (String.append "step_")) in H.
  now apply (inj pretty) in H.
Qed.

Lemma actor_update_shape w st u :
  route_step st = Return ToActor ->
  snd (Actor.actor_node w st) = Return u ->
  exists out,
    get_tool_outputs (merge st u) = <[step_key (get_index st) := out]> (get_tool_outputs st).
Proof.
  intros Hr. destruct (route_step_inv _ _ Hr ltac:(discriminate)) as [Hlt [step [Hstep Hrole]]].
  rewrite (actor_node_enter w st step Hlt Hstep Hrole).
  assert (Hgen : snd (Actor.generate_and_execute w st (get_index st) (instruction step))
                 = Return u ->
                 exists out, get_tool_outputs (merge st u)
                             = <[step_key (get_index st) := out]> (get_tool_outputs st)).
  { unfold Actor.generate_and_execute. cbn [snd].
    destruct (py_exec w _) as [[]|e]; [intros [= <-]; eauto |].
    destruct (is_exception e); [intros [= <-]; eauto | discriminate]. }
  destruct (Actor.resolve_skill st (instruction step)) as [[agent n]|]; [| exact Hgen].
  destruct (Agent.execute_skill agent n []) as [v|e]; cbn [snd].
  - unfold recorded. intros [= <-]. eauto.
  - destruct (is_exception e); cbn [snd]; [exact Hgen | discriminate].
Qed.

(** What one tick does to the tool outputs. *)
Lemma tick_outputs w st evs st' :
  (0 <= get_index st)%Z ->
  tick w st = Return (Some (evs, st')) ->
  exists step,
    get_plan st !! Z.to_nat (get_index st) = Some step
    /\ ((role step = Some "Actor"
         /\ exists out, get_tool_outputs st'
                        = <[step_key (get_index st) := out]> (get_tool_outputs st))
        \/ (role step = Some "Auditor" /\ get_tool_outputs st' = get_tool_outputs st)).
Proof.
  intros H0. unfold tick. destruct (route_step st) as [r|] eqn:Hr; [| discriminate].
  assert (Hstep : r <> END -> exists step,
             get_plan st !! Z.to_nat (get_index st) = Some step
             /\ role step = Some (match r with ToActor => "Actor" | _ => "Auditor" end)).
  { intros Hne. destruct (route_step_inv _ _ Hr Hne) as [Hlt [step [Hs Hrole]]].
    destruct (py_index_nonneg (get_plan st) (get_index st)) as [x [Hx Hl]]; [lia |].
    rewrite Hx in Hs. injection Hs as ->. eauto. }
  destruct r; cbn.
  - destruct (Hstep ltac:(discriminate)) as [step [Hl Hrole]].
    destruct (snd (Actor.actor_node w st)) as [u|e] eqn:Hu; cbn; [| discriminate].
    intros [= _ <-]. exists step. split; [exact Hl |]. left. split; [exact Hrole |].
    now apply (actor_update_shape w).
  - destruct (Hstep ltac:(discriminate)) as [step [Hl Hrole]].
    destruct (route_step_inv _ _ Hr ltac:(discriminate)) as [Hlt [step' [Hs' Hrole']]].
    destruct (snd (Auditor.auditor_node w st)) as [u|e] eqn:Hu; cbn; [| discriminate].
    intros [= _ <-]. exists step. split; [exact Hl |]. right. split; [exact Hrole |].
    now apply (auditor_node_keeps_outputs w).
  - discriminate.
Qed.

Lemma run_last_ge fuel w st final :
  last (fst (run fuel w st)) = Some final -> (get_index st <= get_index final)%Z.
Proof.
  revert st. induction fuel as [|fuel IH]; intros st.
  - cbn. intros [= <-]. lia.
  - cbn [run]. destruct (tick w st) as [[[evs st']|]|e] eqn:Ht; cbn [fst snd];
      try (cbn; intros [= <-]; lia).
    rewrite last_cons_run. intros Hlast. apply IH in Hlast.
    destruct (tick_cursor _ _ _ _ Ht) as [Hs _]. lia.
Qed.

(** X17. Along a run from a cursor that is not negative, however the run
    ends: every Actor step the cursor has passed has its output under its
    key [step_i]; the key of every Auditor step passed holds what it held at
    the start; and so does every key that is not the key of a step passed. *)
Theorem outputs_written_behind_cursor (fuel : nat) (w : World) (st final : AgentState) :
  (0 <= get_index st)%Z ->
  last (fst (run fuel w st)) = Some final ->
  (forall i step,
      (get_index st <= i < get_index final)%Z ->
      get_plan st !! Z.to_nat i = Some step ->
      (role step = Some "Actor" -> is_Some (get_tool_outputs final !! step_key i))
      /\ (role step = Some "Auditor" ->
          get_tool_outputs final !! step_key i = get_tool_outputs st !! step_key i))
  /\ (forall k, (forall i, (get_index st <= i < get_index final)%Z -> k <> step_key i) ->
                get_tool_outputs final !! k = get_tool_outputs st !! k).
Proof.
  revert st. induction fuel as [|fuel IH]; intros st H0.
  - cbn. intros [= <-]. split; [intros; lia | reflexivity].
  - cbn [run]. destruct (tick w st) as [[[evs st']|]|e] eqn:Ht; cbn [fst snd];
      try (cbn; intros [= <-]; split; [intros; lia | reflexivity]).
    rewrite last_cons_run. intros Hlast.
    destruct (tick_cursor _ _ _ _ Ht) as [Hi Hp].
    destruct (IH st' ltac:(lia) Hlast) as [IH1 IH2]. rewrite Hi, Hp in *.
    destruct (tick_outputs _ _ _ _ H0 Ht) as [step0 [Hl0 Hcase]].
    assert (Hframe : forall k, k <> step_key (get_index st) ->
                               get_tool_outputs st' !! k = get_tool_outputs st !! k).
    { intros k Hk. destruct Hcase as [[_ [out ->]] | [_ ->]]; [| reflexivity].
      now rewrite lookup_insert_ne by auto. }
    assert (Hkeep : get_tool_outputs final !! step_key (get_index st)
                    = get_tool_outputs st' !! step_key (get_index st)).
    { apply IH2. intros i Hi' Heq. apply step_key_inj in Heq. lia. }
    split.
    + intros i step Hrange Hl.
      destruct (decide (i = get_index st)) as [-> | Hne].
      * rewrite Hl0 in Hl. injection Hl as <-. rewrite Hkeep. split.
        -- intros Hrole. destruct Hcase as [[_ [out ->]] | [Ha _]]; [| congruence].
           rewrite lookup_insert_eq. eauto.
        -- intros Hrole. destruct Hcase as [[Ha _] | [_ ->]]; [congruence | reflexivity].
      * destruct (IH1 i step ltac:(lia) Hl) as [HA HB]. split; [exact HA |].
        intros Hrole. rewrite (HB Hrole). apply Hframe.
        intros Heq. apply step_key_inj in Heq. contradiction.
    + intros k Hk. pose proof (run_last_ge _ _ _ _ Hlast) as Hge. rewrite IH2.
      * apply Hframe. apply Hk. lia.
      * intros i Hi'. apply Hk. lia.
Qed.

(** On the two-step plan: the Actor's output is under [step_0], and the
    Auditor left nothing under [step_1]. *)
Lemma outputs_written_behind_cursor_witness :
  exists final,
    last (fst (run 5 sample_world (sample_state None two_step_plan 0))) = Some final
    /\ is_Some (get_tool_outputs final !! step_key 0)
    /\ get_tool_outputs final !! step_key 1 = None.
Proof.
  destruct (run_last_exists 5 sample_world (sample_state None two_step_plan 0)) as [final Hf].
  exists final. split; [exact Hf |].
  destruct (outputs_written_behind_cursor 5 sample_world
              (sample_state None two_step_plan 0) final
              ltac:(vm_compute; discriminate) Hf) as [H _].
  assert (Hfinal : get_index final = 2%Z).
  { vm_compute in Hf. now injection Hf as <-. }
  split.
  - apply (proj1 (H 0%Z (MkStep (Some "Actor") "Create a file notes.txt with the text hello" None)
                    ltac:(rewrite Hfinal; vm_compute; split; [discriminate | reflexivity]) eq_refl)).
    reflexivity.
  - apply (proj2 (H 1%Z (MkStep (Some "Auditor") "Verify notes.txt"
                                (Some (PStr "notes.txt is on disk")))
                    ltac:(rewrite Hfinal; vm_compute; split; [discriminate | reflexivity])
                    eq_refl)).
    reflexivity.
Defined.

End ToolOutputs.

(** ** The facts store *)

Section Facts.
Import Memory.
Context {vec : Type}.
Variable sha256_hexdigest : string -> string.

Lemma filter_filter_weaken {A} (P Q : A -> Prop) `{!forall x, Decision (P x)}
      `{!forall x, Decision (Q x)} (l : list A) :
  (forall x, P x -> Q x) -> filter P (filter Q l) = filter P l.
Proof.
  intros HPQ. induction l as [|x l IH]; [reflexivity |].
  rewrite !(filter_cons _ x). destruct (decide (Q x)) as [Hq|Hq].
  - rewrite filter_cons. destruct (decide (P x)); now rewrite IH.
  - destruct (decide (P x)) as [Hp|Hp]; [now apply HPQ in Hp | exact IH].
Qed.

(** The state of a manager after a [save_fact] that returned true. *)
Lemma save_fact_db (mm mm' : @MemoryManager vec) now k v c :
  save_fact sha256_hexdigest mm now k v c = (true, mm') ->
  exists d d',
    db mm = Some d /\ db mm' = Some d'
    /\ user_facts d' = filter (fun r => key r ≠ k) (user_facts d)
                        ++ [MkFact (user_facts_seq d + 1) k v c (current_timestamp now)
                                   (current_timestamp now)].
Proof.
  unfold save_fact. destruct (db mm) as [d|] eqn:Hd; [| discriminate].
  intros [= <-].
  pose proof (append_log_keeps_facts sha256_hexdigest
                (with_db mm (Some (insert_or_replace_fact d now k v c))) now "SYSTEM"
                ("Saved fact: " +:+ k +:+ " = " +:+ v +:+ " (category: " +:+ c +:+ ")")
                None) as Hfacts.
  destruct (db (snd (append_log _ _ _ _ _ _))) as [d'|]; [| discriminate].
  cbn in Hfacts. injection Hfacts as Hf. now exists d, d'.
Qed.

(** X18. A [save_fact] that returned true leaves every other key as it
    was: [get_fact] of a different key answers as before. *)
Theorem save_fact_keeps_other_keys (mm mm' : @MemoryManager vec) (now : Clock)
        (k v c k' : string) :
  save_fact sha256_hexdigest mm now k v c = (true, mm') ->
  k' <> k ->
  get_fact mm' k' = get_fact mm k'.
Proof.
  intros Hsave Hne. destruct (save_fact_db _ _ _ _ _ _ Hsave) as [d [d' [Hd [Hd' Hrows]]]].
  unfold get_fact. rewrite Hd, Hd', Hrows, filter_app.
  rewrite filter_filter_weaken by (intros r ->; exact Hne).
  cbn. rewrite decide_False by auto. now rewrite app_nil_r.
Qed.

Lemma dict_of_rows_nodup {V} (rows acc : list (string * V)) :
  NoDup (map fst (acc ++ rows)) ->
  fold_left (fun d kv => Py.dict_set (fst kv) (snd kv) d) rows acc = acc ++ rows.
Proof.
  revert acc. induction rows as [|[k v] rows IH]; intros acc Hnd; cbn.
  - now rewrite app_nil_r.
  - assert (Hset : Py.dict_set k v acc = acc ++ [(k, v)]).
    { assert (Hk : k ∉ map fst acc).
      { rewrite map_app in Hnd. apply NoDup_app in Hnd as [_ [Hdis _]].
        intros Hin. apply (Hdis k Hin). cbn. apply list_elem_of_here. }
      clear -Hk. induction acc as [|[k' v'] acc IHa]; [reflexivity |]. cbn.
      destruct (String.eqb k k') eqn:E.
      - apply String.eqb_eq in E. subst. exfalso. apply Hk. cbn. apply list_elem_of_here.
      - f_equal. apply IHa. intros Hin. apply Hk. cbn. now apply list_elem_of_further. }
    rewrite Hset, IH; rewrite <- app_assoc; [reflexivity | exact Hnd].
Qed.

Lemma filter_keys_nodup k (rows : list FactRow) :
  NoDup (map key rows) -> NoDup (map key (filter (fun r => key r ≠ k) rows))
  /\ k ∉ map key (filter (fun r => key r ≠ k) rows).
Proof.
  intros Hnd. split.
  - induction rows as [|r rows IH]; [constructor |]. cbn in Hnd.
    apply NoDup_cons in Hnd as [Hr Hnd]. rewrite filter_cons.
    destruct (decide (key r ≠ k)); [| now apply IH].
    cbn. apply NoDup_cons. split; [| now apply IH].
    intros Hin. apply Hr. apply list_elem_of_fmap in Hin as [x [Hx Hin]].
    apply list_elem_of_filter in Hin as [_ Hin]. apply list_elem_of_fmap. eauto.
  - intros Hin. apply list_elem_of_fmap in Hin as [x [Hx Hin]].
    apply list_elem_of_filter in Hin as [Hne _]. now apply Hne.
Qed.

(** X19. Keys stay unique: when the keys of the facts table are pairwise
    different, they still are after a [save_fact] that returned true, and
    [get_all_facts()] then lists each row of the table once, in table
    order. *)
Theorem save_fact_keeps_keys_unique (mm mm' : @MemoryManager vec) (now : Clock)
        (k v c : string) (d : Database) :
  db mm = Some d -> NoDup (fact_keys d) ->
  save_fact sha256_hexdigest mm now k v c = (true, mm') ->
  exists d', db mm' = Some d' /\ NoDup (fact_keys d')
             /\ get_all_facts mm' None = fact_pairs d'.
Proof.
  intros Hd Hnd Hsave.
  destruct (save_fact_db _ _ _ _ _ _ Hsave) as [d0 [d' [Hd0 [Hd' Hrows]]]].
  rewrite Hd in Hd0. injection Hd0 as <-. exists d'. split; [exact Hd' |].
  destruct (filter_keys_nodup k _ Hnd) as [Hk1 Hk2].
  assert (Hnd' : NoDup (fact_keys d')).
  { unfold fact_keys. rewrite Hrows, map_app. apply NoDup_app. split; [exact Hk1 |].
    split; [| apply NoDup_singleton].
    intros x Hx Hin. cbn in Hin. apply list_elem_of_singleton in Hin. now subst x. }
  split; [exact Hnd' |].
  unfold get_all_facts, fact_pairs. rewrite Hd'. unfold Py.dict_of_rows.
  rewrite dict_of_rows_nodup; [reflexivity |].
  cbn. rewrite map_map. exact Hnd'.
Qed.

End Facts.

Lemma save_fact_keeps_other_keys_witness :
  Memory.get_fact memory_with_facts "user_name" = Some "Test User".
Proof.
  exact (save_fact_keeps_other_keys no_digest
           (snd (Memory.save_fact no_digest fresh_memory sample_clock
                                  "user_name" "Test User" "personal"))
           memory_with_facts sample_clock "api_key" "SECRET_12345" "config" "user_name"
           eq_refl ltac:(discriminate)).
Defined.

Lemma save_fact_keeps_keys_unique_witness :
  exists d', Memory.db memory_with_facts = Some d' /\ NoDup (fact_keys d')
             /\ Memory.get_all_facts memory_with_facts None = fact_pairs d'.
Proof.
  refine (save_fact_keeps_keys_unique no_digest
            (snd (Memory.save_fact no_digest fresh_memory sample_clock
                                   "user_name" "Test User" "personal"))
            memory_with_facts sample_clock "api_key" "SECRET_12345" "config"
            _ eq_refl _ eq_refl).
  vm_compute. apply NoDup_singleton.
Defined.

(** ** Reading a file back *)

Section Newlines.

Lemma no_cr_cons c s : no_cr (String c s) <-> c <> "013"%char /\ no_cr s.
Proof.
  unfold no_cr. cbn [PyStr.mem].
  destruct (Ascii.eqb_spec "013"%char c) as [<- | Hne]; split; try discriminate; auto.
  - intros [H _]. now contradiction H.
  - now intros [_ H].
Qed.

Lemma no_cr_append a b : no_cr a -> no_cr b -> no_cr (a +:+ b).
Proof.
  intros Ha Hb. induction a as [|c a IH]; [exact Hb |].
  apply no_cr_cons in Ha as [Hc Ha]. cbn. apply no_cr_cons. auto.
Qed.

Lemma read_newlines_plain c rest :
  c <> "013"%char ->
  PyStr.read_newlines false (String c rest) = String c (PyStr.read_newlines false rest).
Proof.
  intros Hc. cbn. apply Ascii.eqb_neq in Hc. now rewrite Hc, andb_false_r.
Qed.

(** A text without a carriage return is read back as it was written. *)
Lemma read_newlines_no_cr v post :
  no_cr v -> PyStr.read_newlines false (v +:+ post) = v +:+ PyStr.read_newlines false post.
Proof.
  induction v as [|c v IH]; intros Hv; [reflexivity |].
  apply no_cr_cons in Hv as [Hc Hv].
  change (String c v +:+ post) with (String c (v +:+ post)).
  rewrite read_newlines_plain by exact Hc. cbn. now rewrite IH.
Qed.

Lemma read_newlines_keeps (v pre post : string) (after_cr : bool) :
  no_cr v ->
  exists before after,
    (if after_cr then PyStr.nl else EmptyString)
    +:+ PyStr.read_newlines after_cr (pre +:+ v +:+ post)
    = before +:+ v +:+ after.
Proof.
  intros Hv. revert after_cr. induction pre as [|a pre IH]; intros after_cr.
  - change (EmptyString +:+ v +:+ post) with (v +:+ post).
    destruct v as [|c v];
      [now exists EmptyString, ((if after_cr then PyStr.nl else EmptyString)
                                +:+ PyStr.read_newlines after_cr post) |].
    apply no_cr_cons in Hv as [Hc Hv].
    change (String c v +:+ post) with (String c (v +:+ post)).
    cbn [PyStr.read_newlines]. rewrite (proj2 (Ascii.eqb_neq _ _) Hc).
    destruct (Ascii.eqb_spec c "010"%char) as [-> | Hnl]; destruct after_cr; cbn [andb].
    + exists EmptyString, (PyStr.read_newlines false post).
      now rewrite read_newlines_no_cr.
    + exists EmptyString, (PyStr.read_newlines false post).
      now rewrite read_newlines_no_cr.
    + exists PyStr.nl, (PyStr.read_newlines false post).
      now rewrite read_newlines_no_cr.
    + exists EmptyString, (PyStr.read_newlines false post).
      now rewrite read_newlines_no_cr.
  - change (String a pre +:+ v +:+ post) with (String a (pre +:+ v +:+ post)).
    cbn [PyStr.read_newlines].
    destruct (Ascii.eqb a "013"%char).
    + destruct (IH true) as [before [after H]].
      exists ((if after_cr then PyStr.nl else EmptyString) +:+ before), after.
      rewrite append_assoc, <- H. reflexivity.
    + destruct (Ascii.eqb a "010"%char && after_cr) eqn:E.
      * apply andb_true_iff in E as [_ ->].
        destruct (IH false) as [before [after H]].
        exists (PyStr.nl +:+ before), after. rewrite append_assoc, <- H. reflexivity.
      * destruct (IH false) as [before [after H]].
        exists ((if after_cr then PyStr.nl else EmptyString) +:+ String a before), after.
        rewrite append_assoc. cbn [String.append] in H |- *.
        change (String a before +:+ v +:+ after) with (String a (before +:+ v +:+ after)).
        now rewrite <- H.
Qed.

(** What the file holds, the reader finds, when it has no carriage return. *)
Lemma read_text_contains v on_disk :
  no_cr v -> PyStr.contains v on_disk = true ->
  PyStr.contains v (Memory.read_text on_disk) = true.
Proof.
  intros Hv Hc. apply contains_iff in Hc as [pre [post ->]].
  destruct (read_newlines_keeps v pre post false Hv) as [before [after H]].
  apply contains_iff. exists before, after. exact H.
Qed.

End Newlines.

(** ** The activity log *)

Section ActivityLog.
Import Memory.
Context {vec : Type}.
Variable sha256_hexdigest : string -> string.

(** The entry [append_log] formats. *)
Lemma append_log_entry (mm : @MemoryManager vec) (now : Clock)
      (type content : string) (metadata : option pyval) :
  files_writable mm = true ->
  exists entry,
    log_file (snd (append_log sha256_hexdigest mm now type content metadata))
    = Some (default EmptyString (log_file mm) +:+ entry)
    /\ PyStr.contains ("[" +:+ type +:+ "]") entry = true
    /\ PyStr.contains content entry = true.
Proof.
  intros Hw. unfold append_log, _store_log_metadata, _check_compaction_needed.
  rewrite Hw. cbn [negb db log_file with_log_file].
  set (entry := (PyStr.nl +:+ "## [" +:+ type +:+ "] " +:+ _)%string).
  exists entry. split; [| split].
  - destruct (db mm) as [d|]; cbn [snd fst log_file now_file with_db with_log_file db];
      [| reflexivity].
    now destruct (_ <? _)%Z.
  - subst entry.
    match goal with |- context [("] " +:+ ?t)%string] => set (tail := t) end.
    apply contains_iff. exists (PyStr.nl +:+ "## "), (" " +:+ tail).
    now rewrite !append_assoc.
  - subst entry. do 7 apply contains_append_r. apply contains_prefix.
Qed.

Lemma append_log_answer (mm : @MemoryManager vec) now type content metadata :
  fst (append_log sha256_hexdigest mm now type content metadata)
  = files_writable mm && bool_decide (is_Some (db mm)).
Proof.
  unfold append_log, _store_log_metadata, _check_compaction_needed.
  destruct (files_writable mm); cbn [negb andb fst]; [| reflexivity].
  cbn [db log_file with_log_file].
  destruct (db mm) as [d|]; cbn [snd fst log_file now_file with_db with_log_file db].
  - now destruct (_ <? _)%Z.
  - reflexivity.
Qed.

Lemma append_log_read_only (mm : @MemoryManager vec) now type content metadata :
  files_writable mm = false ->
  append_log sha256_hexdigest mm now type content metadata = (false, mm).
Proof. intros Hw. unfold append_log. now rewrite Hw. Qed.

Lemma append_log_now_file (mm : @MemoryManager vec) now type content metadata :
  now_file (snd (append_log sha256_hexdigest mm now type content metadata)) = now_file mm.
Proof.
  unfold append_log, _store_log_metadata, _check_compaction_needed.
  destruct (files_writable mm); cbn [negb snd]; [| reflexivity].
  cbn [db log_file with_log_file].
  destruct (db mm) as [d|]; cbn [snd fst log_file now_file with_db with_log_file db];
    [| reflexivity].
  now destruct (_ <? _)%Z.
Qed.

(** X20. [append_log] only ever extends LOG.md. When the file can be
    written, the new content is the old content followed by an entry that
    carries the type in brackets and the content; the entry is written
    before the metadata row, so it is on disk even when the database is
    unusable, and the call returns true exactly when the database is usable.
    When the file cannot be written the call returns false and changes
    nothing. NOW.md is never touched. *)
Theorem append_log_appends (mm : @MemoryManager vec) (now : Clock)
        (type content : string) (metadata : option pyval) :
  let after := append_log sha256_hexdigest mm now type content metadata in
  (files_writable mm = true ->
   (exists entry,
       log_file (snd after) = Some (default EmptyString (log_file mm) +:+ entry)
       /\ PyStr.contains ("[" +:+ type +:+ "]") entry = true
       /\ PyStr.contains content entry = true)
   /\ (fst after = true <-> is_Some (db mm)))
  /\ (files_writable mm = false -> after = (false, mm))
  /\ now_file (snd after) = now_file mm.
Proof.
  cbv zeta. split; [| split].
  - intros Hw. split; [now apply append_log_entry |].
    rewrite append_log_answer, Hw. cbn [andb]. apply bool_decide_eq_true.
  - apply append_log_read_only.
  - apply append_log_now_file.
Qed.

(** X21. [save_fact] writes the value into the activity log in clear: after
    a [save_fact] that returned true on files that can be written, what
    [read_log()] returns contains the key and the value (texts without a
    carriage return, which reading would turn into a line feed). *)
Theorem save_fact_logs_value (mm mm' : @MemoryManager vec) (now : Clock) (k v c : string) :
  files_writable mm = true -> no_cr k -> no_cr v ->
  save_fact sha256_hexdigest mm now k v c = (true, mm') ->
  PyStr.contains k (read_log mm' None) = true
  /\ PyStr.contains v (read_log mm' None) = true.
Proof.
  intros Hw Hk Hv. unfold save_fact. destruct (db mm) as [d|]; [| discriminate]. cbv zeta.
  intros H. apply (f_equal snd) in H. cbn [snd] in H. subst mm'.
  destruct (append_log_entry (with_db mm (Some (insert_or_replace_fact d now k v c)))
              now "SYSTEM"
              ("Saved fact: " +:+ k +:+ " = " +:+ v +:+ " (category: " +:+ c +:+ ")") None Hw)
    as [entry [Hlog [_ Hc]]].
  unfold read_log. rewrite Hlog.
  apply contains_iff in Hc as [before [after ->]].
  split; apply read_text_contains; try assumption;
    apply contains_append_r, contains_append_r.
  - rewrite !append_assoc. apply contains_append_r, contains_prefix.
  - rewrite !append_assoc. do 3 apply contains_append_r. apply contains_prefix.
Qed.

End ActivityLog.

Lemma append_log_appends_witness :
  (exists entry,
      Memory.log_file (snd (Memory.append_log no_digest fresh_memory sample_clock
                                              "TOOL_USE" "wrote notes.txt" None))
      = Some (default EmptyString (Memory.log_file fresh_memory) +:+ entry)
      /\ PyStr.contains "[TOOL_USE]" entry = true
      /\ PyStr.contains "wrote notes.txt" entry = true)
  /\ fst (Memory.append_log no_digest fresh_memory sample_clock
                            "TOOL_USE" "wrote notes.txt" None) = true.
Proof.
  destruct (proj1 (append_log_appends no_digest fresh_memory sample_clock
                     "TOOL_USE" "wrote notes.txt" None) eq_refl) as [Hentry Hok].
  split; [exact Hentry | reflexivity].
Defined.

Lemma save_fact_logs_value_witness :
  PyStr.contains "api_key" (Memory.read_log memory_with_facts None) = true
  /\ PyStr.contains "SECRET_12345" (Memory.read_log memory_with_facts None) = true.
Proof.
  exact (save_fact_logs_value no_digest
           (snd (Memory.save_fact no_digest fresh_memory sample_clock
                                  "user_name" "Test User" "personal"))
           memory_with_facts sample_clock "api_key" "SECRET_12345" "config"
           eq_refl eq_refl eq_refl eq_refl).
Defined.

(** ** Reading facts and the log *)

Section Reading.
Import Memory.
Context {vec : Type}.

Lemma dict_get_set {V} (k k' : string) (v : V) d :
  Py.dict_get k (Py.dict_set k' v d)
  = if String.eqb k k' then Some v else Py.dict_get k d.
Proof.
  induction d as [|[q w] d IH]; cbn.
  - destruct (String.eqb k k'); reflexivity.
  - destruct (String.eqb k' q) eqn:E; cbn.
    + apply String.eqb_eq in E. subst q. destruct (String.eqb k k'); reflexivity.
    + destruct (String.eqb k q) eqn:E2.
      * apply String.eqb_eq in E2. subst q.
        rewrite String.eqb_sym in E. now rewrite E.
      * exact IH.
Qed.

Lemma dict_of_rows_in {V} (k : string) (v : V) rows acc :
  Py.dict_get k (fold_left (fun d kv => Py.dict_set (fst kv) (snd kv) d) rows acc) = Some v ->
  (k, v) ∈ rows \/ Py.dict_get k acc = Some v.
Proof.
  revert acc. induction rows as [|[q w] rows IH]; intros acc H; cbn in H; [auto |].
  apply IH in H as [H | H]; [left; now apply list_elem_of_further |].
  rewrite dict_get_set in H. cbn in H. destruct (String.eqb k q) eqn:E; [| auto].
  apply String.eqb_eq in E. subst q. injection H as ->. left. apply list_elem_of_here.
Qed.

(** X22. [get_all_facts(category)] with a category that is not empty
    returns only facts stored under that category, each with a value the
    table holds for its key; with the empty text as category it returns what
    [get_all_facts()] returns. *)
Theorem get_all_facts_by_category (mm : @MemoryManager vec) (c : string) :
  get_all_facts mm (Some EmptyString) = get_all_facts mm None
  /\ (c <> EmptyString ->
      forall k v, Py.dict_get k (get_all_facts mm (Some c)) = Some v ->
        exists d row, db mm = Some d /\ row ∈ user_facts d
                      /\ key row = k /\ value row = v /\ category row = c).
Proof.
  unfold get_all_facts. split; [destruct (db mm); reflexivity |].
  intros Hc k v. destruct (db mm) as [d|]; [| discriminate].
  destruct c as [|x c]; [contradiction |]. cbn [PyStr.is_empty].
  unfold Py.dict_of_rows. intros H.
  apply dict_of_rows_in in H as [H | H]; [| discriminate].
  apply list_elem_of_fmap in H as [row [[= -> ->] Hin]].
  apply list_elem_of_filter in Hin as [Hcat Hin]. now exists d, row.
Qed.

(** X23. [read_log(n)] returns the end of LOG.md: the text read from the
    file is some text followed by what [read_log(n)] returns, for every [n];
    and nothing is cut when that text has at most [n] entries. *)
Theorem read_log_is_tail (mm : @MemoryManager vec) (n : Z) (content : string) :
  log_file mm = Some content ->
  (exists before, read_text content = before +:+ read_log mm (Some n))
  /\ ((Z.of_nat (List.length (PyStr.split separator (read_text content))) <= n)%Z ->
      read_log mm (Some n) = read_text content).
Proof.
  intros Hlog. unfold read_log. rewrite Hlog. cbv zeta.
  assert (Hsep : separator <> EmptyString) by discriminate.
  destruct (n =? 0)%Z eqn:Hn; [split; [now exists EmptyString | reflexivity] |].
  unfold tail_slice. split.
  - destruct (- n <? 0)%Z;
      match goal with |- context [List.skipn ?k ?l] =>
        destruct (join_skipn separator l k) as [before Hb] end;
      exists before; now rewrite <- Hb, join_split.
  - intros Hle. apply Z.eqb_neq in Hn.
    assert (Hpos : (- n <? 0)%Z = true) by (apply Z.ltb_lt; lia). rewrite Hpos.
    replace (Z.to_nat _) with 0%nat by lia. cbn [List.skipn]. now apply join_split.
Qed.

End Reading.

Lemma get_all_facts_by_category_witness :
  exists d row, Memory.db memory_with_facts = Some d /\ row ∈ Memory.user_facts d
                /\ Memory.key row = "api_key" /\ Memory.value row = "SECRET_12345"
                /\ Memory.category row = "config".
Proof.
  exact (proj2 (get_all_facts_by_category memory_with_facts "config")
           ltac:(discriminate) "api_key" "SECRET_12345" eq_refl).
Defined.

Lemma read_log_is_tail_witness :
  Memory.read_log fresh_memory (Some 20)
  = "# Activity Log - finn" +:+ PyStr.nl +:+ PyStr.nl
    +:+ "Started: 2025-01-15 10:30:00" +:+ PyStr.nl +:+ PyStr.nl
    +:+ "---" +:+ PyStr.nl +:+ PyStr.nl.
Proof.
  exact (proj2 (read_log_is_tail fresh_memory 20 _ eq_refl) ltac:(vm_compute; discriminate)).
Defined.

(** ** The cold tier, the status file and compaction *)

Section ColdAndCompaction.
Import Memory.
Context {vec : Type}.
Variable sha256_hexdigest : string -> string.
Variable embedding_api : string -> string -> option vec.
Variable zero_vector : nat -> vec.

Lemma dict_get_set_ne {V} (k k' : string) (v : V) d :
  k <> k' -> Py.dict_get k (Py.dict_set k' v d) = Py.dict_get k d.
Proof.
  intros Hne. rewrite dict_get_set.
  destruct (String.eqb k k') eqn:E; [| reflexivity]. now apply String.eqb_eq in E.
Qed.

Lemma store_memory_no_table (mm : @MemoryManager vec) now content metadata :
  lance_truthy (lance_db mm) = false ->
  store_memory embedding_api zero_vector mm now content metadata = (false, mm).
Proof.
  unfold store_memory. destruct (lance_db mm) as [ldb|]; [| reflexivity].
  now intros ->.
Qed.

Lemma lance_truthy_size (ldb : @LanceDB vec) :
  lance_truthy (Some ldb) = negb (Nat.eqb (size (tables ldb)) 0).
Proof. reflexivity. Qed.

(** X24. [store_memory] on a store that has no table yet returns false and
    leaves the store as it is: the test [if not self.lance_db] takes the
    connection for its number of tables. On a store with a table, whose
    table calls succeed, it returns true and appends one record to the
    agent's table, after the records already there: the record holds the
    content, the id
    [memory_] and the clock's timestamp, and a metadata dict stamped with
    the agent's name and the time, whatever the caller's metadata said under
    those keys. Other tables, the files and the database are untouched. *)
Theorem store_memory_appends (mm : @MemoryManager vec) (now : Clock) (content : string)
        (metadata : option (list (string * pyval))) (ldb : LanceDB) :
  lance_db mm = Some ldb ->
  (size (tables ldb) = 0%nat ->
   store_memory embedding_api zero_vector mm now content metadata = (false, mm))
  /\ (size (tables ldb) <> 0%nat -> tables_ok ldb = true ->
      exists mm' ldb' record meta,
        store_memory embedding_api zero_vector mm now content metadata = (true, mm')
        /\ lance_db mm' = Some ldb'
        /\ tables ldb' !! table_name mm
           = Some (default [] (tables ldb !! table_name mm) ++ [record])
        /\ (forall t, t <> table_name mm -> tables ldb' !! t = tables ldb !! t)
        /\ text record = content /\ id record = "memory_" +:+ timestamp now
        /\ Memory.metadata record = PDict meta
        /\ Py.dict_get "agent" meta = Some (PStr (agent_name mm))
        /\ Py.dict_get "stored_at" meta = Some (PStr (strftime now))
        /\ db mm' = db mm /\ log_file mm' = log_file mm /\ now_file mm' = now_file mm).
Proof.
  intros Hl. split.
  - intros Hsize. apply store_memory_no_table. rewrite Hl, lance_truthy_size, Hsize.
    reflexivity.
  - intros Hsize Hr. unfold store_memory. rewrite Hl, lance_truthy_size.
    rewrite (proj2 (Nat.eqb_neq _ _) Hsize), Hr. cbn [negb].
    eexists _, _, _, _. split; [reflexivity |]. split; [reflexivity |].
    cbn [lance_db with_lance_db tables db log_file now_file].
    split; [apply lookup_insert_eq |].
    split; [intros t Ht; now rewrite lookup_insert_ne by auto |].
    cbn [text id Memory.metadata].
    split; [reflexivity |]. split; [reflexivity |]. split; [reflexivity |].
    split; [| split; [apply dict_get_set_eq | auto]].
    rewrite dict_get_set_ne by discriminate. apply dict_get_set_eq.
Qed.

Lemma bullets_contains steps step :
  step ∈ steps -> PyStr.contains ("- " +:+ step +:+ PyStr.nl) (bullets steps) = true.
Proof.
  induction steps as [|x steps IH]; intros Hin; [now apply elem_of_nil in Hin |].
  apply elem_of_cons in Hin as [-> | Hin]; cbn [bullets].
  - apply contains_iff. exists EmptyString, (bullets steps). now rewrite !append_assoc.
  - do 3 apply contains_append_r. now apply IH.
Qed.

Lemma now_text_contains now status step steps :
  step ∈ steps ->
  PyStr.contains ("Status: " +:+ status +:+ PyStr.nl) (now_text now status (Some steps)) = true
  /\ PyStr.contains ("- " +:+ step +:+ PyStr.nl) (now_text now status (Some steps)) = true.
Proof.
  intros Hin. unfold now_text. split.
  - do 3 apply contains_append_r.
    match goal with |- PyStr.contains _ (_ +:+ _ +:+ _ +:+ ?t) = true =>
      apply contains_iff; exists EmptyString, t; now rewrite !append_assoc end.
  - destruct steps as [|x steps]; [now apply elem_of_nil in Hin |].
    do 13 apply contains_append_r. now apply bullets_contains.
Qed.

(** X25. The status survives a restart. After [update_now(status, steps)]
    on files that can be written, constructing a manager again over the same
    files succeeds and leaves NOW.md as [update_now] wrote it; what
    [read_now()] then returns has the line of the status and a bullet line
    for each step (texts without a carriage return, which reading would turn
    into a line feed). *)
Theorem status_survives_restart (mm : @MemoryManager vec) (now later : Clock)
        (status step : string) (steps : list string) :
  files_writable mm = true -> step ∈ steps -> no_cr status -> no_cr step ->
  exists restarted,
    _initialize_storage (snd (update_now sha256_hexdigest mm now status (Some steps))) later
    = Return restarted
    /\ now_file restarted = Some (now_text now status (Some steps))
    /\ PyStr.contains ("Status: " +:+ status +:+ PyStr.nl) (read_now restarted) = true
    /\ PyStr.contains ("- " +:+ step +:+ PyStr.nl) (read_now restarted) = true.
Proof.
  intros Hw Hin Hstatus Hstep. unfold update_now. rewrite Hw. cbn [negb snd].
  set (mm1 := with_now_file mm (Some (now_text now status (Some steps)))).
  set (mm2 := snd (append_log sha256_hexdigest mm1 now "SYSTEM"
                              ("Status updated: " +:+ status) None)).
  assert (Hnow : now_file mm2 = Some (now_text now status (Some steps))).
  { subst mm2. now rewrite append_log_now_file. }
  destruct (append_log_entry sha256_hexdigest mm1 now "SYSTEM"
              ("Status updated: " +:+ status) None Hw) as [entry [Hlog _]].
  fold mm2 in Hlog.
  unfold _initialize_storage. rewrite Hnow, Hlog. cbn [andb].
  eexists. split; [reflexivity |]. cbn [now_file]. split; [reflexivity |].
  unfold read_now. cbn [now_file].
  destruct (now_text_contains now status step steps Hin) as [H1 H2].
  split; apply read_text_contains; try assumption.
  - apply (no_cr_append "Status: "); [reflexivity |].
    apply no_cr_append; [exact Hstatus | reflexivity].
  - apply (no_cr_append "- "); [reflexivity |].
    apply no_cr_append; [exact Hstep | reflexivity].
Qed.

End ColdAndCompaction.

Lemma store_memory_appends_witness :
  exists mm' ldb' record meta,
    Memory.store_memory (fun _ _ => None) (fun _ => tt) memory_with_store sample_clock
                        "remember this" (Some [("agent", PStr "someone else")])
    = (true, mm')
    /\ Memory.lance_db mm' = Some ldb'
    /\ Memory.tables ldb' !! "finn_memory" = Some [earlier_record; record]
    /\ Memory.metadata record = PDict meta
    /\ Py.dict_get "agent" meta = Some (PStr "finn").
Proof.
  destruct (proj2 (store_memory_appends (fun _ _ => None) (fun _ => tt) memory_with_store
                     sample_clock "remember this" (Some [("agent", PStr "someone else")])
                     store_with_table eq_refl)
              ltac:(vm_compute; discriminate) eq_refl)
    as [mm' [ldb' [record [meta [H1 [H2 [H3 [_ [_ [_ [H4 [H5 _]]]]]]]]]]]].
  assert (Hrows : Memory.tables store_with_table !! "finn_memory" = Some [earlier_record])
    by (vm_compute; reflexivity).
  change (Memory.table_name memory_with_store) with "finn_memory" in H3.
  rewrite Hrows in H3.
  exists mm', ldb', record, meta.
  split; [exact H1 |]. split; [exact H2 |]. split; [exact H3 |]. split; [exact H4 | exact H5].
Defined.

Lemma status_survives_restart_witness :
  exists restarted,
    Memory._initialize_storage
      (snd (Memory.update_now no_digest fresh_memory sample_clock
              "Working on: create A.txt then B.txt"
              (Some ["Create A.txt"; "Create B.txt"])))
      sample_clock = Return restarted
    /\ PyStr.contains ("- " +:+ "Create B.txt" +:+ PyStr.nl) (Memory.read_now restarted) = true.
Proof.
  destruct (status_survives_restart no_digest fresh_memory sample_clock sample_clock
              "Working on: create A.txt then B.txt" "Create B.txt"
              ["Create A.txt"; "Create B.txt"]
              eq_refl ltac:(apply list_elem_of_In; right; left; reflexivity)
              eq_refl eq_refl)
    as [restarted [H1 [_ [_ H2]]]].
  exists restarted. split; [exact H1 | exact H2].
Defined.

(** ** Compaction *)

Section Compacting.
Import Memory.
Context {vec : Type}.
Variable embedding_api : string -> string -> option vec.
Variable zero_vector : nat -> vec.

Lemma store_memory_keeps (mm : @MemoryManager vec) now content metadata :
  let mm' := snd (store_memory embedding_api zero_vector mm now content metadata) in
  db mm' = db mm /\ log_file mm' = log_file mm /\ now_file mm' = now_file mm
  /\ agent_name mm' = agent_name mm /\ files_writable mm' = files_writable mm.
Proof.
  cbv zeta. unfold store_memory. destruct (lance_db mm) as [ldb|]; [| auto].
  destruct (negb (lance_truthy (Some ldb))); [auto |].
  destruct (tables_ok ldb); cbn; auto.
Qed.

Lemma all_marked rows :
  filter (fun r => compacted r = false) (map mark_compacted rows) = [].
Proof.
  induction rows as [|r rows IH]; [reflexivity |]. cbn [map].
  rewrite filter_cons. now destruct (decide (compacted (mark_compacted r) = false)).
Qed.

(** X26. With LOG.md on disk and a usable database, [compact_log(summary)]
    leaves no log entry uncompacted; the row it adds to the compaction
    history carries the number of entries that were uncompacted, the summary
    and the size LOG.md had; the facts and NOW.md are untouched. The
    database is committed before LOG.md is rewritten: when the file can be
    written the call returns true and what [read_log()] returns contains the
    summary (a text without a carriage return); when it cannot, the call
    returns false and LOG.md stays as it was, with the rows marked and the
    history row in place all the same. *)
Theorem compact_log_bookkeeping (mm : @MemoryManager vec) (now : Clock)
        (summary content : string) (d : Database) :
  log_file mm = Some content -> db mm = Some d ->
  let c := compact_log embedding_api zero_vector mm now summary in
  compacted_ok c = files_writable mm
  /\ (exists d', db (compacted_memory c) = Some d'
                 /\ uncompacted d' = 0%Z
                 /\ List.length (log_metadata d') = List.length (log_metadata d)
                 /\ user_facts d' = user_facts d)
  /\ (exists row, compaction_row c = Some row
                  /\ entries_count row = uncompacted d
                  /\ compaction_summary row = summary
                  /\ original_size_kb row = Qmake (utf8_size content) 1024)
  /\ (files_writable mm = true -> no_cr summary ->
      PyStr.contains summary (read_log (compacted_memory c) None) = true)
  /\ (files_writable mm = false -> log_file (compacted_memory c) = Some content)
  /\ now_file (compacted_memory c) = now_file mm.
Proof.
  intros Hlog Hdb. cbv zeta. unfold compact_log. rewrite Hlog.
  set (archived := if lance_truthy (lance_db mm) then _ else _).
  assert (Hkeep : db (snd archived) = Some d /\ now_file (snd archived) = now_file mm
                  /\ log_file (snd archived) = Some content).
  { subst archived. destruct (lance_truthy (lance_db mm)); cbn [snd]; [| auto].
    destruct (store_memory_keeps mm now (read_log mm None)
                (Some [("type", PStr "archived_log"); ("agent", PStr (agent_name mm));
                       ("archived_at", PStr (strftime now)); ("summary", PStr summary)]))
      as [H1 [H2 [H3 _]]].
    now rewrite H1, H2, H3. }
  destruct Hkeep as [Hd [Hn Hl]]. rewrite Hd.
  destruct (files_writable mm) eqn:Hw; cbn [negb compacted_ok compacted_memory compaction_row];
    (split; [reflexivity |]); (split; [| split; [| split; [| split]]]);
    try discriminate.
  - eexists. cbn [db with_log_file with_db]. split; [reflexivity |].
    unfold uncompacted. cbn [log_metadata user_facts]. rewrite all_marked, length_map. auto.
  - eexists. split; [reflexivity |]. auto.
  - intros _ Hs. unfold read_log. cbn [log_file with_log_file].
    apply read_text_contains; [exact Hs |].
    do 11 apply contains_append_r. apply contains_prefix.
  - cbn [now_file with_log_file with_db]. exact Hn.
  - eexists. cbn [db with_log_file with_db]. split; [reflexivity |].
    unfold uncompacted. cbn [log_metadata user_facts]. rewrite all_marked, length_map. auto.
  - eexists. split; [reflexivity |]. auto.
  - intros _. cbn [log_file with_db]. exact Hl.
  - cbn [now_file with_log_file with_db]. exact Hn.
Qed.

(** X27. What [compact_log] archives. When [self.lance_db] is false, which
    it is for [None] and also for a store that has no table yet, nothing is
    archived: the store is left as it was and the history row has no archive
    id. On a store with a table the history row names
    the archive [archive_] plus the timestamp; when the table calls succeed,
    the text read from LOG.md becomes the text of a new record of the
    agent's table, whose id is [memory_] plus the timestamp, not the id the
    row names; when they fail, the row names an archive and nothing is
    stored. *)
Theorem compact_log_archive (mm : @MemoryManager vec) (now : Clock)
        (summary content : string) (d : Database) :
  log_file mm = Some content -> db mm = Some d ->
  let c := compact_log embedding_api zero_vector mm now summary in
  (lance_truthy (lance_db mm) = false ->
   lance_db (compacted_memory c) = lance_db mm
   /\ (archive_id <$> compaction_row c) = Some None)
  /\ (forall ldb, lance_db mm = Some ldb -> size (tables ldb) <> 0%nat ->
        (archive_id <$> compaction_row c) = Some (Some ("archive_" +:+ timestamp now))
        /\ (tables_ok ldb = false -> lance_db (compacted_memory c) = Some ldb)
        /\ (tables_ok ldb = true ->
            exists ldb' record,
              lance_db (compacted_memory c) = Some ldb'
              /\ tables ldb' !! table_name mm
                 = Some (default [] (tables ldb !! table_name mm) ++ [record])
              /\ text record = read_text content
              /\ id record = "memory_" +:+ timestamp now
              /\ id record <> "archive_" +:+ timestamp now)).
Proof.
  intros Hlog Hdb. cbv zeta. unfold compact_log. rewrite Hlog.
  split.
  - intros Hl. rewrite Hl. cbn [snd fst]. rewrite Hdb.
    destruct (files_writable mm); cbn; auto.
  - intros ldb Hl Hsize.
    assert (Ht : lance_truthy (Some ldb) = true).
    { rewrite lance_truthy_size. now rewrite (proj2 (Nat.eqb_neq _ _) Hsize). }
    rewrite Hl, Ht. cbn [fst snd].
    pose proof (store_memory_keeps mm now (read_log mm None)
                  (Some [("type", PStr "archived_log"); ("agent", PStr (agent_name mm));
                         ("archived_at", PStr (strftime now)); ("summary", PStr summary)]))
      as [Hd _].
    cbv zeta in Hd. rewrite Hd, Hdb.
    split; [destruct (files_writable mm); reflexivity |]. split.
    + intros Hr. unfold store_memory. rewrite Hl, Ht, Hr. cbn [negb snd].
      destruct (files_writable mm); cbn; exact Hl.
    + intros Hr. unfold store_memory. rewrite Hl, Ht, Hr. cbn [negb snd].
      eexists _, _.
      split; [destruct (files_writable mm); cbn; reflexivity |].
      cbn [tables]. split; [apply lookup_insert_eq |]. cbn [text id].
      split; [unfold read_log; now rewrite Hlog |]. split; [reflexivity |].
      cbn. discriminate.
Qed.

End Compacting.

Lemma compact_log_bookkeeping_witness :
  exists row,
    Memory.compaction_row
      (Memory.compact_log (fun _ _ => None) (fun _ => tt) (memory_with_log None) sample_clock
                          "summary text") = Some row
    /\ Memory.entries_count row = 3%Z.
Proof.
  destruct (compact_log_bookkeeping (fun _ _ => None) (fun _ => tt) (memory_with_log None)
              sample_clock "summary text" _ _ eq_refl eq_refl)
    as [_ [_ [[row [Hrow [Hcount _]]] _]]].
  exists row. split; [exact Hrow | exact Hcount].
Defined.

Lemma compact_log_archive_witness :
  (Memory.archive_id
     <$> Memory.compaction_row
           (Memory.compact_log (fun _ _ => None) (fun _ => tt)
                               (memory_with_log (Some empty_store))
                               sample_clock "summary text")) = Some None
  /\ Memory.lance_db
       (Memory.compacted_memory
          (Memory.compact_log (fun _ _ => None) (fun _ => tt)
                              (memory_with_log (Some broken_store)) sample_clock
                              "summary text")) = Some broken_store.
Proof.
  split.
  - apply (proj1 (compact_log_archive (fun _ _ => None) (fun _ => tt)
                    (memory_with_log (Some empty_store))
                    sample_clock "summary text" _ _ eq_refl eq_refl) eq_refl).
  - apply (proj1 (proj2 (proj2 (compact_log_archive (fun _ _ => None) (fun _ => tt)
                                  (memory_with_log (Some broken_store))
                                  sample_clock "summary text" _ _ eq_refl eq_refl)
                           broken_store eq_refl ltac:(vm_compute; discriminate)))
             eq_refl).
Defined.

(** ** Cleaning the generated code *)

Section CleanCode.

Abbreviation fence := Actor.fence.

Lemma leading_tick_inv s n :
  leading_ticks s = S n -> exists rest, s = String backtick rest /\ leading_ticks rest = n.
Proof.
  destruct s as [|c rest]; cbn; [discriminate |].
  destruct (Ascii.eqb_spec c backtick) as [-> | Hne]; [| discriminate].
  intros [= <-]. now exists rest.
Qed.

Lemma three_ticks s :
  (3 <= leading_ticks s)%nat ->
  exists rest, s = String backtick (String backtick (String backtick rest))
               /\ leading_ticks s = (3 + leading_ticks rest)%nat.
Proof.
  intros H. destruct (leading_ticks s) as [|[|[|n]]] eqn:E; try lia.
  apply leading_tick_inv in E as [s1 [-> E]].
  apply leading_tick_inv in E as [s2 [-> E]].
  apply leading_tick_inv in E as [s3 [-> E]].
  exists s3. split; [reflexivity | now rewrite E].
Qed.

Lemma fence_starts s :
  PyStr.startswith fence s = true <-> (3 <= leading_ticks s)%nat.
Proof.
  split.
  - intros H. apply startswith_iff in H as [post ->]. cbn. lia.
  - intros H. apply three_ticks in H as [rest [-> _]]. reflexivity.
Qed.

Lemma split_go_nonempty fuel sep cur s : PyStr.split_go fuel sep cur s <> [].
Proof.
  revert cur s. induction fuel as [|fuel IH]; intros cur s; [discriminate |].
  cbn. destruct s; [discriminate |]. destruct (PyStr.startswith sep _); [discriminate | apply IH].
Qed.

Lemma join_empty_cons p ps :
  ps <> [] -> PyStr.join EmptyString (p :: ps) = p +:+ PyStr.join EmptyString ps.
Proof. destruct ps; [contradiction | reflexivity]. Qed.

(** Removing a separator: the accumulated piece comes out in front. *)
Lemma remove_go_cur fuel sep cur s :
  PyStr.join EmptyString (PyStr.split_go fuel sep cur s)
  = cur +:+ PyStr.join EmptyString (PyStr.split_go fuel sep EmptyString s).
Proof.
  revert cur s. induction fuel as [|fuel IH]; intros cur s.
  - reflexivity.
  - cbn [PyStr.split_go]. destruct s as [|c rest]; [cbn; now rewrite append_empty_r |].
    destruct (PyStr.startswith sep (String c rest)).
    + rewrite !join_empty_cons by apply split_go_nonempty. reflexivity.
    + rewrite (IH (cur +:+ String c EmptyString)), (IH (EmptyString +:+ String c EmptyString)).
      now rewrite append_assoc.
Qed.

Lemma no_fence_cons c t :
  PyStr.contains fence t = false ->
  (c = backtick -> (leading_ticks t < 2)%nat) ->
  PyStr.contains fence (String c t) = false.
Proof.
  intros Ht Hc. cbn [PyStr.contains]. rewrite Ht, orb_false_r.
  destruct (PyStr.startswith fence (String c t)) eqn:E; [| reflexivity].
  apply fence_starts in E. cbn in E.
  destruct (Ascii.eqb_spec c backtick) as [-> | Hne]; [specialize (Hc eq_refl) |]; lia.
Qed.

Lemma drop_fence s : (3 <= leading_ticks s)%nat ->
  leading_ticks (PyStr.drop 3 s) = (leading_ticks s - 3)%nat
  /\ (String.length (PyStr.drop 3 s) < String.length s)%nat.
Proof.
  intros H. apply three_ticks in H as [rest [-> Hl]]. rewrite Hl. cbn. split; lia.
Qed.

(** After every fence is removed, left to right, no fence is left, and the
    text starts with the backticks that did not fill a fence. *)
Lemma remove_fences_spec fuel s :
  (String.length s <= fuel)%nat ->
  let out := PyStr.join EmptyString (PyStr.split_go fuel fence EmptyString s) in
  PyStr.contains fence out = false /\ leading_ticks out = (leading_ticks s mod 3)%nat.
Proof.
  cbv zeta. revert s. induction fuel as [|fuel IH]; intros s Hlen.
  - destruct s; [split; reflexivity | cbn in Hlen; lia].
  - cbn [PyStr.split_go]. destruct s as [|c rest]; [split; reflexivity |].
    destruct (PyStr.startswith fence (String c rest)) eqn:E.
    + apply fence_starts in E. destruct (drop_fence _ E) as [Hl Hlt].
      rewrite join_empty_cons by apply split_go_nonempty.
      change (String.length fence) with 3%nat.
      destruct (IH (PyStr.drop 3 (String c rest)) ltac:(cbn in *; lia)) as [H1 H2].
      cbn [String.append]. split; [exact H1 |]. rewrite H2, Hl.
      replace (leading_ticks (String c rest)) with (leading_ticks (String c rest) - 3 + 1 * 3)%nat
        at 2 by lia.
      now rewrite Nat.Div0.mod_add.
    + rewrite remove_go_cur. cbn [String.append].
      destruct (IH rest ltac:(cbn in Hlen; lia)) as [H1 H2].
      assert (Hlt : (leading_ticks (String c rest) < 3)%nat).
      { destruct (le_lt_dec 3 (leading_ticks (String c rest))) as [H|H]; [| exact H].
        apply fence_starts in H. congruence. }
      cbn [leading_ticks] in *. destruct (Ascii.eqb_spec c backtick) as [-> | Hne].
      * rewrite (Nat.mod_small (leading_ticks rest)) in H2 by lia.
        split; [apply no_fence_cons; [exact H1 | intros _; lia] |].
        rewrite H2. symmetry. apply Nat.mod_small. lia.
      * split; [apply no_fence_cons; [exact H1 | intros ->; contradiction] |]. reflexivity.
Qed.

Lemma replace_fence_clean s :
  PyStr.contains fence (PyStr.replace fence EmptyString s) = false.
Proof. unfold PyStr.replace, PyStr.split. now apply remove_fences_spec. Qed.

Lemma contains_suffix p a b : PyStr.contains p b = true -> PyStr.contains p (a +:+ b) = true.
Proof. apply contains_append_r. Qed.

Lemma lstrip_space_suffix s : exists a, s = a +:+ PyStr.lstrip_space s.
Proof.
  induction s as [|c s [a IH]]; [now exists EmptyString |]. cbn.
  destruct (PyStr.is_space c); [| now exists EmptyString].
  exists (String c a). cbn. now rewrite <- IH.
Qed.

Lemma rstrip_space_prefix s : exists b, s = PyStr.rstrip_space s +:+ b.
Proof.
  induction s as [|c s [b IH]]; [now exists EmptyString |]. cbn.
  destruct (PyStr.is_empty _ && PyStr.is_space c); [now exists (String c s) |].
  exists b. cbn. now rewrite <- IH.
Qed.

Lemma strip_inside p s : PyStr.contains p (PyStr.strip s) = true -> PyStr.contains p s = true.
Proof.
  unfold PyStr.strip. intros H.
  destruct (lstrip_space_suffix s) as [a Ha].
  destruct (rstrip_space_prefix (PyStr.lstrip_space s)) as [b Hb].
  rewrite Ha. apply contains_append_r. rewrite Hb. now apply contains_append_l.
Qed.

(** X28. Whatever the model answers, the code the Actor passes to [exec]
    contains no Markdown fence. *)
Theorem clean_code_has_no_fence (code_response : string) :
  PyStr.contains fence (Actor.clean_code code_response) = false.
Proof.
  unfold Actor.clean_code.
  match goal with |- PyStr.contains _ (PyStr.strip ?t) = false =>
    destruct (PyStr.contains fence (PyStr.strip t)) eqn:E; [| reflexivity];
    apply strip_inside in E end.
  now rewrite replace_fence_clean in E.
Qed.

(** A fenced answer, with the language tag, comes out bare. *)
Example clean_code_fenced :
  Actor.clean_code (fence +:+ "python" +:+ PyStr.nl +:+ "print(1)" +:+ PyStr.nl +:+ fence
                      +:+ PyStr.nl)
  = "print(1)".
Proof. reflexivity. Qed.

End CleanCode.

(** ** The Actor's pattern *)

Section Pattern.
Import Re.

Lemma length_append a b : String.length (a +:+ b) = (String.length a + String.length b)%nat.
Proof. induction a as [|c a IH]; cbn; [reflexivity | now rewrite IH]. Qed.

Lemma consumed_prefix pre rest : consumed (pre +:+ rest) rest = pre.
Proof.
  unfold consumed. rewrite length_append.
  replace (String.length pre + String.length rest - String.length rest)%nat
    with (String.length pre) by lia.
  induction pre as [|c pre IH]; cbn; [now destruct rest | now rewrite IH].
Qed.

Lemma rmatch_plus a s : rmatch (RPlus a) s = plus_loop a (S (String.length s)) s.
Proof. reflexivity. Qed.

(** The matcher is sound: each way it reports splits the text into a part
    the expression matches in full and the rest. *)
Lemma rmatch_sound r :
  forall s m, In m (rmatch r s) -> exists pre, s = pre +:+ snd m /\ matches r pre.
Proof.
  induction r as [p | a IHa b IHb | a IHa b IHb | a IHa | a IHa | a IHa]; intros s m Hin;
    [cbn [rmatch] in Hin .. | rewrite rmatch_plus in Hin | cbn [rmatch] in Hin].
  - destruct s as [|c rest]; [contradiction |]. destruct (p c) eqn:Hp; [| contradiction].
    destruct Hin as [<- | []]. exists (String c EmptyString). split; [reflexivity |].
    now constructor.
  - apply in_flat_map in Hin as [m1 [H1 Hin]]. apply in_map_iff in Hin as [m2 [<- H2]].
    destruct (IHa _ _ H1) as [x [-> Hx]]. destruct (IHb _ _ H2) as [y [Hy Hmy]].
    exists (x +:+ y). cbn [snd]. split; [rewrite Hy at 1; now rewrite append_assoc |].
    now constructor.
  - apply in_app_or in Hin as [H | H].
    + destruct (IHa _ _ H) as [x [-> Hx]]. exists x. split; [reflexivity | now constructor].
    + destruct (IHb _ _ H) as [x [-> Hx]]. exists x. split; [reflexivity |].
      now apply matches_alt_r.
  - apply in_app_or in Hin as [H | [<- | []]].
    + destruct (IHa _ _ H) as [x [-> Hx]]. exists x. split; [reflexivity |].
      now apply matches_opt_some.
    + exists EmptyString. split; [reflexivity | constructor].
  - revert Hin. generalize (S (String.length s)). intros fuel. revert s m.
    induction fuel as [|fuel IHf]; intros s m Hin; [contradiction |].
    cbn [plus_loop] in Hin; fold (plus_loop a) in Hin. apply in_flat_map in Hin as [m1 [H1 Hin]].
    destruct (IHa _ _ H1) as [x [Hs Hx]].
    apply in_app_or in Hin as [Hin | [<- | []]].
    + destruct (_ <? _)%nat; [| contradiction].
      destruct (IHf _ _ Hin) as [y [Hy Hmy]].
      exists (x +:+ y). split; [rewrite Hs at 1; rewrite Hy at 1; now rewrite append_assoc |].
      now apply matches_plus_more.
    + exists x. split; [exact Hs | now apply matches_plus_one].
  - apply in_map_iff in Hin as [m' [<- H]].
    destruct (IHa _ _ H) as [x [-> Hx]]. exists x. split; [reflexivity | now constructor].
Qed.

(** What the matcher captures is a text that the body of a group matches in
    full. *)
Lemma rmatch_capture r :
  forall s m g, In m (rmatch r s) -> fst m = Some g ->
                exists body, In body (groups r) /\ matches body g.
Proof.
  induction r as [p | a IHa b IHb | a IHa b IHb | a IHa | a IHa | a IHa]; intros s m g Hin Hg;
    cbn [groups]; [cbn [rmatch] in Hin .. | rewrite rmatch_plus in Hin | cbn [rmatch] in Hin].
  - destruct s as [|c rest]; [contradiction |]. destruct (p c); [| contradiction].
    destruct Hin as [<- | []]. discriminate.
  - apply in_flat_map in Hin as [m1 [H1 Hin]]. apply in_map_iff in Hin as [m2 [<- H2]].
    cbn [fst] in Hg. destruct (fst m2) as [g2|] eqn:E2.
    + injection Hg as ->. destruct (IHb _ _ _ H2 E2) as [body [Hb Hm]].
      exists body. split; [apply in_or_app; now right | exact Hm].
    + destruct (IHa _ _ _ H1 Hg) as [body [Hb Hm]].
      exists body. split; [apply in_or_app; now left | exact Hm].
  - apply in_app_or in Hin as [H | H].
    + destruct (IHa _ _ _ H Hg) as [body [Hb Hm]].
      exists body. split; [apply in_or_app; now left | exact Hm].
    + destruct (IHb _ _ _ H Hg) as [body [Hb Hm]].
      exists body. split; [apply in_or_app; now right | exact Hm].
  - apply in_app_or in Hin as [H | [<- | []]]; [now apply (IHa s m g) | discriminate].
  - revert Hin Hg. generalize (S (String.length s)). intros fuel. revert s m.
    induction fuel as [|fuel IHf]; intros s m Hin Hg; [contradiction |].
    cbn [plus_loop] in Hin; fold (plus_loop a) in Hin. apply in_flat_map in Hin as [m1 [H1 Hin]].
    apply in_app_or in Hin as [Hin | [<- | []]].
    + destruct (_ <? _)%nat; [| contradiction]. now apply (IHf (snd m1) m).
    + now apply (IHa s m1 g).
  - apply in_map_iff in Hin as [m' [<- H]]. cbn [fst] in Hg. injection Hg as <-.
    destruct (rmatch_sound a _ _ H) as [x [Hs Hx]].
    exists a. split; [now left |]. rewrite Hs at 1. now rewrite consumed_prefix.
Qed.

Lemma search_found r s g :
  search r s = Some (Some g) -> exists s' m, In m (rmatch r s') /\ fst m = Some g.
Proof.
  induction s as [|c s IH]; cbn [search].
  - destruct (rmatch r EmptyString) as [|m ms] eqn:E; [discriminate |].
    intros [= Hg]. exists EmptyString, m. rewrite E. split; [now left | exact Hg].
  - destruct (rmatch r (String c s)) as [|m ms] eqn:E; [exact IH |].
    intros [= Hg]. exists (String c s), m. rewrite E. split; [now left | exact Hg].
Qed.

Lemma matches_name_tail x : matches (RPlus word_or_dash) x ->
  x <> EmptyString /\ all_chars name_char x = true.
Proof.
  remember (RPlus word_or_dash) as r eqn:Hr. induction 1 as
    [p c Hp | | | | | | a x Hx _ | a x y Hx _ Hy IHy | ]; try discriminate.
  - injection Hr as ->. inversion Hx as [p c Hp | | | | | | | | ]; subst.
    split; [discriminate |]. cbn. unfold name_char. now rewrite Hp.
  - injection Hr as ->. destruct (IHy eq_refl) as [_ Hall].
    inversion Hx as [p c Hp | | | | | | | | ]; subst.
    split; [discriminate |]. cbn. unfold name_char at 1. now rewrite Hp, Hall.
Qed.

(** X29. A skill name the Actor resolves from an instruction starts with a
    word character, continues with at least one more character, and is made
    of word characters and dashes only. *)
Theorem resolved_name_shape (st : State.AgentState) (instruction : string)
        (agent : Agent.Agent) (skill_name : string) :
  Actor.resolve_skill st instruction = Some (agent, skill_name) ->
  exists c rest,
    skill_name = String c rest /\ PyStr.is_word c = true
    /\ rest <> EmptyString /\ all_chars name_char rest = true.
Proof.
  unfold Actor.resolve_skill.
  destruct (State.agent_instance st) as [ag|]; [| discriminate].
  destruct (search skill_pattern instruction) as [[n|]|] eqn:Hs; try discriminate.
  destruct (Registry.has_skill _ n); [| discriminate]. intros [= _ <-].
  apply search_found in Hs as [s' [m [Hin Hg]]].
  destruct (rmatch_capture _ _ _ _ Hin Hg) as [body [Hbody Hm]].
  assert (Hb : body = RSeq word (RPlus word_or_dash)).
  { cbn in Hbody. destruct Hbody as [<- | [<- | [<- | []]]]; reflexivity. }
  subst body. inversion Hm as [ | a b x y Hx Hy | | | | | | | ]; subst.
  inversion Hx as [p c Hp | | | | | | | | ]; subst.
  destruct (matches_name_tail _ Hy) as [Hne Hall].
  exists c, y. auto.
Qed.

Lemma resolved_name_shape_witness :
  exists c rest,
    "file-operations" = String c rest /\ PyStr.is_word c = true
    /\ rest <> EmptyString /\ all_chars name_char rest = true.
Proof.
  exact (resolved_name_shape (sample_state (Some working_agent) skill_plan 0)
           "Use skill 'file-operations' to create a file notes.txt"
           working_agent "file-operations" eq_refl).
Defined.

End Pattern.
